(** * Tic-tac-toe with a minimax opponent: board, search and score record

    Shallow embedding of the game logic shared by [tictactoe_ai.py] and
    [web_app.py] (classes [TicTacToeGame], [MinimaxAI], [GameStats] and the
    functions [load_stats], [save_stats], [update_stats]), and of the
    handlers of the two front ends: the blocks of [main] in [web_app.py]
    that read and write the session, and the methods of [TicTacToeGUI]
    that react to a click, reply, close a game and start a new one.

    Python values are modelled as follows.
    - A board is a list of rows, a row a list of one-character strings; the
      empty cell is the string [" "].
    - Integers are [Z].  List subscripts follow Python: a negative index
      counts from the end, anything else out of range raises [IndexError].
    - A call either returns or raises: the type [res].  Code that mutates
      the board in place takes the board and returns its final contents.
    - [float('inf')] and its negation are the two extra points of [score].
    - The module [random] is an explicit argument of type [rng].
    - A nested call uses up one unit of [limit], the depth the interpreter
      still allows; at 0 the call raises [RecursionError].
    - The score record is a dictionary, [pyval]; the score file lives on a
      [disk], and [json.dump] and [json.load] are a printer and a parser.
    - A handler takes the session (or the window) and the disk and returns
      both as they are when it returns or raises.  A reading of
      [time.time()] is an argument, a rational number; [int] truncates.
    - Of a Tk button the model keeps the options the handlers set; calls
      that only draw (labels, message boxes, markup) are left out, and a
      call of [window.after] is counted in [scheduled]. *)

From Stdlib Require Import ZArith String Ascii List Lia Bool.
From Stdlib Require Import QArith_base DecimalString DecimalZ DecimalPos.
From Stdlib Require Import Sorted.
From stdpp Require Import base list gmap strings.

Import ListNotations.
Local Open Scope string_scope.
Local Open Scope Z_scope.

(** ** Exceptions *)

Inductive exn : Type :=
| IndexError
| KeyError
| TypeError
| ValueError
| OSError
| RecursionError.

Inductive res (A : Type) : Type :=
| Ok (a : A)
| Raise (e : exn).

Arguments Ok {A} a.
Arguments Raise {A} e.

#[global] Instance res_ret : MRet res := fun A a => Ok a.
#[global] Instance res_bind : MBind res := fun A B f m =>
  match m with
  | Ok a => f a
  | Raise e => Raise e
  end.

(** ** Python lists *)

Section PyList.
Context {A : Type}.

(** [seq[i]] *)
Definition getitem (seq : list A) (i : Z) : res A :=
  let n := Z.of_nat (length seq) in
  let k := if i <? 0 then i + n else i in
  if (k <? 0) || (n <=? k) then Raise IndexError
  else match seq !! Z.to_nat k with
       | Some x => Ok x
       | None => Raise IndexError
       end.

(** [seq[i] = v] *)
Definition setitem (seq : list A) (i : Z) (v : A) : res (list A) :=
  let n := Z.of_nat (length seq) in
  let k := if i <? 0 then i + n else i in
  if (k <? 0) || (n <=? k) then Raise IndexError
  else Ok (<[Z.to_nat k := v]> seq).

(** [for x in xs: body], the loop state threaded through the body *)
Fixpoint for_each {I S : Type} (xs : list I) (body : I -> S -> res S) (s : S)
  : res S :=
  match xs with
  | [] => Ok s
  | x :: rest => s' ← body x s; for_each rest body s'
  end.
End PyList.

(** [range(3)] *)
Definition range3 : list Z := [0; 1; 2].

(** ** The board *)

Definition cell : Type := string.
Definition row : Type := list cell.
Definition board : Type := list row.

Definition blank : cell := " ".

(** [board[i][j]] *)
Definition getitem2 (b : board) (i j : Z) : res cell :=
  r ← getitem b i; getitem r j.

(** [board[i][j] = v]: the row object [board[i]] is updated in place *)
Definition setitem2 (b : board) (i j : Z) (v : cell) : res board :=
  r ← getitem b i; r' ← setitem r j v; setitem b i r'.

(** [[[' ' for _ in range(3)] for _ in range(3)]] *)
Definition empty_board : board :=
  [[blank; blank; blank]; [blank; blank; blank]; [blank; blank; blank]].

(** [a == b == c != ' '] over three subscripts of one sequence; Python
    evaluates the operands from the left and stops at the first comparison
    that fails. *)
Definition three_equal (x y z : res cell) : res bool :=
  a ← x; b ← y;
  if negb (String.eqb a b) then Ok false
  else c ← z; Ok (String.eqb b c && negb (String.eqb c blank)).

(** ** class TicTacToeGame *)

Record TicTacToeGame : Type := {
  game_board : board;
  current_player : string;
  move_count : Z;
  start_time : option Q
}.

Definition set_board (g : TicTacToeGame) (b : board) : TicTacToeGame :=
  {| game_board := b; current_player := current_player g;
     move_count := move_count g; start_time := start_time g |}.

Definition set_move_count (g : TicTacToeGame) (n : Z) : TicTacToeGame :=
  {| game_board := game_board g; current_player := current_player g;
     move_count := n; start_time := start_time g |}.

(** [TicTacToeGame.__init__] *)
Definition new_game : TicTacToeGame :=
  {| game_board := empty_board; current_player := "X";
     move_count := 0; start_time := None |}.

(** [TicTacToeGame.reset]; [now] is the value of [time.time()] *)
Definition reset (now : Q) (self : TicTacToeGame) : TicTacToeGame :=
  {| game_board := empty_board; current_player := "X";
     move_count := 0; start_time := Some now |}.

(** [TicTacToeGame.make_move] *)
Definition make_move (self : TicTacToeGame) (r c : Z) (player : cell)
  : res (bool * TicTacToeGame) :=
  x ← getitem2 (game_board self) r c;
  if String.eqb x blank then
    b' ← setitem2 (game_board self) r c player;
    let self1 := set_board self b' in
    let self2 := set_move_count self1 (move_count self1 + 1) in
    Ok (true, self2)
  else Ok (false, self).

(** Rows, columns and diagonals of [check_winner], each helper one loop or
    one [if] of the source.  The result is the value returned, [None] when
    control falls through. *)
Fixpoint check_rows (rows : list row) : res (option cell) :=
  match rows with
  | [] => Ok None
  | r :: rest =>
      t ← three_equal (getitem r 0) (getitem r 1) (getitem r 2);
      if t : bool then x ← getitem r 0; Ok (Some x) else check_rows rest
  end.

Fixpoint check_cols (b : board) (cols : list Z) : res (option cell) :=
  match cols with
  | [] => Ok None
  | c :: rest =>
      t ← three_equal (getitem2 b 0 c) (getitem2 b 1 c) (getitem2 b 2 c);
      if t : bool then x ← getitem2 b 0 c; Ok (Some x) else check_cols b rest
  end.

Definition check_diag (b : board) (c0 c1 c2 : Z) : res (option cell) :=
  t ← three_equal (getitem2 b 0 c0) (getitem2 b 1 c1) (getitem2 b 2 c2);
  if t : bool then x ← getitem2 b 0 c0; Ok (Some x) else Ok None.

(** [TicTacToeGame.check_winner] on the board it reads;
    [MinimaxAI.check_winner_static] is the same text over its argument. *)
Definition check_winner_board (b : board) : res (option cell) :=
  w ← check_rows b;
  match w with
  | Some x => Ok (Some x)
  | None =>
      w ← check_cols b range3;
      match w with
      | Some x => Ok (Some x)
      | None =>
          w ← check_diag b 0 1 2;
          match w with
          | Some x => Ok (Some x)
          | None => check_diag b 2 1 0
          end
      end
  end.

Definition check_winner (self : TicTacToeGame) : res (option cell) :=
  check_winner_board (game_board self).

(** [all(cell != ' ' for row in board for cell in row)] *)
Definition all_marked (b : board) : bool :=
  forallb (fun r => forallb (fun x => negb (String.eqb x blank)) r) b.

(** [TicTacToeGame.is_board_full] *)
Definition is_board_full (self : TicTacToeGame) : bool :=
  all_marked (game_board self).

(** The double loop that collects the coordinates of the empty cells, in
    [get_empty_cells] and at the head of [find_best_move]. *)
Definition collect_empty (b : board) : res (list (Z * Z)) :=
  for_each range3 (fun i =>
    for_each range3 (fun j (empty : list (Z * Z)) =>
      x ← getitem2 b i j;
      if String.eqb x blank then Ok (empty ++ [(i, j)])%list else Ok empty)) [].

(** [TicTacToeGame.get_empty_cells] *)
Definition get_empty_cells (self : TicTacToeGame) : res (list (Z * Z)) :=
  collect_empty (game_board self).

(** ** Scores: Python integers together with [float('inf')] and its negation *)

Inductive score : Type :=
| NegInf
| Fin (z : Z)
| PosInf.

(** [a < b] *)
Definition score_ltb (a b : score) : bool :=
  match a, b with
  | NegInf, NegInf => false
  | NegInf, _ => true
  | Fin _, NegInf => false
  | Fin x, Fin y => x <? y
  | Fin _, PosInf => true
  | PosInf, _ => false
  end.

(** [a == b] *)
Definition score_eqb (a b : score) : bool :=
  match a, b with
  | NegInf, NegInf => true
  | Fin x, Fin y => x =? y
  | PosInf, PosInf => true
  | _, _ => false
  end.

(** [max(a, b)] and [min(a, b)]: the first argument is kept unless the second
    is strictly better. *)
Definition py_max (a b : score) : score := if score_ltb a b then b else a.
Definition py_min (a b : score) : score := if score_ltb b a then b else a.

(** ** The module [random] *)

Record rng : Type := {
  random : Q;        (* the value of [random.random()], in [0, 1) *)
  randbelow : nat    (* the draw behind [random.choice] *)
}.

(** [random.choice(seq)]; raises [IndexError] on an empty sequence *)
Definition choice {A : Type} (g : rng) (seq : list A) : res A :=
  match seq !! (randbelow g mod length seq)%nat with
  | Some x => Ok x
  | None => Raise IndexError
  end.

(** Truth value of a list *)
Definition truthy {A : Type} (seq : list A) : bool :=
  match seq with
  | [] => false
  | _ :: _ => true
  end.

(** ** class MinimaxAI *)

Inductive Difficulty : Type :=
| EASY
| MEDIUM
| HARD.

Record MinimaxAI : Type := {
  ai_player : cell;
  human_player : cell;
  difficulty : Difficulty
}.

(** [winner == player], where [winner] may be [None] *)
Definition winner_is (winner : option cell) (player : cell) : bool :=
  match winner with
  | Some x => String.eqb x player
  | None => false
  end.

(** [copy.deepcopy(board)]: a new object with the same contents *)
Definition deepcopy (b : board) : board := b.

Section MinimaxAI.
Variable self : MinimaxAI.

(** [MinimaxAI.check_winner_static] *)
Definition check_winner_static (b : board) : res (option cell) :=
  check_winner_board b.

(** [MinimaxAI.evaluate] *)
Definition evaluate (b : board) : res Z :=
  winner ← check_winner_static b;
  if winner_is winner (ai_player self) then Ok 10
  else if winner_is winner (human_player self) then Ok (-10)
  else Ok 0.

(** [MinimaxAI.is_full_static] *)
Definition is_full_static (b : board) : bool := all_marked b.

(** The body of the inner [for j] loop of [minimax]: [search] is the
    recursive call, [mark] the symbol placed, [pick] is [max] or [min].
    The loop state is the running [best] and the board object. *)
Definition minimax_body (search : board -> res (score * board))
    (mark : cell) (pick : score -> score -> score)
    (i j : Z) (st : score * board) : res (score * board) :=
  let '(best, b) := st in
  x ← getitem2 b i j;
  if String.eqb x blank then
    b1 ← setitem2 b i j mark;
    '(v, b2) ← search b1;
    b3 ← setitem2 b2 i j blank;
    Ok (pick best v, b3)
  else Ok (best, b).

(** [MinimaxAI.minimax]; [limit] is the number of nested calls the
    interpreter still allows.  The result carries the contents of the
    board object when the call returns. *)
Fixpoint minimax (limit : nat) (b : board) (depth : Z) (is_maximizing : bool)
  : res (score * board) :=
  match limit with
  | O => Raise RecursionError
  | S limit' =>
      s ← evaluate b;
      if s =? 10 then Ok (Fin (s - depth), b)
      else if s =? -10 then Ok (Fin (s + depth), b)
      else if is_full_static b then Ok (Fin 0, b)
      else if is_maximizing then
        for_each range3 (fun i =>
          for_each range3 (fun j =>
            minimax_body (fun b' => minimax limit' b' (depth + 1) false)
              (ai_player self) py_max i j)) (NegInf, b)
      else
        for_each range3 (fun i =>
          for_each range3 (fun j =>
            minimax_body (fun b' => minimax limit' b' (depth + 1) true)
              (human_player self) py_min i j)) (PosInf, b)
  end.

(** The body of the inner loop of [find_best_move]; the loop state is
    [best_val], [best_moves] and the object [board_copy]. *)
Definition best_body (limit : nat) (i j : Z)
    (st : score * list (Z * Z) * board) : res (score * list (Z * Z) * board) :=
  let '(best_val, best_moves, board_copy) := st in
  x ← getitem2 board_copy i j;
  if String.eqb x blank then
    b1 ← setitem2 board_copy i j (ai_player self);
    '(move_val, b2) ← minimax limit b1 0 false;
    b3 ← setitem2 b2 i j blank;
    if score_ltb best_val move_val then Ok (move_val, [(i, j)], b3)
    else if score_eqb move_val best_val
         then Ok (best_val, (best_moves ++ [(i, j)])%list, b3)
         else Ok (best_val, best_moves, b3)
  else Ok (best_val, best_moves, board_copy).

(** The search loop of [find_best_move] over [board_copy] *)
Definition best_moves_loop (limit : nat) (board_copy : board)
  : res (score * list (Z * Z) * board) :=
  for_each range3 (fun i => for_each range3 (fun j => best_body limit i j))
    (NegInf, [], board_copy).

(** [random.choice(cells) if cells else (-1, -1)] *)
Definition choice_or_sentinel (g : rng) (cells : list (Z * Z)) : res (Z * Z) :=
  if truthy cells then choice g cells else Ok (-1, -1).

(** [MinimaxAI.find_best_move].  The second component of the result is
    the contents of the caller's [board] object when the call returns. *)
Definition find_best_move (limit : nat) (g : rng) (b : board)
  : res ((Z * Z) * board) :=
  empty_cells ← collect_empty b;
  match difficulty self with
  | EASY => m ← choice_or_sentinel g empty_cells; Ok (m, b)
  | d =>
      let board_copy := deepcopy b in
      '(_, best_moves, _) ← best_moves_loop limit board_copy;
      match d with
      | MEDIUM =>
          if negb (Qle_bool (3 # 10) (random g)) && truthy empty_cells
          then m ← choice g empty_cells; Ok (m, b)
          else m ← choice_or_sentinel g best_moves; Ok (m, b)
      | _ => m ← choice_or_sentinel g best_moves; Ok (m, b)
      end
  end.
End MinimaxAI.

(** [MinimaxAI('O', 'X', difficulty)], the only way either front end builds
    the opponent *)
Definition default_ai (d : Difficulty) : MinimaxAI :=
  {| ai_player := "O"; human_player := "X"; difficulty := d |}.

(** ** The values held by a score record

    The score record is a Python [dict] with string keys whose values are
    integers, [float('inf')] or a nested [dict]. *)

#[warnings="-register-all"]
Inductive pyval : Type :=
| PInt (z : Z)
| PInf
| PDict (items : list (string * pyval)).

Fixpoint lookup_key (items : list (string * pyval)) (k : string)
  : option pyval :=
  match items with
  | [] => None
  | (k', v) :: rest => if String.eqb k' k then Some v else lookup_key rest k
  end.

Fixpoint store_key (items : list (string * pyval)) (k : string) (v : pyval)
  : list (string * pyval) :=
  match items with
  | [] => [(k, v)]
  | (k', v') :: rest =>
      if String.eqb k' k then (k', v) :: rest
      else (k', v') :: store_key rest k v
  end.

(** [d[k]] *)
Definition getkey (d : pyval) (k : string) : res pyval :=
  match d with
  | PDict items =>
      match lookup_key items k with
      | Some v => Ok v
      | None => Raise KeyError
      end
  | _ => Raise TypeError
  end.

(** [d[k] = v] *)
Definition setkey (d : pyval) (k : string) (v : pyval) : res pyval :=
  match d with
  | PDict items => Ok (PDict (store_key items k v))
  | _ => Raise TypeError
  end.

(** [x + n] for an integer [n] *)
Definition add_int (x : pyval) (n : Z) : res pyval :=
  match x with
  | PInt z => Ok (PInt (z + n))
  | PInf => Ok PInf
  | PDict _ => Raise TypeError
  end.

(** [t < x] for an integer [t] *)
Definition int_lt (t : Z) (x : pyval) : res bool :=
  match x with
  | PInt z => Ok (t <? z)
  | PInf => Ok true
  | PDict _ => Raise TypeError
  end.

(** [x != float('inf')] *)
Definition is_finite (x : pyval) : bool :=
  match x with
  | PInf => false
  | _ => true
  end.

(** The dictionary built by [GameStats.__init__], [load_stats] of the web
    front end and its RESET STATS button. *)
Definition default_stats : pyval :=
  PDict [ ("wins", PInt 0);
          ("losses", PInt 0);
          ("draws", PInt 0);
          ("win_streak", PInt 0);
          ("best_time", PInf);
          ("games_played", PInt 0);
          ("difficulty_wins",
           PDict [("EASY", PInt 0); ("MEDIUM", PInt 0); ("HARD", PInt 0)]) ].

(** ** The module [json] on such values

    [dumps] writes what [json.dump] writes with its default separators;
    [float('inf')] is written as the token [Infinity].  [loads] reads the
    documents [dumps] can write: objects whose keys have no escape sequence,
    integers and [Infinity], with white space between tokens.  Any other
    text raises [ValueError] here, also where [json.load] would accept it
    (strings, arrays, fractions). *)

Definition quote : ascii := "034"%char.

(** [str(z)] *)
Definition str_of_Z (z : Z) : string :=
  DecimalString.NilZero.string_of_int (Z.to_int z).

(** [int(s)] *)
Definition Z_of_str (s : string) : option Z :=
  option_map Z.of_int (DecimalString.NilZero.int_of_string s).

Definition dumps_key (k : string) : string :=
  String quote (k ++ String quote ": ").

(** The members of an object after its opening brace, [dump] writing the
    values. *)
Fixpoint dumps_items (dump : pyval -> string) (items : list (string * pyval))
  : string :=
  match items with
  | [] => "}"
  | (k, x) :: rest =>
      dumps_key k ++ dump x ++
      match rest with
      | [] => "}"
      | _ :: _ => ", " ++ dumps_items dump rest
      end
  end.

Fixpoint dumps (v : pyval) : string :=
  match v with
  | PInt z => str_of_Z z
  | PInf => "Infinity"
  | PDict items => String "{" (dumps_items dumps items)
  end.

(** Space, line feed, tab, carriage return *)
Definition is_space (c : ascii) : bool :=
  Ascii.eqb c " " || Ascii.eqb c "010" || Ascii.eqb c "009"
  || Ascii.eqb c "013".

(** A minus sign or a digit *)
Definition is_number_char (c : ascii) : bool :=
  Ascii.eqb c "-"
  || ((48 <=? nat_of_ascii c)%nat && (nat_of_ascii c <=? 57)%nat).

Fixpoint skip_ws (s : string) : string :=
  match s with
  | String c rest => if is_space c then skip_ws rest else s
  | EmptyString => s
  end.

(** The longest prefix of characters that satisfy [p], and the rest. *)
Fixpoint span (p : ascii -> bool) (s : string) : string * string :=
  match s with
  | String c rest =>
      if p c then let '(pre, post) := span p rest in (String c pre, post)
      else (EmptyString, s)
  | EmptyString => (EmptyString, EmptyString)
  end.

(** The rest of [s] after the prefix [p], if [s] begins with [p]. *)
Fixpoint strip_prefix (p s : string) : option string :=
  match p, s with
  | EmptyString, _ => Some s
  | String a p', String c s' =>
      if Ascii.eqb a c then strip_prefix p' s' else None
  | String _ _, EmptyString => None
  end.

Definition parse_number (s : string) : option (pyval * string) :=
  let '(digits, rest) := span is_number_char s in
  match Z_of_str digits with
  | Some z => Some (PInt z, rest)
  | None => None
  end.

(** A key, after its opening quote *)
Definition parse_key (s : string) : option (string * string) :=
  let '(k, rest) := span (fun c => negb (Ascii.eqb c quote)) s in
  match rest with
  | String _ rest' => Some (k, rest')
  | EmptyString => None
  end.

(** A later pair with the same key replaces the value of the earlier one. *)
Definition dict_of_pairs (pairs : list (string * pyval))
  : list (string * pyval) :=
  fold_left (fun items kv => store_key items (fst kv) (snd kv)) pairs [].

Fixpoint parse_value (fuel : nat) (s : string) : option (pyval * string) :=
  match fuel with
  | O => None
  | S fuel' =>
      match skip_ws s with
      | String "{" rest =>
          match skip_ws rest with
          | String "}" rest' => Some (PDict [], rest')
          | _ =>
              match parse_members fuel' rest with
              | Some (pairs, rest') =>
                  Some (PDict (dict_of_pairs pairs), rest')
              | None => None
              end
          end
      | String "I" rest =>
          match strip_prefix "nfinity" rest with
          | Some rest' => Some (PInf, rest')
          | None => None
          end
      | s' => parse_number s'
      end
  end
with parse_members (fuel : nat) (s : string)
  : option (list (string * pyval) * string) :=
  match fuel with
  | O => None
  | S fuel' =>
      match skip_ws s with
      | String c rest =>
          if Ascii.eqb c quote then
            match parse_key rest with
            | Some (k, rest1) =>
                match skip_ws rest1 with
                | String ":" rest2 =>
                    match parse_value fuel' rest2 with
                    | Some (v, rest3) =>
                        match skip_ws rest3 with
                        | String "," rest4 =>
                            match parse_members fuel' rest4 with
                            | Some (pairs, rest5) =>
                                Some ((k, v) :: pairs, rest5)
                            | None => None
                            end
                        | String "}" rest4 => Some ([(k, v)], rest4)
                        | _ => None
                        end
                    | None => None
                    end
                | _ => None
                end
            | None => None
            end
          else None
      | EmptyString => None
      end
  end.

(** [json.loads]; a malformed document raises [ValueError] *)
Definition loads (s : string) : res pyval :=
  match parse_value (S (String.length s)) s with
  | Some (v, rest) =>
      match skip_ws rest with
      | EmptyString => Ok v
      | _ => Raise ValueError
      end
  | None => Raise ValueError
  end.

(** ** The file system, as far as the score file goes *)

Record disk : Type := {
  files : gmap string string;   (* path to contents *)
  read_only : bool              (* [open(path, 'w')] fails *)
}.

(** [with open(path, 'w') as f: json.dump(v, f)] *)
Definition write_json (d : disk) (path : string) (v : pyval) : res disk :=
  if read_only d then Raise OSError
  else Ok {| files := <[path := dumps v]> (files d);
             read_only := read_only d |}.

(** [with open(path, 'r') as f: json.load(f)] *)
Definition read_json (d : disk) (path : string) : res pyval :=
  match files d !! path with
  | Some text => loads text
  | None => Raise OSError
  end.

(** [path.exists()] *)
Definition exists_file (d : disk) (path : string) : bool :=
  match files d !! path with
  | Some _ => true
  | None => false
  end.

(** ** The statements of [update_game] and [update_stats]

    A statement maps the dictionary to its new contents or raises and leaves
    it as it was; [run] executes statements in sequence and reports the
    dictionary at the end or at the exception. *)

Definition stmt : Type := pyval -> res pyval.

Fixpoint run (body : list stmt) (d : pyval) : pyval * res unit :=
  match body with
  | [] => (d, Ok tt)
  | st :: rest =>
      match st d with
      | Ok d' => run rest d'
      | Raise e => (d, Raise e)
      end
  end.

(** [stats[k] += 1] *)
Definition incr (k : string) : stmt := fun d =>
  x ← getkey d k; y ← add_int x 1; setkey d k y.

(** [stats[k] = v] *)
Definition assign (k : string) (v : pyval) : stmt := fun d => setkey d k v.

(** [stats[k1][k2] += 1]; the inner dictionary is updated in place *)
Definition incr_in (k1 k2 : string) : stmt := fun d =>
  inner ← getkey d k1;
  x ← getkey inner k2;
  y ← add_int x 1;
  inner' ← setkey inner k2 y;
  setkey d k1 inner'.

(** [if time_taken < stats['best_time']: stats['best_time'] = time_taken] *)
Definition lower_best_time (time_taken : Z) : stmt := fun d =>
  best ← getkey d "best_time";
  lt ← int_lt time_taken best;
  if lt : bool then setkey d "best_time" (PInt time_taken) else Ok d.

(** The body shared by [GameStats.update_game] and [update_stats], up to the
    call that saves. *)
Definition update_body (result : string) (time_taken : Z) (difficulty : string)
  : list stmt :=
  incr "games_played" ::
  (if String.eqb result "W" then
     [incr "wins"; incr "win_streak"; incr_in "difficulty_wins" difficulty;
      lower_best_time time_taken]
   else if String.eqb result "L" then
     [incr "losses"; assign "win_streak" (PInt 0)]
   else
     [incr "draws"; assign "win_streak" (PInt 0)]).

(** ** class GameStats (desktop front end) *)

Record GameStats : Type := {
  stats_file : string;
  stats : pyval
}.

(** [GameStats.load_stats] *)
Definition load_stats (self : GameStats) (d : disk) : GameStats :=
  if exists_file d (stats_file self) then
    match read_json d (stats_file self) with
    | Ok v => {| stats_file := stats_file self; stats := v |}
    | Raise _ => self
    end
  else self.

(** [GameStats.save_stats] *)
Definition save_stats (self : GameStats) (d : disk) : disk :=
  match write_json d (stats_file self) (stats self) with
  | Ok d' => d'
  | Raise _ => d
  end.

(** [GameStats.__init__] *)
Definition new_stats (d : disk) : GameStats :=
  load_stats
    {| stats_file := "tictactoe_stats.json"; stats := default_stats |} d.

(** [GameStats.update_game]: the object and the disk after the call, and
    whether the call returned. *)
Definition update_game (self : GameStats) (d : disk) (result : string)
    (time_taken : Z) (difficulty : string) : GameStats * disk * res unit :=
  let '(st, r) := run (update_body result time_taken difficulty) (stats self) in
  let self' := {| stats_file := stats_file self; stats := st |} in
  match r with
  | Ok _ => (self', save_stats self' d, Ok tt)
  | Raise e => (self', d, Raise e)
  end.

(** ** The functions of the web front end *)

Definition web_stats_file : string := "tictactoe_stats_streamlit.json".

(** [load_stats()] *)
Definition web_load_stats (d : disk) : pyval :=
  if exists_file d web_stats_file then
    match read_json d web_stats_file with
    | Ok v => v
    | Raise _ => default_stats
    end
  else default_stats.

(** [save_stats(stats)] *)
Definition web_save_stats (stats : pyval) (d : disk) : disk :=
  match write_json d web_stats_file stats with
  | Ok d' => d'
  | Raise _ => d
  end.

(** [update_stats(stats, result, time_taken, difficulty)]: the dictionary
    passed in and the disk after the call, and the value returned. *)
Definition update_stats (stats : pyval) (d : disk) (result : string)
    (time_taken : Z) (difficulty : string) : pyval * disk * res pyval :=
  let '(st, r) := run (update_body result time_taken difficulty) stats in
  match r with
  | Ok _ => (st, web_save_stats st d, Ok st)
  | Raise e => (st, d, Raise e)
  end.

(** [int(s['best_time']) if s['best_time'] != float('inf') else 0], the best
    time both front ends display *)
Definition shown_best_time (s : pyval) : res Z :=
  best ← getkey s "best_time";
  if is_finite best then
    match best with
    | PInt z => Ok z
    | _ => Raise TypeError
    end
  else Ok 0.

(** ** The winning cells (web front end) *)

(** The loops and tests of [get_winning_cells], as for [check_winner]; the
    rows are addressed by subscript here. *)
Fixpoint winning_rows (b : board) (rows : list Z)
  : res (option (list (Z * Z))) :=
  match rows with
  | [] => Ok None
  | i :: rest =>
      t ← three_equal (getitem2 b i 0) (getitem2 b i 1) (getitem2 b i 2);
      if t : bool then Ok (Some [(i, 0); (i, 1); (i, 2)])
      else winning_rows b rest
  end.

Fixpoint winning_cols (b : board) (cols : list Z)
  : res (option (list (Z * Z))) :=
  match cols with
  | [] => Ok None
  | j :: rest =>
      t ← three_equal (getitem2 b 0 j) (getitem2 b 1 j) (getitem2 b 2 j);
      if t : bool then Ok (Some [(0, j); (1, j); (2, j)])
      else winning_cols b rest
  end.

Definition winning_diag (b : board) (c0 c1 c2 : Z)
  : res (option (list (Z * Z))) :=
  t ← three_equal (getitem2 b 0 c0) (getitem2 b 1 c1) (getitem2 b 2 c2);
  if t : bool then Ok (Some [(0, c0); (1, c1); (2, c2)]) else Ok None.

(** [get_winning_cells(game)] *)
Definition get_winning_cells (game : TicTacToeGame)
  : res (option (list (Z * Z))) :=
  let b := game_board game in
  w ← winning_rows b range3;
  match w with
  | Some cells => Ok (Some cells)
  | None =>
      w ← winning_cols b range3;
      match w with
      | Some cells => Ok (Some cells)
      | None =>
          w ← winning_diag b 0 1 2;
          match w with
          | Some cells => Ok (Some cells)
          | None => winning_diag b 2 1 0
          end
      end
  end.

(** The values that [get_cell_style] puts into the markup of a cell: the
    background, the colour of the mark and the text shown. *)
Definition get_cell_style (x : cell) (winner_cells : option (list (Z * Z)))
    (row col : Z) : string * string * string :=
  let color :=
    if String.eqb x "X" then "#3498db"
    else if String.eqb x "O" then "#e74c3c"
    else "#95a5a6" in
  let bg_color :=
    match winner_cells with
    | Some cells =>
        if truthy cells
           && existsb (fun k => (fst k =? row) && (snd k =? col)) cells
        then "#2ecc71" else "#34495e"
    | None => "#34495e"
    end in
  (bg_color, color, if negb (String.eqb x blank) then x else EmptyString).

(** ** The buttons of the board (desktop front end) *)

(** A [tk.Button], with the options the game sets after creating it. *)
Record Button : Type := {
  text : string;
  state : string;
  disabledforeground : option string;   (* [None]: the default of Tk *)
  bg : string
}.

(** [self.themes] *)
Definition themes : list (string * list (string * string)) :=
  [ ("dark", [("bg", "#1a1a2e"); ("fg", "#ecf0f1"); ("primary", "#16213e");
              ("accent", "#0f3460"); ("win", "#2ecc71"); ("lose", "#e74c3c")]);
    ("light", [("bg", "#ecf0f1"); ("fg", "#1a1a2e"); ("primary", "#bdc3c7");
               ("accent", "#95a5a6"); ("win", "#27ae60"); ("lose", "#c0392b")]) ].

(** [d[k]] on a dictionary literal *)
Fixpoint lookup_literal {A : Type} (d : list (string * A)) (k : string) : res A :=
  match d with
  | [] => Raise KeyError
  | (k', v) :: rest => if String.eqb k' k then Ok v else lookup_literal rest k
  end.

(** [TicTacToeGUI.get_theme_color] *)
Definition get_theme_color (current_theme : string) (color_key : string)
  : res string :=
  theme ← lookup_literal themes current_theme; lookup_literal theme color_key.

(** [self.buttons[i][j].config(bg=color)] *)
Definition config_bg (buttons : list (list Button)) (i j : Z) (color : string)
  : res (list (list Button)) :=
  r ← getitem buttons i;
  x ← getitem r j;
  let x' := {| text := text x; state := state x;
               disabledforeground := disabledforeground x; bg := color |} in
  r' ← setitem r j x';
  setitem buttons i r'.

(** The loops and tests of [highlight_winner]; [Some] carries the buttons
    at the [return] of a test that succeeded, [None] means that control
    falls through. *)
Fixpoint highlight_rows (b : board) (color : string) (rows : list Z)
    (buttons : list (list Button)) : res (option (list (list Button))) :=
  match rows with
  | [] => Ok None
  | i :: rest =>
      t ← three_equal (getitem2 b i 0) (getitem2 b i 1) (getitem2 b i 2);
      if t : bool then
        bs ← for_each range3 (fun j bs => config_bg bs i j color) buttons;
        Ok (Some bs)
      else highlight_rows b color rest buttons
  end.

Fixpoint highlight_cols (b : board) (color : string) (cols : list Z)
    (buttons : list (list Button)) : res (option (list (list Button))) :=
  match cols with
  | [] => Ok None
  | j :: rest =>
      t ← three_equal (getitem2 b 0 j) (getitem2 b 1 j) (getitem2 b 2 j);
      if t : bool then
        bs ← for_each range3 (fun i bs => config_bg bs i j color) buttons;
        Ok (Some bs)
      else highlight_cols b color rest buttons
  end.

(** [TicTacToeGUI.highlight_winner]: the buttons after the call *)
Definition highlight_winner (b : board) (current_theme : string)
    (buttons : list (list Button)) (winner : cell)
  : res (list (list Button)) :=
  color ← (if String.eqb winner "X" then get_theme_color current_theme "win"
           else get_theme_color current_theme "lose");
  w ← highlight_rows b color range3 buttons;
  match w with
  | Some bs => Ok bs
  | None =>
      w ← highlight_cols b color range3 buttons;
      match w with
      | Some bs => Ok bs
      | None =>
          t ← three_equal (getitem2 b 0 0) (getitem2 b 1 1) (getitem2 b 2 2);
          if t : bool then
            for_each range3 (fun i bs => config_bg bs i i color) buttons
          else
            t ← three_equal (getitem2 b 0 2) (getitem2 b 1 1) (getitem2 b 2 0);
            if t : bool then
              for_each range3 (fun i bs => config_bg bs i (2 - i) color) buttons
            else Ok buttons
      end
  end.

(** ** The session of the web front end

    The script [main] runs from top to bottom after every interaction.
    What it keeps between runs is [st.session_state]; a widget returns the
    value the user gave it, a button [True] in the run that follows a
    click on it; [st.rerun()] ends the run.  The calls that only draw are
    left out. *)

Record Session : Type := {
  game : TicTacToeGame;
  game_active : bool;
  combo : Z;
  session_stats : pyval;
  session_difficulty : Difficulty;
  ai : MinimaxAI
}.

Definition set_game (s : Session) (g : TicTacToeGame) : Session :=
  {| game := g; game_active := game_active s; combo := combo s;
     session_stats := session_stats s;
     session_difficulty := session_difficulty s; ai := ai s |}.

Definition set_game_active (s : Session) (a : bool) : Session :=
  {| game := game s; game_active := a; combo := combo s;
     session_stats := session_stats s;
     session_difficulty := session_difficulty s; ai := ai s |}.

Definition set_combo (s : Session) (c : Z) : Session :=
  {| game := game s; game_active := game_active s; combo := c;
     session_stats := session_stats s;
     session_difficulty := session_difficulty s; ai := ai s |}.

Definition set_session_stats (s : Session) (st : pyval) : Session :=
  {| game := game s; game_active := game_active s; combo := combo s;
     session_stats := st;
     session_difficulty := session_difficulty s; ai := ai s |}.

(** [game = TicTacToeGame(); game.start_time = time.time()] *)
Definition started_game (now : Q) : TicTacToeGame :=
  {| game_board := game_board new_game;
     current_player := current_player new_game;
     move_count := move_count new_game; start_time := Some now |}.

(** The three [if ... not in st.session_state] blocks at the head of
    [main], on the empty state of a new session. *)
Definition init_session (now : Q) (d : disk) : Session :=
  {| game := started_game now; game_active := true; combo := 0;
     session_stats := web_load_stats d;
     session_difficulty := HARD; ai := default_ai HARD |}.

Definition diff_map : list (string * Difficulty) :=
  [("EASY", EASY); ("MEDIUM", MEDIUM); ("HARD", HARD)].

(** [==] on the members of [Difficulty] *)
Definition difficulty_eqb (a b : Difficulty) : bool :=
  match a, b with
  | EASY, EASY | MEDIUM, MEDIUM | HARD, HARD => true
  | _, _ => false
  end.

(** The block under the radio button:
    [if diff_map[difficulty_option] != st.session_state.difficulty: ...] *)
Definition select_difficulty (difficulty_option : string) (s : Session)
  : res Session :=
  d ← lookup_literal diff_map difficulty_option;
  if negb (difficulty_eqb d (session_difficulty s)) then
    Ok {| game := game s; game_active := game_active s; combo := combo s;
          session_stats := session_stats s;
          session_difficulty := d; ai := default_ai d |}
  else Ok s.

(** The body of [if st.button("NEW GAME")] *)
Definition new_game_button (now : Q) (s : Session) : Session :=
  set_game_active (set_game s (started_game now)) true.

(** The body of [if st.button("RESET STATS")] *)
Definition reset_stats_button (s : Session) (d : disk) : Session * disk :=
  (set_session_stats s default_stats, web_save_stats default_stats d).

(** [int(x)] on a number that is not an integer: towards zero *)
Definition int_of_Q (x : Q) : Z := Z.quot (Qnum x) (Z.pos (Qden x)).

(** [int(time.time() - game.start_time)] *)
Definition time_taken_at (now : Q) (g : TicTacToeGame) : res Z :=
  match start_time g with
  | Some t => Ok (int_of_Q (Qminus now t))
  | None => Raise TypeError
  end.

(** The statements that end a game in the click handler:
    [game_active = False], the time, the combo, the score record.  The
    record is the object held by the session, so that it shows what
    [update_stats] did to it also when that call raises. *)
Definition finish_game (result : string) (new_combo : Z -> Z) (now : Q)
    (difficulty_option : string) (s : Session) (d : disk)
  : Session * disk * res unit :=
  let s1 := set_game_active s false in
  match time_taken_at now (game s1) with
  | Raise e => (s1, d, Raise e)
  | Ok time_taken =>
      let s2 := set_combo s1 (new_combo (combo s1)) in
      let '(st, d', r) :=
        update_stats (session_stats s2) d result time_taken difficulty_option in
      let s3 := set_session_stats s2 st in
      match r with
      | Ok _ => (s3, d', Ok tt)
      | Raise e => (s3, d', Raise e)
      end
  end.

(** [winner] as a condition: [None] and the empty string count as false *)
Definition winner_truthy (winner : option cell) : bool :=
  match winner with
  | Some s => negb (String.eqb s EmptyString)
  | None => false
  end.

(** [winner_cells = get_winning_cells(game) if winner else None] *)
Definition winner_cells (winner : option cell) (game : TicTacToeGame)
  : res (option (list (Z * Z))) :=
  if winner_truthy winner then get_winning_cells game else Ok None.

(** The body of [if st.button(...)] for the cell [(i, j)]: the move of the
    player, then the reply of the opponent; every path ends in
    [st.rerun()]. *)
Definition click_cell (limit : nat) (g : rng) (now : Q)
    (difficulty_option : string) (i j : Z) (s : Session) (d : disk)
  : Session * disk * res unit :=
  match make_move (game s) i j "X" with
  | Raise e => (s, d, Raise e)
  | Ok (_, g1) =>
      let s1 := set_game s g1 in
      match check_winner g1 with
      | Raise e => (s1, d, Raise e)
      | Ok w1 =>
          if winner_is w1 "X" then
            finish_game "W" (fun c => c + 1) now difficulty_option s1 d
          else if is_board_full g1 then
            finish_game "D" (fun _ => 0) now difficulty_option s1 d
          else
            match find_best_move (ai s1) limit g (game_board g1) with
            | Raise e => (s1, d, Raise e)
            | Ok (ai_move, b2) =>
                let g2 := set_board g1 b2 in
                let s2 := set_game s1 g2 in
                if negb ((fst ai_move =? -1) && (snd ai_move =? -1)) then
                  match make_move g2 (fst ai_move) (snd ai_move) "O" with
                  | Raise e => (s2, d, Raise e)
                  | Ok (_, g3) =>
                      let s3 := set_game s2 g3 in
                      match check_winner g3 with
                      | Raise e => (s3, d, Raise e)
                      | Ok w3 =>
                          if winner_is w3 "O" then
                            finish_game "L" (fun _ => 0) now difficulty_option
                              s3 d
                          else if is_board_full g3 then
                            finish_game "D" (fun _ => 0) now difficulty_option
                              s3 d
                          else (s3, d, Ok tt)
                      end
                  end
                else (s2, d, Ok tt)
            end
      end
  end.

(** The double loop that draws the board: a cell is a button when it is
    empty, the game is active and nobody has won, and markup otherwise.
    [clicked] is the button that was clicked, if one was. *)
Fixpoint board_loop (cells : list (Z * Z)) (winner : option cell)
    (clicked : option (Z * Z)) (limit : nat) (g : rng) (now : Q)
    (difficulty_option : string) (s : Session) (d : disk)
  : Session * disk * res unit :=
  match cells with
  | [] => (s, d, Ok tt)
  | (i, j) :: rest =>
      match getitem2 (game_board (game s)) i j with
      | Raise e => (s, d, Raise e)
      | Ok x =>
          if String.eqb x blank && game_active s
             && negb (winner_truthy winner)
          then
            match clicked with
            | Some (i', j') =>
                if (i =? i') && (j =? j')
                then click_cell limit g now difficulty_option i j s d
                else board_loop rest winner clicked limit g now
                       difficulty_option s d
            | None =>
                board_loop rest winner clicked limit g now
                  difficulty_option s d
            end
          else
            board_loop rest winner clicked limit g now difficulty_option s d
      end
  end.

(** The main game area of [main], from [game = st.session_state.game] to
    the end of the double loop. *)
Definition game_area (clicked : option (Z * Z)) (limit : nat) (g : rng)
    (now : Q) (difficulty_option : string) (s : Session) (d : disk)
  : Session * disk * res unit :=
  match check_winner (game s) with
  | Raise e => (s, d, Raise e)
  | Ok winner =>
      match winner_cells winner (game s) with
      | Raise e => (s, d, Raise e)
      | Ok _ =>
          board_loop (list_prod range3 range3) winner clicked limit g now
            difficulty_option s d
      end
  end.

(** ** The window of the desktop front end

    [TicTacToeGUI], as far as the game goes: the labels, the timer and the
    message boxes are left out.  [scheduled] counts the calls
    [window.after(800, self.ai_move)] made on the window.  Events are
    taken one at a time: [window.update()] only draws. *)

Record TicTacToeGUI : Type := {
  current_theme : string;
  gui_game : TicTacToeGame;
  gui_stats : GameStats;
  gui_difficulty : Difficulty;
  gui_ai : MinimaxAI;
  buttons : list (list Button);
  gui_game_active : bool;
  current_combo : Z;
  difficulty_var : string;
  scheduled : nat
}.

Definition set_gui_game (self : TicTacToeGUI) (g : TicTacToeGame)
  : TicTacToeGUI :=
  {| current_theme := current_theme self; gui_game := g;
     gui_stats := gui_stats self; gui_difficulty := gui_difficulty self;
     gui_ai := gui_ai self; buttons := buttons self;
     gui_game_active := gui_game_active self;
     current_combo := current_combo self;
     difficulty_var := difficulty_var self; scheduled := scheduled self |}.

Definition set_gui_stats (self : TicTacToeGUI) (st : GameStats)
  : TicTacToeGUI :=
  {| current_theme := current_theme self; gui_game := gui_game self;
     gui_stats := st; gui_difficulty := gui_difficulty self;
     gui_ai := gui_ai self; buttons := buttons self;
     gui_game_active := gui_game_active self;
     current_combo := current_combo self;
     difficulty_var := difficulty_var self; scheduled := scheduled self |}.

Definition set_buttons (self : TicTacToeGUI) (bs : list (list Button))
  : TicTacToeGUI :=
  {| current_theme := current_theme self; gui_game := gui_game self;
     gui_stats := gui_stats self; gui_difficulty := gui_difficulty self;
     gui_ai := gui_ai self; buttons := bs;
     gui_game_active := gui_game_active self;
     current_combo := current_combo self;
     difficulty_var := difficulty_var self; scheduled := scheduled self |}.

Definition set_gui_game_active (self : TicTacToeGUI) (a : bool)
  : TicTacToeGUI :=
  {| current_theme := current_theme self; gui_game := gui_game self;
     gui_stats := gui_stats self; gui_difficulty := gui_difficulty self;
     gui_ai := gui_ai self; buttons := buttons self;
     gui_game_active := a; current_combo := current_combo self;
     difficulty_var := difficulty_var self; scheduled := scheduled self |}.

Definition set_current_combo (self : TicTacToeGUI) (c : Z) : TicTacToeGUI :=
  {| current_theme := current_theme self; gui_game := gui_game self;
     gui_stats := gui_stats self; gui_difficulty := gui_difficulty self;
     gui_ai := gui_ai self; buttons := buttons self;
     gui_game_active := gui_game_active self; current_combo := c;
     difficulty_var := difficulty_var self; scheduled := scheduled self |}.

Definition set_current_theme (self : TicTacToeGUI) (theme : string)
  : TicTacToeGUI :=
  {| current_theme := theme; gui_game := gui_game self;
     gui_stats := gui_stats self; gui_difficulty := gui_difficulty self;
     gui_ai := gui_ai self; buttons := buttons self;
     gui_game_active := gui_game_active self;
     current_combo := current_combo self;
     difficulty_var := difficulty_var self; scheduled := scheduled self |}.

(** [TicTacToeGUI.get_stats_text] builds the text of the score panel from
    the score record, and raises where the record lacks a key or holds a
    value it cannot format.  The text has a float in it and is not
    embedded: the methods that call [get_stats_text] are given it as a
    function of the record, of which they use only whether it returns. *)
Section Display.
Variable get_stats_text : pyval -> res string.

(** [TicTacToeGUI.__init__] with [create_ui]: every attribute is assigned
    anew, whatever the object held before. *)
Definition gui_init (now : Q) (d : disk) (self : TicTacToeGUI)
  : res TicTacToeGUI :=
  let theme := "dark" in
  _ ← get_stats_text (stats (new_stats d));
  primary ← get_theme_color theme "primary";
  let button := {| text := " "; state := "normal";
                   disabledforeground := None; bg := primary |} in
  Ok {| current_theme := theme; gui_game := started_game now;
        gui_stats := new_stats d; gui_difficulty := HARD;
        gui_ai := default_ai HARD;
        buttons := [[button; button; button]; [button; button; button];
                    [button; button; button]];
        gui_game_active := true; current_combo := 0;
        difficulty_var := "HARD"; scheduled := 0 |}.

(** [TicTacToeGUI.toggle_theme] *)
Definition toggle_theme (now : Q) (d : disk) (self : TicTacToeGUI)
  : res TicTacToeGUI :=
  let self1 :=
    set_current_theme self
      (if String.eqb (current_theme self) "dark" then "light" else "dark") in
  gui_init now d self1.

(** [TicTacToeGUI.update_button] *)
Definition update_button (self : TicTacToeGUI) (row col : Z) (player : cell)
  : res TicTacToeGUI :=
  let color := if String.eqb player "X" then "#3498db" else "#e74c3c" in
  r ← getitem (buttons self) row;
  x ← getitem r col;
  accent ← get_theme_color (current_theme self) "accent";
  let x' := {| text := player; state := "disabled";
               disabledforeground := Some color; bg := accent |} in
  r' ← setitem r col x';
  bs ← setitem (buttons self) row r';
  Ok (set_buttons self bs).

(** The statements of [check_game_over] that record a finished game,
    colour the line and show the score record; [winner] is [None] for a
    draw. *)
Definition record_game (now : Q) (result : string) (new_combo : Z -> Z)
    (winner : option cell) (self : TicTacToeGUI) (d : disk)
    (time_first : bool) : TicTacToeGUI * disk * res bool :=
  let self1 := set_gui_game_active self false in
  let self1' := if time_first then self1
                else set_current_combo self1 (new_combo (current_combo self1)) in
  match time_taken_at now (gui_game self1') with
  | Raise e => (self1', d, Raise e)
  | Ok time_taken =>
      let self2 := if time_first
                   then set_current_combo self1'
                          (new_combo (current_combo self1'))
                   else self1' in
      let '(st, d', r) :=
        update_game (gui_stats self2) d result time_taken
          (difficulty_var self2) in
      let self3 := set_gui_stats self2 st in
      let show_stats (self4 : TicTacToeGUI) :=
        match get_stats_text (stats (gui_stats self4)) with
        | Raise e => (self4, d', Raise e)
        | Ok _ => (self4, d', Ok true)
        end in
      match r with
      | Raise e => (self3, d', Raise e)
      | Ok _ =>
          match winner with
          | Some w =>
              match highlight_winner (game_board (gui_game self3))
                      (current_theme self3) (buttons self3) w with
              | Raise e => (self3, d', Raise e)
              | Ok bs => show_stats (set_buttons self3 bs)
              end
          | None => show_stats self3
          end
      end
  end.

(** [TicTacToeGUI.check_game_over]: the object and the disk after the
    call, and the value returned. *)
Definition check_game_over (now : Q) (self : TicTacToeGUI) (d : disk)
  : TicTacToeGUI * disk * res bool :=
  match check_winner (gui_game self) with
  | Raise e => (self, d, Raise e)
  | Ok winner =>
      if winner_truthy winner then
        if winner_is winner "X"
        then record_game now "W" (fun c => c + 1) winner self d true
        else record_game now "L" (fun _ => 0) winner self d true
      else if is_board_full (gui_game self) then
        record_game now "D" (fun _ => 0) None self d false
      else (self, d, Ok false)
  end.

(** [TicTacToeGUI.on_click] *)
Definition on_click (now : Q) (row col : Z) (self : TicTacToeGUI) (d : disk)
  : TicTacToeGUI * disk * res unit :=
  if negb (gui_game_active self) then (self, d, Ok tt)
  else
    match make_move (gui_game self) row col "X" with
    | Raise e => (self, d, Raise e)
    | Ok (placed, g1) =>
        let self1 := set_gui_game self g1 in
        if placed : bool then
          match update_button self1 row col "X" with
          | Raise e => (self1, d, Raise e)
          | Ok self2 =>
              let '(self3, d3, over) := check_game_over now self2 d in
              match over with
              | Raise e => (self3, d3, Raise e)
              | Ok true => (self3, d3, Ok tt)
              | Ok false =>
                  ({| current_theme := current_theme self3;
                      gui_game := gui_game self3;
                      gui_stats := gui_stats self3;
                      gui_difficulty := gui_difficulty self3;
                      gui_ai := gui_ai self3; buttons := buttons self3;
                      gui_game_active := gui_game_active self3;
                      current_combo := current_combo self3;
                      difficulty_var := difficulty_var self3;
                      scheduled := S (scheduled self3) |}, d3, Ok tt)
              end
          end
        else (self1, d, Ok tt)
    end.

(** [TicTacToeGUI.ai_move] *)
Definition ai_move (limit : nat) (g : rng) (now : Q) (self : TicTacToeGUI)
    (d : disk) : TicTacToeGUI * disk * res unit :=
  if negb (gui_game_active self) then (self, d, Ok tt)
  else
    match find_best_move (gui_ai self) limit g (game_board (gui_game self)) with
    | Raise e => (self, d, Raise e)
    | Ok (move, b1) =>
        let self1 := set_gui_game self (set_board (gui_game self) b1) in
        if negb ((fst move =? -1) && (snd move =? -1)) then
          match make_move (gui_game self1) (fst move) (snd move) "O" with
          | Raise e => (self1, d, Raise e)
          | Ok (_, g2) =>
              let self2 := set_gui_game self1 g2 in
              match update_button self2 (fst move) (snd move) "O" with
              | Raise e => (self2, d, Raise e)
              | Ok self3 =>
                  let '(self4, d4, over) := check_game_over now self3 d in
                  match over with
                  | Raise e => (self4, d4, Raise e)
                  | Ok _ => (self4, d4, Ok tt)
                  end
              end
          end
        else (self1, d, Ok tt)
    end.

End Display.

(** [self.buttons[i][j].config(text=' ', state='normal', bg=...)] *)
Definition config_free (theme : string) (i j : Z)
    (buttons : list (list Button)) : res (list (list Button)) :=
  r ← getitem buttons i;
  x ← getitem r j;
  primary ← get_theme_color theme "primary";
  let x' := {| text := " "; state := "normal";
               disabledforeground := disabledforeground x; bg := primary |} in
  r' ← setitem r j x';
  setitem buttons i r'.

(** [TicTacToeGUI.reset_game]; [now] is the clock at [game.reset()],
    [now'] the clock at the statement that sets [start_time] again. *)
Definition reset_game (now now' : Q) (self : TicTacToeGUI)
  : res TicTacToeGUI :=
  let g := reset now (gui_game self) in
  let self1 := set_gui_game_active (set_gui_game self g) true in
  let g' := {| game_board := game_board g; current_player := current_player g;
               move_count := move_count g; start_time := Some now' |} in
  let self2 := set_gui_game self1 g' in
  bs ← for_each range3 (fun i =>
          for_each range3 (fun j => config_free (current_theme self2) i j))
        (buttons self2);
  Ok (set_buttons self2 bs).

(** * Specification vocabulary *)

(** A well-formed board: three rows of three cells. *)
Definition is_3x3 (b : board) : Prop :=
  length b = 3%nat /\ Forall (fun r : row => length r = 3%nat) b.

(** The nine coordinates, in the order of the double loop
    [for i in range(3): for j in range(3)]. *)
Definition cells9 : list (Z * Z) :=
  [(0, 0); (0, 1); (0, 2); (1, 0); (1, 1); (1, 2); (2, 0); (2, 1); (2, 2)].

Definition in_grid (c : Z * Z) : Prop :=
  (0 <= fst c < 3) /\ (0 <= snd c < 3).

(** Contents of the cell at an in-grid coordinate. *)
Definition cell_at (b : board) (c : Z * Z) : cell :=
  default blank (r ← b !! Z.to_nat (fst c); r !! Z.to_nat (snd c)).

(** The board with one cell overwritten. *)
Definition place (b : board) (c : Z * Z) (v : cell) : board :=
  alter (fun r : row => <[Z.to_nat (snd c) := v]> r) (Z.to_nat (fst c)) b.

Definition is_blank (b : board) (c : Z * Z) : bool :=
  String.eqb (cell_at b c) blank.

(** The empty cells of a board, in loop order. *)
Definition blank_cells (b : board) : list (Z * Z) :=
  List.filter (is_blank b) cells9.

Definition count_blank (b : board) : nat := length (blank_cells b).

(** The eight lines in the order [check_winner] inspects them: rows,
    columns, main diagonal, anti-diagonal. *)
Definition lines : list ((Z * Z) * (Z * Z) * (Z * Z)) :=
  [ ((0, 0), (0, 1), (0, 2));
    ((1, 0), (1, 1), (1, 2));
    ((2, 0), (2, 1), (2, 2));
    ((0, 0), (1, 0), (2, 0));
    ((0, 1), (1, 1), (2, 1));
    ((0, 2), (1, 2), (2, 2));
    ((0, 0), (1, 1), (2, 2));
    ((0, 2), (1, 1), (2, 0)) ].

(** A line is completed by [s]: its three cells hold [s], and [s] is a mark. *)
Definition completes (b : board) (l : (Z * Z) * (Z * Z) * (Z * Z)) (s : cell)
  : Prop :=
  let '(c1, c2, c3) := l in
  cell_at b c1 = s /\ cell_at b c2 = s /\ cell_at b c3 = s /\ s <> blank.

(** [x == y == z != ' '] on three values *)
Definition line_test (x y z : cell) : bool :=
  String.eqb x y && String.eqb y z && negb (String.eqb z blank).

Definition completesb (b : board) (l : (Z * Z) * (Z * Z) * (Z * Z)) : bool :=
  let '(c1, c2, c3) := l in
  line_test (cell_at b c1) (cell_at b c2) (cell_at b c3).

Definition line_head (l : (Z * Z) * (Z * Z) * (Z * Z)) : Z * Z := fst (fst l).

(** The symbol of the first completed line of a list of lines. *)
Fixpoint first_completed (b : board) (ls : list ((Z * Z) * (Z * Z) * (Z * Z)))
  : option cell :=
  match ls with
  | [] => None
  | l :: rest =>
      if completesb b l then Some (cell_at b (line_head l))
      else first_completed b rest
  end.

Definition winner_of (b : board) : option cell := first_completed b lines.

(** The players of an opponent are two different marks. *)
Definition players_ok (self : MinimaxAI) : Prop :=
  ai_player self <> blank /\ human_player self <> blank
  /\ ai_player self <> human_player self.

(** Order on scores. *)
Definition score_le (a b : score) : Prop := score_ltb b a = false.

(** The score a call returned, for stating the recursion. *)
Definition value_of (m : res (score * board)) : score :=
  match m with
  | Ok (s, _) => s
  | Raise _ => NegInf
  end.

(** The terminal score of a board, as [evaluate] computes it. *)
Definition eval_of (self : MinimaxAI) (b : board) : Z :=
  if winner_is (winner_of b) (ai_player self) then 10
  else if winner_is (winner_of b) (human_player self) then -10
  else 0.

(** The symbol placed, the choice made and its starting value at one level
    of the recursion. *)
Definition mover (self : MinimaxAI) (is_maximizing : bool) : cell :=
  if is_maximizing then ai_player self else human_player self.

Definition pick_of (is_maximizing : bool) : score -> score -> score :=
  if is_maximizing then py_max else py_min.

Definition start_of (is_maximizing : bool) : score :=
  if is_maximizing then NegInf else PosInf.

(** [s] is the greatest (the least) element of a list of scores. *)
Definition is_maximum (s : score) (l : list score) : Prop :=
  In s l /\ forall x, In x l -> score_le x s.

Definition is_minimum (s : score) (l : list score) : Prop :=
  In s l /\ forall x, In x l -> score_le s x.

(** The top-level evaluation of an empty cell: place the computer's
    symbol, then search from depth 0 with the human to move. *)
Definition top_val (self : MinimaxAI) (limit : nat) (b : board) (c : Z * Z)
  : score :=
  value_of (minimax self limit (place b c (ai_player self)) 0 false).

Definition best_val_of (self : MinimaxAI) (limit : nat) (b : board) : score :=
  fold_left py_max (List.map (top_val self limit b) (blank_cells b)) NegInf.

(** The best-set: the empty cells whose evaluation is the greatest. *)
Definition best_set (self : MinimaxAI) (limit : nat) (b : board)
  : list (Z * Z) :=
  List.filter
    (fun c => score_eqb (top_val self limit b c) (best_val_of self limit b))
    (blank_cells b).

(** The greatest evaluation among the cells seen so far by the loop of
    [find_best_move], and the cells that reach it. *)
Definition running_max (val : Z * Z -> score) (seen : list (Z * Z)) : score :=
  fold_left py_max (List.map val seen) NegInf.

Definition running_set (val : Z * Z -> score) (seen : list (Z * Z))
  : list (Z * Z) :=
  List.filter (fun c => score_eqb (val c) (running_max val seen)) seen.

(** A cell lies on a line. *)
Definition on_line (c : Z * Z) (l : (Z * Z) * (Z * Z) * (Z * Z)) : Prop :=
  c = fst (fst l) \/ c = snd (fst l) \/ c = snd l.

(** Placing [s] on the empty cell [c] makes the winner check report [s]. *)
Definition completes_at (b : board) (c : Z * Z) (s : cell) : Prop :=
  In c (blank_cells b) /\ check_winner_board (place b c s) = Ok (Some s).

(** Every character of [s] satisfies [p]. *)
Fixpoint all_chars (p : ascii -> bool) (s : string) : bool :=
  match s with
  | EmptyString => true
  | String c rest => p c && all_chars p rest
  end.

(** The text that follows does not continue a token made of [p]. *)
Definition stops (p : ascii -> bool) (rest : string) : Prop :=
  match rest with
  | EmptyString => True
  | String c _ => p c = false
  end.

(** A character that [json.dump] writes as it is inside a key. *)
Definition plain_char (c : ascii) : bool :=
  negb (Ascii.eqb c quote) && negb (Ascii.eqb c "\")
  && (32 <=? nat_of_ascii c)%nat && (nat_of_ascii c <? 127)%nat.

Fixpoint distinct (ks : list string) : bool :=
  match ks with
  | [] => true
  | k :: rest => negb (existsb (String.eqb k) rest) && distinct rest
  end.

Fixpoint all_items (ok : pyval -> bool) (items : list (string * pyval)) : bool :=
  match items with
  | [] => true
  | (k, x) :: rest => all_chars plain_char k && ok x && all_items ok rest
  end.

(** A value of the kind a score record holds: the keys of every dictionary
    are distinct and made of plain characters. *)
Fixpoint well_formed (v : pyval) : bool :=
  match v with
  | PDict items => distinct (List.map fst items) && all_items well_formed items
  | _ => true
  end.

Fixpoint size_items (size : pyval -> nat) (items : list (string * pyval)) : nat :=
  match items with
  | [] => O
  | (_, x) :: rest => S (size x + size_items size rest)
  end.

Fixpoint size (v : pyval) : nat :=
  match v with
  | PDict items => S (size_items size items)
  | _ => 1%nat
  end.

(** A score record, field by field; [best_time] is [None] while unset. *)
Record ScoreRecord : Type := {
  wins : Z;
  losses : Z;
  draws : Z;
  win_streak : Z;
  best_time : option Z;
  games_played : Z;
  easy_wins : Z;
  medium_wins : Z;
  hard_wins : Z
}.

Definition best_time_value (best : option Z) : pyval :=
  match best with
  | Some t => PInt t
  | None => PInf
  end.

(** The dictionary that holds a score record. *)
Definition to_dict (r : ScoreRecord) : pyval :=
  PDict [ ("wins", PInt (wins r));
          ("losses", PInt (losses r));
          ("draws", PInt (draws r));
          ("win_streak", PInt (win_streak r));
          ("best_time", best_time_value (best_time r));
          ("games_played", PInt (games_played r));
          ("difficulty_wins",
           PDict [("EASY", PInt (easy_wins r));
                  ("MEDIUM", PInt (medium_wins r));
                  ("HARD", PInt (hard_wins r))]) ].

(** Order on best times, the unset one above all. *)
Definition best_time_le (a b : option Z) : Prop :=
  match a, b with
  | _, None => True
  | None, Some _ => False
  | Some x, Some y => x <= y
  end.

(** The effect of one update on the fields of a score record. *)
Definition new_best_time (time_taken : Z) (best : option Z) : option Z :=
  match best with
  | Some b => if time_taken <? b then Some time_taken else Some b
  | None => Some time_taken
  end.

Definition count_game (r : ScoreRecord) : ScoreRecord :=
  {| wins := wins r; losses := losses r; draws := draws r;
     win_streak := win_streak r; best_time := best_time r;
     games_played := games_played r + 1; easy_wins := easy_wins r;
     medium_wins := medium_wins r; hard_wins := hard_wins r |}.

Definition count_win (r : ScoreRecord) : ScoreRecord :=
  {| wins := wins r + 1; losses := losses r; draws := draws r;
     win_streak := win_streak r + 1; best_time := best_time r;
     games_played := games_played r; easy_wins := easy_wins r;
     medium_wins := medium_wins r; hard_wins := hard_wins r |}.

Definition count_loss (r : ScoreRecord) : ScoreRecord :=
  {| wins := wins r; losses := losses r + 1; draws := draws r;
     win_streak := 0; best_time := best_time r;
     games_played := games_played r; easy_wins := easy_wins r;
     medium_wins := medium_wins r; hard_wins := hard_wins r |}.

Definition count_draw (r : ScoreRecord) : ScoreRecord :=
  {| wins := wins r; losses := losses r; draws := draws r + 1;
     win_streak := 0; best_time := best_time r;
     games_played := games_played r; easy_wins := easy_wins r;
     medium_wins := medium_wins r; hard_wins := hard_wins r |}.

Definition count_difficulty (difficulty : string) (r : ScoreRecord)
  : option ScoreRecord :=
  if String.eqb "EASY" difficulty then
    Some {| wins := wins r; losses := losses r; draws := draws r;
            win_streak := win_streak r; best_time := best_time r;
            games_played := games_played r; easy_wins := easy_wins r + 1;
            medium_wins := medium_wins r; hard_wins := hard_wins r |}
  else if String.eqb "MEDIUM" difficulty then
    Some {| wins := wins r; losses := losses r; draws := draws r;
            win_streak := win_streak r; best_time := best_time r;
            games_played := games_played r; easy_wins := easy_wins r;
            medium_wins := medium_wins r + 1; hard_wins := hard_wins r |}
  else if String.eqb "HARD" difficulty then
    Some {| wins := wins r; losses := losses r; draws := draws r;
            win_streak := win_streak r; best_time := best_time r;
            games_played := games_played r; easy_wins := easy_wins r;
            medium_wins := medium_wins r; hard_wins := hard_wins r + 1 |}
  else None.

Definition set_best_time (time_taken : Z) (r : ScoreRecord) : ScoreRecord :=
  {| wins := wins r; losses := losses r; draws := draws r;
     win_streak := win_streak r;
     best_time := new_best_time time_taken (best_time r);
     games_played := games_played r; easy_wins := easy_wins r;
     medium_wins := medium_wins r; hard_wins := hard_wins r |}.

(** The record after [update_body], and whether the body ran to its end. *)
Definition update_record (result : string) (time_taken : Z)
    (difficulty : string) (r : ScoreRecord) : ScoreRecord * res unit :=
  if String.eqb result "W" then
    match count_difficulty difficulty (count_win (count_game r)) with
    | Some r' => (set_best_time time_taken r', Ok tt)
    | None => (count_win (count_game r), Raise KeyError)
    end
  else if String.eqb result "L" then (count_loss (count_game r), Ok tt)
  else (count_draw (count_game r), Ok tt).

(** ** Vocabulary of the further properties *)

(** A caller that makes moves one after the other, as both front ends do. *)
Fixpoint play_moves (moves : list (Z * Z * cell)) (g : TicTacToeGame)
  : res TicTacToeGame :=
  match moves with
  | [] => Ok g
  | (r, c, p) :: rest => '(_, g') ← make_move g r c p; play_moves rest g'
  end.

(** Position of a cell in the order of the double loop over the grid. *)
Definition cell_index (k : Z * Z) : Z := 3 * fst k + snd k.

(** The cells of a line, and the first completed line of a list of lines. *)
Definition line_cells (l : (Z * Z) * (Z * Z) * (Z * Z)) : list (Z * Z) :=
  [fst (fst l); snd (fst l); snd l].

Fixpoint first_line (b : board) (ls : list ((Z * Z) * (Z * Z) * (Z * Z)))
  : option ((Z * Z) * (Z * Z) * (Z * Z)) :=
  match ls with
  | [] => None
  | l :: rest => if completesb b l then Some l else first_line b rest
  end.

(** The button at a coordinate of the grid. *)
Definition button_at (buttons : list (list Button)) (c : Z * Z)
  : option Button :=
  r ← buttons !! Z.to_nat (fst c); r !! Z.to_nat (snd c).

Definition with_bg (x : Button) (color : string) : Button :=
  {| text := text x; state := state x;
     disabledforeground := disabledforeground x; bg := color |}.

(** A grid of buttons: three rows of three. *)
Definition is_grid {A : Type} (g : list (list A)) : Prop :=
  length g = 3%nat /\ Forall (fun r => length r = 3%nat) g.

(** The buttons with the background of some cells set. *)
Definition paint (color : string) (cells : list (Z * Z))
    (buttons : list (list Button)) : list (list Button) :=
  fold_left
    (fun bs k =>
       alter (alter (fun x => with_bg x color) (Z.to_nat (snd k)))
         (Z.to_nat (fst k)) bs)
    cells buttons.

(** The same opponent at another difficulty. *)
Definition with_difficulty (self : MinimaxAI) (d : Difficulty) : MinimaxAI :=
  {| ai_player := ai_player self; human_player := human_player self;
     difficulty := d |}.

(** Some cell, every cell of a list passes a test; the tests are run from
    the left and stop as soon as the answer is known. *)
Fixpoint some_cell (f : Z * Z -> bool) (l : list (Z * Z)) : bool :=
  match l with
  | [] => false
  | c :: rest => if f c then true else some_cell f rest
  end.

Fixpoint every_cell (f : Z * Z -> bool) (l : list (Z * Z)) : bool :=
  match l with
  | [] => true
  | c :: rest => if f c then every_cell f rest else false
  end.

(** The computer can avoid defeat from a position: it has won, or the board
    is full without a winner, or, when it is to move ([m] true), some move
    leads to such a position, or, when the human is to move, every move
    does.  [n] bounds the number of moves looked ahead. *)
Fixpoint nonlosing (self : MinimaxAI) (n : nat) (b : board) (m : bool) : bool :=
  match n with
  | O => false
  | S n' =>
      if eval_of self b =? 10 then true
      else if eval_of self b =? -10 then false
      else if all_marked b then true
      else if m then
        some_cell
          (fun c => nonlosing self n' (place b c (ai_player self)) false)
          (blank_cells b)
      else
        every_cell
          (fun c => nonlosing self n' (place b c (human_player self)) true)
          (blank_cells b)
  end.

(** The computer can avoid defeat, looking as far ahead as a game lasts. *)
Definition avoids_defeat (self : MinimaxAI) (b : board) (m : bool) : bool :=
  nonlosing self 10 b m.

(** The three names under which wins are counted. *)
Definition known_difficulty (name : string) : Prop :=
  name = "EASY" \/ name = "MEDIUM" \/ name = "HARD".

(** A game as the score record sees it: result, time taken, difficulty. *)
Definition is_win (game : string * Z * string) : Prop := game.1.1 = "W".

Definition valid_game (game : string * Z * string) : Prop :=
  is_win game -> known_difficulty game.2.

(** Calls of [update_game] one after the other; the outcome of each call
    is dropped, as the desktop front end does. *)
Fixpoint update_games (games : list (string * Z * string)) (self : GameStats)
    (d : disk) : GameStats * disk :=
  match games with
  | [] => (self, d)
  | (result, time_taken, difficulty) :: rest =>
      let '(self', d', _) := update_game self d result time_taken difficulty in
      update_games rest self' d'
  end.

(** The result a finished board is recorded under, [None] while the game
    goes on. *)
Definition outcome (b : board) : option string :=
  if winner_is (winner_of b) "X" then Some "W"
  else if winner_is (winner_of b) "O" then Some "L"
  else if all_marked b then Some "D"
  else None.

(** The condition under which a cell is drawn as a button. *)
Definition is_button (s : Session) (c : Z * Z) : bool :=
  is_blank (game_board (game s)) c && game_active s
  && negb (winner_truthy (winner_of (game_board (game s)))).

(** The game after [n] more moves that led to the board [b]. *)
Definition moved (g : TicTacToeGame) (b : board) (n : Z) : TicTacToeGame :=
  {| game_board := b; current_player := current_player g;
     move_count := move_count g + n; start_time := start_time g |}.

(** The session after a game that ended with [result] on the game [g']. *)
Definition ended (s : Session) (g' : TicTacToeGame) (result : string)
    (r' : ScoreRecord) : Session :=
  {| game := g'; game_active := false;
     combo := if String.eqb result "W" then combo s + 1 else 0;
     session_stats := to_dict r';
     session_difficulty := session_difficulty s; ai := ai s |}.

(** What the user does before a run of the script. *)
Inductive action : Type :=
| Idle
| PressNewGame
| PressResetStats
| ClickCell (i j : Z).

(** A run of the script: what the user did, the option shown by the radio
    button, the clock, the random draws, and the number of nested calls
    the interpreter allows. *)
Record run_input : Type := {
  act : action;
  radio : string;
  clock : Q;
  chance : rng;
  call_limit : nat
}.

(** The block of [main] under [# Statistics] shows the score record and
    the combo.  It writes nothing, and raises where the record lacks a key
    or holds a value it cannot show.  It formats a float and is not
    embedded: a run is given it as a function of the record and the combo,
    of which it uses only whether it returns. *)
Section Script.
Variable show_statistics : pyval -> Z -> res unit.

(** One run of [main] on a session that exists: the block under the
    radio button, the statistics, then the body of the button pressed, if
    one was, or the game area.  A run that raises leaves the state as it
    is then. *)
Definition web_run (inp : run_input) (st : Session * disk) : Session * disk :=
  match select_difficulty (radio inp) st.1 with
  | Raise _ => st
  | Ok s1 =>
      match show_statistics (session_stats s1) (combo s1) with
      | Raise _ => (s1, st.2)
      | Ok _ =>
          match act inp with
          | Idle =>
              (game_area None (call_limit inp) (chance inp) (clock inp)
                 (radio inp) s1 st.2).1
          | PressNewGame => (new_game_button (clock inp) s1, st.2)
          | PressResetStats => reset_stats_button s1 st.2
          | ClickCell i j =>
              (game_area (Some (i, j)) (call_limit inp) (chance inp)
                 (clock inp) (radio inp) s1 st.2).1
          end
      end
  end.

Definition web_runs (inps : list run_input) (st : Session * disk)
  : Session * disk :=
  fold_left (fun st inp => web_run inp st) inps st.
End Script.

(** The record of a first start, [default_stats]. *)
Definition first_record : ScoreRecord :=
  {| wins := 0; losses := 0; draws := 0; win_streak := 0; best_time := None;
     games_played := 0; easy_wins := 0; medium_wins := 0; hard_wins := 0 |}.

(** The score file [path] holds the record [r] as the program saves it, or
    there is no such file and [r] is the record of a first start. *)
Definition on_file (d : disk) (path : string) (r : ScoreRecord) : Prop :=
  files d !! path = Some (dumps (to_dict r))
  \/ (files d !! path = None /\ r = first_record).

(** A session in good order: the board is well-formed, the opponent is
    the one of the difficulty selected, the clock of the game is set, the
    score record is a record, the game is active exactly while it is not
    over, and [move_count] counts the marks. *)
Definition session_ok (s : Session) : Prop :=
  let b := game_board (game s) in
  is_3x3 b
  /\ ai s = default_ai (session_difficulty s)
  /\ (exists t0, start_time (game s) = Some t0)
  /\ (exists r, session_stats s = to_dict r)
  /\ (winner_of b = None \/ winner_of b = Some "X" \/ winner_of b = Some "O")
  /\ (game_active s = true <-> outcome b = None)
  /\ move_count (game s) = 9 - Z.of_nat (count_blank b).

(** A session at the hardest difficulty in which the human has not won
    and cannot force a win, and has not won a game since the session
    began with [wins0] wins on record. *)
Definition hard_session (wins0 : Z) (s : Session) : Prop :=
  let b := game_board (game s) in
  session_difficulty s = HARD
  /\ winner_of b <> Some "X"
  /\ (winner_of b = None -> all_marked b = false ->
      avoids_defeat (default_ai HARD) b false = true)
  /\ (exists r, session_stats s = to_dict r /\ (wins r = wins0 \/ wins r = 0)).

(** The button of a cell that holds a mark, as [update_button] leaves it. *)
Definition marked_button (accent : string) (player : cell) : Button :=
  {| text := player; state := "disabled";
     disabledforeground :=
       Some (if String.eqb player "X" then "#3498db" else "#e74c3c");
     bg := accent |}.

(** The buttons with the button of one cell replaced. *)
Definition put_button (buttons : list (list Button)) (c : Z * Z) (x : Button)
  : list (list Button) :=
  alter (fun r => <[Z.to_nat (snd c) := x]> r) (Z.to_nat (fst c)) buttons.

(** What a method returns after it showed the score record [st]: the
    value [a], or the exception of [get_stats_text]. *)
Definition shown {A : Type} (get_stats_text : pyval -> res string)
    (st : pyval) (a : A) : res A :=
  match get_stats_text st with
  | Ok _ => Ok a
  | Raise e => Raise e
  end.

(** Clicks on cells one after the other, with the clock at each click and
    no reply of the opponent in between. *)
Fixpoint on_clicks (get_stats_text : pyval -> res string)
    (clicks : list (Q * (Z * Z))) (self : TicTacToeGUI) (d : disk)
  : TicTacToeGUI * disk :=
  match clicks with
  | [] => (self, d)
  | (now, c) :: rest =>
      let '(self', d', _) :=
        on_click get_stats_text now (fst c) (snd c) self d in
      on_clicks get_stats_text rest self' d'
  end.

(** A window in good order: board and buttons are grids, the theme is one
    of the two, the clock of the game is set, the score record is a record
    kept in [file], and the difficulty selected is one of the three. *)
Definition window_ok (self : TicTacToeGUI) (file : string) (r : ScoreRecord)
    (t0 : Q) : Prop :=
  is_3x3 (game_board (gui_game self))
  /\ is_grid (buttons self)
  /\ (current_theme self = "dark" \/ current_theme self = "light")
  /\ start_time (gui_game self) = Some t0
  /\ gui_stats self = {| stats_file := file; stats := to_dict r |}
  /\ known_difficulty (difficulty_var self).

(** * Basic facts *)

Lemma bind_Ok {A B} (a : A) (f : A -> res B) : (Ok a ≫= f) = f a.
Proof. reflexivity. Qed.

Lemma is_3x3_inv (b : board) :
  is_3x3 b ->
  exists a0 a1 a2 b0 b1 b2 c0 c1 c2 : cell,
    b = [[a0; a1; a2]; [b0; b1; b2]; [c0; c1; c2]].
Proof.
  intros [Hlen Hrows].
  destruct b as [|r0 [|r1 [|r2 [|? ?]]]]; try discriminate.
  inversion Hrows as [|? ? H0 Hrows1]; subst.
  inversion Hrows1 as [|? ? H1 Hrows2]; subst.
  inversion Hrows2 as [|? ? H2 _]; subst.
  destruct r0 as [|a0 [|a1 [|a2 [|? ?]]]]; try discriminate.
  destruct r1 as [|b0 [|b1 [|b2 [|? ?]]]]; try discriminate.
  destruct r2 as [|c0 [|c1 [|c2 [|? ?]]]]; try discriminate.
  do 9 eexists; reflexivity.
Qed.

Lemma is_3x3_intro (a0 a1 a2 b0 b1 b2 c0 c1 c2 : cell) :
  is_3x3 [[a0; a1; a2]; [b0; b1; b2]; [c0; c1; c2]].
Proof. split; [reflexivity | repeat constructor]. Qed.

Lemma in_grid_cells9 (c : Z * Z) : in_grid c <-> In c cells9.
Proof.
  destruct c as [i j]; unfold in_grid, cells9; simpl; split.
  - intros [Hi Hj].
    assert (i = 0 \/ i = 1 \/ i = 2) as Hi' by lia.
    assert (j = 0 \/ j = 1 \/ j = 2) as Hj' by lia.
    destruct Hi' as [-> | [-> | ->]], Hj' as [-> | [-> | ->]]; tauto.
  - intros H.
    repeat (destruct H as [H | H]; [inversion H; subst; lia |]).
    destruct H.
Qed.

(** Destructs a well-formed board into its nine cells and a coordinate of
    the grid into its nine cases. *)
Ltac grid_cases b Hb :=
  let a0 := fresh "a0" in let a1 := fresh "a1" in let a2 := fresh "a2" in
  let b0 := fresh "b0" in let b1 := fresh "b1" in let b2 := fresh "b2" in
  let c0 := fresh "c0" in let c1 := fresh "c1" in let c2 := fresh "c2" in
  destruct (is_3x3_inv b Hb)
    as (a0 & a1 & a2 & b0 & b1 & b2 & c0 & c1 & c2 & ->).

Ltac cell_cases H :=
  apply in_grid_cells9 in H; unfold cells9 in H; simpl in H;
  repeat (destruct H as [H | H]); try contradiction;
  try (injection H as ? ?); subst.

Lemma getitem2_grid (b : board) (i j : Z) :
  is_3x3 b -> in_grid (i, j) -> getitem2 b i j = Ok (cell_at b (i, j)).
Proof.
  intros Hb Hc. grid_cases b Hb. cell_cases Hc; reflexivity.
Qed.

Lemma setitem2_grid (b : board) (i j : Z) (v : cell) :
  is_3x3 b -> in_grid (i, j) -> setitem2 b i j v = Ok (place b (i, j) v).
Proof.
  intros Hb Hc. grid_cases b Hb. cell_cases Hc; reflexivity.
Qed.

Lemma place_3x3 (b : board) (c : Z * Z) (v : cell) :
  is_3x3 b -> in_grid c -> is_3x3 (place b c v).
Proof.
  intros Hb Hc. grid_cases b Hb. cell_cases Hc; apply is_3x3_intro.
Qed.

Lemma cell_at_place (b : board) (c c' : Z * Z) (v : cell) :
  is_3x3 b -> in_grid c -> in_grid c' ->
  cell_at (place b c v) c' = if decide (c = c') then v else cell_at b c'.
Proof.
  intros Hb Hc Hc'. grid_cases b Hb.
  cell_cases Hc; cell_cases Hc'; reflexivity.
Qed.

Lemma cell_at_place_eq (b : board) (c : Z * Z) (v : cell) :
  is_3x3 b -> in_grid c -> cell_at (place b c v) c = v.
Proof.
  intros Hb Hc. rewrite cell_at_place by assumption.
  destruct (decide (c = c)); congruence.
Qed.

Lemma cell_at_place_ne (b : board) (c c' : Z * Z) (v : cell) :
  is_3x3 b -> in_grid c -> in_grid c' -> c <> c' ->
  cell_at (place b c v) c' = cell_at b c'.
Proof.
  intros Hb Hc Hc' Hne. rewrite cell_at_place by assumption.
  destruct (decide (c = c')); congruence.
Qed.

Lemma place_place (b : board) (c : Z * Z) (v w : cell) :
  is_3x3 b -> in_grid c -> place (place b c v) c w = place b c w.
Proof.
  intros Hb Hc. grid_cases b Hb. cell_cases Hc; reflexivity.
Qed.

Lemma place_same (b : board) (c : Z * Z) :
  is_3x3 b -> in_grid c -> place b c (cell_at b c) = b.
Proof.
  intros Hb Hc. grid_cases b Hb. cell_cases Hc; reflexivity.
Qed.

Lemma place_undo (b : board) (c : Z * Z) (v : cell) :
  is_3x3 b -> in_grid c -> is_blank b c = true ->
  place (place b c v) c blank = b.
Proof.
  intros Hb Hc Hblank. rewrite place_place by assumption.
  apply String.eqb_eq in Hblank. rewrite <- Hblank.
  apply place_same; assumption.
Qed.

Lemma board_ext (b b' : board) :
  is_3x3 b -> is_3x3 b' ->
  (forall c, in_grid c -> cell_at b c = cell_at b' c) -> b = b'.
Proof.
  intros Hb Hb' H. grid_cases b Hb. grid_cases b' Hb'.
  pose proof (H (0, 0)) as H00. pose proof (H (0, 1)) as H01.
  pose proof (H (0, 2)) as H02. pose proof (H (1, 0)) as H10.
  pose proof (H (1, 1)) as H11. pose proof (H (1, 2)) as H12.
  pose proof (H (2, 0)) as H20. pose proof (H (2, 1)) as H21.
  pose proof (H (2, 2)) as H22.
  unfold in_grid, cell_at in *; simpl in *.
  rewrite H00, H01, H02, H10, H11, H12, H20, H21, H22 by lia.
  reflexivity.
Qed.

(** ** The winner check on a well-formed board *)

Lemma three_equal_Ok (a b c : cell) :
  three_equal (Ok a) (Ok b) (Ok c) = Ok (line_test a b c).
Proof.
  unfold three_equal, line_test; simpl.
  destruct (String.eqb a b); reflexivity.
Qed.

(** Evaluates subscripts of an explicit grid at explicit coordinates. *)
Ltac eval_cells :=
  repeat match goal with
  | |- context [getitem2 ?b ?i ?j] =>
      let v := eval cbv in (getitem2 b i j) in change (getitem2 b i j) with v
  | |- context [@getitem ?A ?l ?i] =>
      let v := eval cbv in (@getitem A l i) in change (@getitem A l i) with v
  | |- context [cell_at ?b ?c] =>
      let v := eval cbv in (cell_at b c) in change (cell_at b c) with v
  end.

Lemma check_winner_board_grid (b : board) :
  is_3x3 b -> check_winner_board b = Ok (winner_of b).
Proof.
  intros Hb. grid_cases b Hb.
  unfold check_winner_board, winner_of, lines, check_rows, check_cols,
    check_diag, range3, first_completed, completesb, line_head.
  eval_cells. rewrite !three_equal_Ok. cbn [fst].
  repeat match goal with
  | |- context [line_test ?x ?y ?z] =>
      destruct (line_test x y z); simpl; try reflexivity
  end.
Qed.

Lemma completesb_true (b : board) (l : (Z * Z) * (Z * Z) * (Z * Z)) :
  completesb b l = true -> completes b l (cell_at b (line_head l)).
Proof.
  destruct l as [[c1 c2] c3]; unfold completesb, completes, line_test, line_head.
  simpl. intros H.
  apply andb_true_iff in H as [H H3]. apply andb_true_iff in H as [H1 H2].
  apply String.eqb_eq in H1, H2. apply negb_true_iff, String.eqb_neq in H3.
  repeat split; congruence.
Qed.

Lemma completes_true (b : board) (l : (Z * Z) * (Z * Z) * (Z * Z)) (s : cell) :
  completes b l s -> completesb b l = true /\ cell_at b (line_head l) = s.
Proof.
  destruct l as [[c1 c2] c3]; unfold completesb, completes, line_test, line_head.
  simpl. intros (H1 & H2 & H3 & Hs). split; [| assumption].
  rewrite H1, H2, H3, String.eqb_refl. simpl.
  apply negb_true_iff, String.eqb_neq; assumption.
Qed.

Lemma completesb_false (b : board) (l : (Z * Z) * (Z * Z) * (Z * Z)) :
  completesb b l = false <-> forall s, ~ completes b l s.
Proof.
  split.
  - intros H s Hs. apply completes_true in Hs as [Hs _]. congruence.
  - intros H. destruct (completesb b l) eqn:E; [| reflexivity].
    apply completesb_true in E. exfalso; eapply H; eassumption.
Qed.

Lemma first_completed_Some (b : board) ls (s : cell) :
  first_completed b ls = Some s <->
  exists pre l post,
    ls = (pre ++ l :: post)%list /\ completes b l s
    /\ forall l' s', In l' pre -> ~ completes b l' s'.
Proof.
  induction ls as [|l0 ls IH]; simpl.
  - split; [discriminate |].
    intros (pre & l & post & H & _). destruct pre; discriminate.
  - destruct (completesb b l0) eqn:E.
    + split.
      * intros [= <-]. exists [], l0, ls. split; [reflexivity |].
        split; [apply completesb_true; assumption |]. intros ? ? [].
      * intros (pre & l & post & Hls & Hl & Hpre).
        destruct pre as [|p pre]; simpl in Hls; injection Hls as <- ->.
        -- apply completes_true in Hl as [_ ->]. reflexivity.
        -- apply completesb_true in E. exfalso.
           eapply (Hpre l0); [left; reflexivity | eassumption].
    + rewrite IH. split.
      * intros (pre & l & post & -> & Hl & Hpre).
        exists (l0 :: pre), l, post. split; [reflexivity |].
        split; [assumption |].
        intros l' s' [<- | Hin]; [| eauto].
        apply completesb_false; assumption.
      * intros (pre & l & post & Hls & Hl & Hpre).
        destruct pre as [|p pre]; simpl in Hls; injection Hls as <- ->.
        -- apply completes_true in Hl as [Hl _]. congruence.
        -- exists pre, l, post. split; [reflexivity |].
           split; [assumption |]. intros l' s' Hin. apply Hpre. right; assumption.
Qed.

Lemma first_completed_None (b : board) ls :
  first_completed b ls = None <-> forall l s, In l ls -> ~ completes b l s.
Proof.
  induction ls as [|l0 ls IH]; simpl.
  - split; [intros _ ? ? [] | reflexivity].
  - destruct (completesb b l0) eqn:E.
    + split; [discriminate |]. intros H.
      apply completesb_true in E. exfalso.
      eapply (H l0); [left; reflexivity | eassumption].
    + rewrite IH. split.
      * intros H l s [<- | Hin]; [| eauto]. apply completesb_false; assumption.
      * intros H l s Hin. apply H. right; assumption.
Qed.

Lemma winner_of_completes (b : board) (s : cell) :
  winner_of b = Some s -> exists l, In l lines /\ completes b l s.
Proof.
  intros H. apply first_completed_Some in H as (pre & l & post & Hl & Hc & _).
  exists l. split; [| assumption]. rewrite Hl. apply in_elt.
Qed.

(** ** Loops over the grid *)

Lemma for_each_app {I S : Type} (xs ys : list I) (f : I -> S -> res S) (s : S) :
  for_each (xs ++ ys)%list f s = (for_each xs f s ≫= for_each ys f).
Proof.
  revert s; induction xs as [|x xs IH]; intros s; simpl; [reflexivity |].
  destruct (f x s) as [s' | e]; simpl; [apply IH | reflexivity].
Qed.

Lemma for_each_map {I J S : Type} (g : I -> J) (xs : list I)
    (f : J -> S -> res S) (s : S) :
  for_each (List.map g xs) f s = for_each xs (fun x => f (g x)) s.
Proof.
  revert s; induction xs as [|x xs IH]; intros s; simpl; [reflexivity |].
  destruct (f (g x) s) as [s' | e]; simpl; [apply IH | reflexivity].
Qed.

Lemma for_each_nested {I J S : Type} (xs : list I) (ys : list J)
    (body : I -> J -> S -> res S) (s : S) :
  for_each xs (fun i => for_each ys (body i)) s
  = for_each (list_prod xs ys) (fun c => body (fst c) (snd c)) s.
Proof.
  revert s; induction xs as [|x xs IH]; intros s; simpl; [reflexivity |].
  rewrite for_each_app, for_each_map. simpl.
  destruct (for_each ys (body x) s) as [s' | e]; simpl; [apply IH | reflexivity].
Qed.

Lemma for_each_grid {S : Type} (body : Z -> Z -> S -> res S) (s : S) :
  for_each range3 (fun i => for_each range3 (fun j => body i j)) s
  = for_each cells9 (fun c => body (fst c) (snd c)) s.
Proof. apply (for_each_nested range3 range3 body s). Qed.

Lemma collect_loop (b : board) (cs acc : list (Z * Z)) :
  is_3x3 b -> Forall in_grid cs ->
  for_each cs (fun c (empty : list (Z * Z)) =>
      x ← getitem2 b (fst c) (snd c);
      if String.eqb x blank then Ok (empty ++ [(fst c, snd c)])%list
      else Ok empty) acc
  = Ok (acc ++ List.filter (is_blank b) cs)%list.
Proof.
  intros Hb Hcs. revert acc.
  induction Hcs as [|[i j] cs Hc Hcs IH]; intros acc; simpl.
  - rewrite app_nil_r. reflexivity.
  - rewrite (getitem2_grid b i j Hb Hc). simpl.
    unfold is_blank at 1.
    destruct (String.eqb (cell_at b (i, j)) blank); simpl.
    + rewrite IH, <- app_assoc. reflexivity.
    + apply IH.
Qed.

Lemma cells9_in_grid : Forall in_grid cells9.
Proof.
  apply List.Forall_forall. intros c Hc. apply in_grid_cells9; assumption.
Qed.

Lemma collect_empty_grid (b : board) :
  is_3x3 b -> collect_empty b = Ok (blank_cells b).
Proof.
  intros Hb. unfold collect_empty. rewrite for_each_grid.
  apply (collect_loop b cells9 [] Hb cells9_in_grid).
Qed.

Lemma blank_cells_spec (b : board) (c : Z * Z) :
  In c (blank_cells b) <-> in_grid c /\ cell_at b c = blank.
Proof.
  unfold blank_cells. rewrite filter_In, <- in_grid_cells9.
  unfold is_blank. rewrite String.eqb_eq. reflexivity.
Qed.

Lemma all_marked_blank_cells (b : board) :
  is_3x3 b -> (all_marked b = true <-> blank_cells b = []).
Proof.
  intros Hb. grid_cases b Hb.
  unfold all_marked, blank_cells, is_blank, cells9. simpl. eval_cells.
  destruct (String.eqb a0 blank), (String.eqb a1 blank), (String.eqb a2 blank),
    (String.eqb b0 blank), (String.eqb b1 blank), (String.eqb b2 blank),
    (String.eqb c0 blank), (String.eqb c1 blank), (String.eqb c2 blank);
    simpl; split; intros H; try reflexivity; discriminate H.
Qed.

Lemma count_blank_place (b : board) (c : Z * Z) (v : cell) :
  is_3x3 b -> in_grid c -> is_blank b c = true -> v <> blank ->
  count_blank b = S (count_blank (place b c v)).
Proof.
  intros Hb Hc Hblank Hv. apply String.eqb_neq in Hv.
  grid_cases b Hb.
  cell_cases Hc; unfold count_blank, blank_cells, is_blank, cells9 in *;
    simpl; revert Hblank; eval_cells; intros Hblank; rewrite Hblank, Hv; simpl;
    repeat match goal with
    | |- context [String.eqb ?x blank] => destruct (String.eqb x blank); simpl
    end; reflexivity.
Qed.

(** ** The search *)

Section Search.
Variable self : MinimaxAI.
Hypothesis Hplayers : players_ok self.

Lemma evaluate_grid (b : board) :
  is_3x3 b -> evaluate self b = Ok (eval_of self b).
Proof.
  intros Hb. unfold evaluate, check_winner_static, eval_of.
  rewrite check_winner_board_grid by assumption. simpl.
  destruct (winner_is (winner_of b) (ai_player self)); [reflexivity |].
  destruct (winner_is (winner_of b) (human_player self)); reflexivity.
Qed.

Lemma eval_of_cases (b : board) :
  eval_of self b = 10 \/ eval_of self b = -10 \/ eval_of self b = 0.
Proof.
  unfold eval_of.
  destruct (winner_is (winner_of b) (ai_player self)); [tauto |].
  destruct (winner_is (winner_of b) (human_player self)); tauto.
Qed.

Lemma minimax_loop (search : board -> res (score * board)) (mark : cell)
    (pick : score -> score -> score) (val : Z * Z -> score)
    (b : board) (cs : list (Z * Z)) (best : score) :
  is_3x3 b -> Forall in_grid cs ->
  (forall c, In c cs -> is_blank b c = true ->
             search (place b c mark) = Ok (val c, place b c mark)) ->
  for_each cs (fun c => minimax_body search mark pick (fst c) (snd c)) (best, b)
  = Ok (fold_left pick (List.map val (List.filter (is_blank b) cs)) best, b).
Proof.
  intros Hb Hcs. revert best.
  induction Hcs as [|[i j] cs Hc Hcs IH]; intros best Hsearch; simpl.
  - reflexivity.
  - rewrite (getitem2_grid b i j Hb Hc). simpl.
    unfold is_blank at 1.
    destruct (String.eqb (cell_at b (i, j)) blank) eqn:Hblank; simpl.
    + rewrite (setitem2_grid b i j mark Hb Hc). simpl.
      rewrite (Hsearch (i, j)) by (simpl; auto). simpl.
      rewrite setitem2_grid by (auto using place_3x3). simpl.
      rewrite place_undo by assumption.
      apply IH. intros c Hin. apply Hsearch. right; assumption.
    + apply IH. intros c Hin. apply Hsearch. right; assumption.
Qed.

Lemma minimax_S (limit : nat) (b : board) (depth : Z) (m : bool) :
  minimax self (S limit) b depth m =
    (s ← evaluate self b;
     if s =? 10 then Ok (Fin (s - depth), b)
     else if s =? -10 then Ok (Fin (s + depth), b)
     else if is_full_static b then Ok (Fin 0, b)
     else if m then
       for_each range3 (fun i =>
         for_each range3 (fun j =>
           minimax_body (fun b' => minimax self limit b' (depth + 1) false)
             (ai_player self) py_max i j)) (NegInf, b)
     else
       for_each range3 (fun i =>
         for_each range3 (fun j =>
           minimax_body (fun b' => minimax self limit b' (depth + 1) true)
             (human_player self) py_min i j)) (PosInf, b)).
Proof. reflexivity. Qed.

Lemma mover_not_blank (m : bool) : mover self m <> blank.
Proof. destruct Hplayers as (? & ? & ?). destruct m; assumption. Qed.

Lemma minimax_restores (limit : nat) :
  forall (b : board) (depth : Z) (m : bool),
    is_3x3 b -> (count_blank b < limit)%nat ->
    minimax self limit b depth m
    = Ok (value_of (minimax self limit b depth m), b).
Proof.
  induction limit as [|limit IH]; intros b depth m Hb Hlt; [lia |].
  rewrite minimax_S, (evaluate_grid b Hb), bind_Ok.
  destruct (eval_of self b =? 10); [reflexivity |].
  destruct (eval_of self b =? -10); [reflexivity |].
  unfold is_full_static.
  destruct (all_marked b) eqn:Hfull; [reflexivity |].
  assert (forall m' c, In c cells9 -> is_blank b c = true ->
            minimax self limit (place b c (mover self m')) (depth + 1) (negb m')
            = Ok (value_of (minimax self limit (place b c (mover self m'))
                              (depth + 1) (negb m')),
                  place b c (mover self m'))) as Hrec.
  { intros m' c Hc Hblank. apply in_grid_cells9 in Hc.
    apply IH; [apply place_3x3; assumption |].
    pose proof (count_blank_place b c (mover self m') Hb Hc Hblank
                  (mover_not_blank m')). lia. }
  destruct m; rewrite for_each_grid.
  - rewrite (minimax_loop _ _ _ _ b cells9 NegInf Hb cells9_in_grid
               (Hrec true)). reflexivity.
  - rewrite (minimax_loop _ _ _ _ b cells9 PosInf Hb cells9_in_grid
               (Hrec false)). reflexivity.
Qed.

(** The recursion equation of [minimax] on a well-formed board. *)
Lemma minimax_step (limit : nat) (b : board) (depth : Z) (m : bool) :
  is_3x3 b -> (count_blank b <= limit)%nat ->
  value_of (minimax self (S limit) b depth m) =
    if eval_of self b =? 10 then Fin (10 - depth)
    else if eval_of self b =? -10 then Fin (-10 + depth)
    else if all_marked b then Fin 0
    else fold_left (pick_of m)
           (List.map (fun c => value_of (minimax self limit
                                  (place b c (mover self m)) (depth + 1) (negb m)))
                     (blank_cells b))
           (start_of m).
Proof.
  intros Hb Hle. rewrite minimax_S, (evaluate_grid b Hb), bind_Ok.
  destruct (eval_of self b =? 10) eqn:E10.
  { apply Z.eqb_eq in E10. rewrite E10. reflexivity. }
  destruct (eval_of self b =? -10) eqn:E10'.
  { apply Z.eqb_eq in E10'. rewrite E10'. reflexivity. }
  unfold is_full_static.
  destruct (all_marked b) eqn:Hfull; [reflexivity |].
  assert (forall m' c, In c cells9 -> is_blank b c = true ->
            minimax self limit (place b c (mover self m')) (depth + 1) (negb m')
            = Ok (value_of (minimax self limit (place b c (mover self m'))
                              (depth + 1) (negb m')),
                  place b c (mover self m'))) as Hrec.
  { intros m' c Hc Hblank. apply in_grid_cells9 in Hc.
    apply minimax_restores; [apply place_3x3; assumption |].
    pose proof (count_blank_place b c (mover self m') Hb Hc Hblank
                  (mover_not_blank m')). lia. }
  destruct m; rewrite for_each_grid.
  - rewrite (minimax_loop _ _ _ _ b cells9 NegInf Hb cells9_in_grid
               (Hrec true)). reflexivity.
  - rewrite (minimax_loop _ _ _ _ b cells9 PosInf Hb cells9_in_grid
               (Hrec false)). reflexivity.
Qed.
End Search.

(** ** Order on scores, maxima and minima *)

Lemma score_eqb_eq (a b : score) : score_eqb a b = true <-> a = b.
Proof.
  destruct a, b; simpl; split; intros H; try discriminate; try reflexivity.
  - apply Z.eqb_eq in H. congruence.
  - injection H as ->. apply Z.eqb_refl.
Qed.

Lemma score_eqb_refl (a : score) : score_eqb a a = true.
Proof. apply score_eqb_eq. reflexivity. Qed.

Lemma score_ltb_irrefl (a : score) : score_ltb a a = false.
Proof. destruct a; simpl; try reflexivity. apply Z.ltb_irrefl. Qed.

Lemma score_le_refl (a : score) : score_le a a.
Proof. apply score_ltb_irrefl. Qed.

Lemma score_ltb_le (a b : score) : score_ltb a b = true -> score_le a b.
Proof. unfold score_le. destruct a, b; simpl; try congruence; lia. Qed.

Lemma score_le_trans (a b c : score) : score_le a b -> score_le b c -> score_le a c.
Proof. unfold score_le. destruct a, b, c; simpl; try congruence; lia. Qed.

Lemma score_le_antisym (a b : score) : score_le a b -> score_le b a -> a = b.
Proof.
  unfold score_le. destruct a, b; simpl; try congruence.
  intros H1 H2. f_equal. lia.
Qed.

Lemma score_le_Fin (x y : Z) : score_le (Fin x) (Fin y) <-> x <= y.
Proof. unfold score_le; simpl. lia. Qed.

Lemma py_max_cases (a b : score) :
  (py_max a b = a /\ score_le b a) \/ (py_max a b = b /\ score_ltb a b = true).
Proof.
  unfold py_max, score_le. destruct (score_ltb a b) eqn:E; [right | left]; auto.
Qed.

Lemma py_min_cases (a b : score) :
  (py_min a b = a /\ score_le a b) \/ (py_min a b = b /\ score_ltb b a = true).
Proof.
  unfold py_min, score_le. destruct (score_ltb b a) eqn:E; [right | left]; auto.
Qed.

Lemma fold_max_ge (l : list score) (init : score) :
  score_le init (fold_left py_max l init)
  /\ forall x, In x l -> score_le x (fold_left py_max l init).
Proof.
  revert init; induction l as [|y l IH]; intros init; simpl.
  - split; [apply score_le_refl | intros ? []].
  - destruct (IH (py_max init y)) as [H1 H2].
    destruct (py_max_cases init y) as [[E Hle] | [E Hlt]]; rewrite E in *.
    + split; [assumption |]. intros x [<- | Hx]; [| auto].
      eapply score_le_trans; eassumption.
    + split; [eapply score_le_trans; [apply score_ltb_le |]; eassumption |].
      intros x [<- | Hx]; auto.
Qed.

Lemma fold_max_in (l : list score) (init : score) :
  fold_left py_max l init = init \/ In (fold_left py_max l init) l.
Proof.
  revert init; induction l as [|y l IH]; intros init; simpl; [auto |].
  destruct (IH (py_max init y)) as [H | H]; [| auto].
  rewrite H. destruct (py_max_cases init y) as [[E _] | [E _]]; rewrite E; auto.
Qed.

Lemma fold_min_le (l : list score) (init : score) :
  score_le (fold_left py_min l init) init
  /\ forall x, In x l -> score_le (fold_left py_min l init) x.
Proof.
  revert init; induction l as [|y l IH]; intros init; simpl.
  - split; [apply score_le_refl | intros ? []].
  - destruct (IH (py_min init y)) as [H1 H2].
    destruct (py_min_cases init y) as [[E Hle] | [E Hlt]]; rewrite E in *.
    + split; [assumption |]. intros x [<- | Hx]; [| auto].
      eapply score_le_trans; eassumption.
    + split; [eapply score_le_trans; [| apply score_ltb_le]; eassumption |].
      intros x [<- | Hx]; auto.
Qed.

Lemma fold_min_in (l : list score) (init : score) :
  fold_left py_min l init = init \/ In (fold_left py_min l init) l.
Proof.
  revert init; induction l as [|y l IH]; intros init; simpl; [auto |].
  destruct (IH (py_min init y)) as [H | H]; [| auto].
  rewrite H. destruct (py_min_cases init y) as [[E _] | [E _]]; rewrite E; auto.
Qed.

Lemma score_le_NegInf (a : score) : score_le NegInf a.
Proof. destruct a; reflexivity. Qed.

Lemma score_le_PosInf (a : score) : score_le a PosInf.
Proof. destruct a; reflexivity. Qed.

Lemma fold_max_is_maximum (l : list score) :
  l <> [] -> is_maximum (fold_left py_max l NegInf) l.
Proof.
  intros Hne. split; [| apply fold_max_ge].
  destruct (fold_max_in l NegInf) as [H | H]; [| assumption].
  destruct l as [|y l]; [congruence |].
  destruct (fold_max_ge (y :: l) NegInf) as [_ Hge].
  rewrite H in *. pose proof (Hge y (or_introl eq_refl)) as Hy.
  rewrite (score_le_antisym y NegInf Hy (score_le_NegInf y)). left; reflexivity.
Qed.

Lemma fold_min_is_minimum (l : list score) :
  l <> [] -> is_minimum (fold_left py_min l PosInf) l.
Proof.
  intros Hne. split; [| apply fold_min_le].
  destruct (fold_min_in l PosInf) as [H | H]; [| assumption].
  destruct l as [|y l]; [congruence |].
  destruct (fold_min_le (y :: l) PosInf) as [_ Hle].
  rewrite H in *. pose proof (Hle y (or_introl eq_refl)) as Hy.
  rewrite (score_le_antisym y PosInf (score_le_PosInf y) Hy). left; reflexivity.
Qed.

(** ** The move selector *)

Lemma choice_in {A : Type} (g : rng) (l : list A) :
  l <> [] -> exists x, choice g l = Ok x /\ In x l.
Proof.
  intros Hne. unfold choice.
  assert (randbelow g mod length l < length l)%nat as Hlt.
  { apply Nat.mod_upper_bound. destruct l; simpl; congruence. }
  destruct (lookup_lt_is_Some_2 l _ Hlt) as [x Hx]. rewrite Hx.
  exists x. split; [reflexivity |].
  apply list_elem_of_In, list_elem_of_lookup. eauto.
Qed.

Lemma choice_any {A : Type} (l : list A) (x : A) :
  In x l -> exists g, choice g l = Ok x.
Proof.
  intros Hin. apply list_elem_of_In, list_elem_of_lookup in Hin as [k Hk].
  exists {| random := 0 # 1; randbelow := k |}. unfold choice; simpl.
  rewrite Nat.mod_small by (eapply lookup_lt_Some; eassumption).
  rewrite Hk. reflexivity.
Qed.

Section Selector.
Variable self : MinimaxAI.
Hypothesis Hplayers : players_ok self.

Lemma running_max_snoc (val : Z * Z -> score) (seen : list (Z * Z)) (c : Z * Z) :
  running_max val (seen ++ [c]) = py_max (running_max val seen) (val c).
Proof. unfold running_max. rewrite List.map_app, fold_left_app. reflexivity. Qed.

Lemma running_max_ge (val : Z * Z -> score) (seen : list (Z * Z)) (c : Z * Z) :
  In c seen -> score_le (val c) (running_max val seen).
Proof.
  intros Hin. apply fold_max_ge, in_map. assumption.
Qed.

Lemma filter_none {A : Type} (f : A -> bool) (l : list A) :
  (forall x, In x l -> f x = false) -> List.filter f l = [].
Proof.
  induction l as [|x l IH]; simpl; intros H; [reflexivity |].
  rewrite (H x) by auto. apply IH. auto.
Qed.

Lemma best_step (val : Z * Z -> score) (seen : list (Z * Z)) (c : Z * Z) :
  (if score_ltb (running_max val seen) (val c)
   then (val c, [c])
   else if score_eqb (val c) (running_max val seen)
        then (running_max val seen, (running_set val seen ++ [c])%list)
        else (running_max val seen, running_set val seen))
  = (running_max val (seen ++ [c]), running_set val (seen ++ [c])).
Proof.
  unfold running_set. rewrite running_max_snoc, List.filter_app. simpl.
  unfold py_max.
  destruct (score_ltb (running_max val seen) (val c)) eqn:Hlt.
  - rewrite score_eqb_refl. f_equal.
    rewrite filter_none; [reflexivity |].
    intros x Hx. destruct (score_eqb (val x) (val c)) eqn:E; [| reflexivity].
    apply score_eqb_eq in E. pose proof (running_max_ge val seen x Hx) as Hle.
    rewrite E in Hle. unfold score_le in Hle. congruence.
  - destruct (score_eqb (val c) (running_max val seen)); rewrite ?app_nil_r;
      reflexivity.
Qed.

Lemma best_loop (limit : nat) (val : Z * Z -> score) (b : board)
    (cs seen : list (Z * Z)) :
  is_3x3 b -> Forall in_grid cs ->
  (forall c, In c cs -> is_blank b c = true ->
     minimax self limit (place b c (ai_player self)) 0 false
     = Ok (val c, place b c (ai_player self))) ->
  for_each cs (fun c => best_body self limit (fst c) (snd c))
    (running_max val seen, running_set val seen, b)
  = Ok (running_max val (seen ++ List.filter (is_blank b) cs),
        running_set val (seen ++ List.filter (is_blank b) cs), b).
Proof.
  intros Hb Hcs. revert seen.
  induction Hcs as [|[i j] cs Hc Hcs IH]; intros seen Hsearch; simpl.
  - rewrite app_nil_r. reflexivity.
  - rewrite (getitem2_grid b i j Hb Hc), bind_Ok.
    change (String.eqb (cell_at b (i, j)) blank) with (is_blank b (i, j)).
    destruct (is_blank b (i, j)) eqn:Hblank.
    + rewrite (setitem2_grid b i j _ Hb Hc), bind_Ok.
      rewrite (Hsearch (i, j)) by (simpl; auto). rewrite bind_Ok.
      rewrite setitem2_grid by (auto using place_3x3). rewrite bind_Ok.
      rewrite place_undo by assumption.
      pose proof (best_step val seen (i, j)) as Hstep.
      replace (seen ++ (i, j) :: List.filter (is_blank b) cs)%list
        with ((seen ++ [(i, j)]) ++ List.filter (is_blank b) cs)%list
        by (rewrite <- app_assoc; reflexivity).
      rewrite <- (IH (seen ++ [(i, j)])%list)
        by (intros c Hin; apply Hsearch; right; assumption).
      revert Hstep.
      destruct (score_ltb (running_max val seen) (val (i, j)));
        [| destruct (score_eqb (val (i, j)) (running_max val seen))];
        intros [= <- <-]; reflexivity.
    + rewrite bind_Ok.
      apply IH. intros c Hin. apply Hsearch. right; assumption.
Qed.

Lemma top_call (limit : nat) (b : board) (c : Z * Z) :
  is_3x3 b -> (count_blank b <= limit)%nat ->
  In c cells9 -> is_blank b c = true ->
  minimax self limit (place b c (ai_player self)) 0 false
  = Ok (top_val self limit b c, place b c (ai_player self)).
Proof.
  intros Hb Hle Hc Hblank. apply in_grid_cells9 in Hc.
  apply minimax_restores; [assumption | apply place_3x3; assumption |].
  destruct Hplayers as (Hai & _).
  pose proof (count_blank_place b c _ Hb Hc Hblank Hai). lia.
Qed.

Lemma best_moves_loop_grid (limit : nat) (b : board) :
  is_3x3 b -> (count_blank b <= limit)%nat ->
  best_moves_loop self limit b
  = Ok (best_val_of self limit b, best_set self limit b, b).
Proof.
  intros Hb Hle. unfold best_moves_loop. rewrite for_each_grid.
  apply (best_loop limit (top_val self limit b) b cells9 [] Hb cells9_in_grid).
  intros c Hc Hblank. apply top_call; assumption.
Qed.

Lemma best_val_is_maximum (limit : nat) (b : board) :
  blank_cells b <> [] ->
  is_maximum (best_val_of self limit b)
    (List.map (top_val self limit b) (blank_cells b)).
Proof.
  intros Hne. apply fold_max_is_maximum.
  destruct (blank_cells b); simpl; congruence.
Qed.

Lemma best_set_spec (limit : nat) (b : board) (c : Z * Z) :
  In c (best_set self limit b) <->
  In c (blank_cells b) /\ top_val self limit b c = best_val_of self limit b.
Proof.
  unfold best_set. rewrite filter_In, score_eqb_eq. reflexivity.
Qed.

Lemma best_set_nonempty (limit : nat) (b : board) :
  blank_cells b <> [] -> best_set self limit b <> [].
Proof.
  intros Hne. destruct (best_val_is_maximum limit b Hne) as [Hin _].
  apply in_map_iff in Hin as (c & Hc & Hin).
  assert (In c (best_set self limit b)) as H by (apply best_set_spec; auto).
  intros E. rewrite E in H. destruct H.
Qed.

Lemma best_set_incl (limit : nat) (b : board) (c : Z * Z) :
  In c (best_set self limit b) -> In c (blank_cells b).
Proof. intros H. apply best_set_spec in H. tauto. Qed.

Lemma truthy_true {A : Type} (l : list A) : truthy l = true <-> l <> [].
Proof. destruct l; simpl; split; congruence. Qed.

Lemma choice_or_sentinel_blank (g : rng) (cells : list (Z * Z)) :
  (cells = [] /\ choice_or_sentinel g cells = Ok (-1, -1))
  \/ (exists m, choice_or_sentinel g cells = Ok m /\ In m cells).
Proof.
  unfold choice_or_sentinel. destruct cells as [|c cells]; [left; auto |].
  right. apply (choice_in g (c :: cells)). discriminate.
Qed.

(** [find_best_move] at the two searching difficulties, on a well-formed
    board. *)
Lemma find_best_move_hard (limit : nat) (g : rng) (b : board) :
  difficulty self = HARD ->
  is_3x3 b -> (count_blank b <= limit)%nat ->
  find_best_move self limit g b
  = (m ← choice_or_sentinel g (best_set self limit b); Ok (m, b)).
Proof.
  intros Hd Hb Hle. unfold find_best_move, deepcopy.
  rewrite (collect_empty_grid b Hb), bind_Ok, Hd.
  rewrite (best_moves_loop_grid limit b Hb Hle), bind_Ok. reflexivity.
Qed.

Lemma find_best_move_medium (limit : nat) (g : rng) (b : board) :
  difficulty self = MEDIUM ->
  is_3x3 b -> (count_blank b <= limit)%nat ->
  find_best_move self limit g b
  = if negb (Qle_bool (3 # 10) (random g)) && truthy (blank_cells b)
    then m ← choice g (blank_cells b); Ok (m, b)
    else m ← choice_or_sentinel g (best_set self limit b); Ok (m, b).
Proof.
  intros Hd Hb Hle. unfold find_best_move, deepcopy.
  rewrite (collect_empty_grid b Hb), bind_Ok, Hd.
  rewrite (best_moves_loop_grid limit b Hb Hle), bind_Ok. reflexivity.
Qed.

Lemma find_best_move_easy (limit : nat) (g : rng) (b : board) :
  difficulty self = EASY -> is_3x3 b ->
  find_best_move self limit g b
  = (m ← choice_or_sentinel g (blank_cells b); Ok (m, b)).
Proof.
  intros Hd Hb. unfold find_best_move.
  rewrite (collect_empty_grid b Hb), bind_Ok, Hd. reflexivity.
Qed.
(** At [HARD], on a board with an empty cell, the move comes from the
    best-set. *)
Lemma hard_returns_best (limit : nat) (g : rng) (b : board) :
  difficulty self = HARD ->
  is_3x3 b -> (count_blank b <= limit)%nat -> blank_cells b <> [] ->
  exists m, find_best_move self limit g b = Ok (m, b)
            /\ In m (best_set self limit b).
Proof.
  intros Hd Hb Hle Hne. rewrite (find_best_move_hard limit g b Hd Hb Hle).
  destruct (choice_or_sentinel_blank g (best_set self limit b))
    as [[Hnil _] | (m & Hm & Hin)].
  - exfalso. eapply best_set_nonempty; eassumption.
  - exists m. rewrite Hm. split; [reflexivity | assumption].
Qed.

(** [find_best_move] returns, whatever the difficulty and the draw. *)
Lemma find_best_move_total (limit : nat) (g : rng) (b : board) :
  is_3x3 b -> (count_blank b <= limit)%nat ->
  exists m, find_best_move self limit g b = Ok (m, b).
Proof.
  intros Hb Hle.
  assert (forall cells, exists m,
            (choice_or_sentinel g cells ≫= fun m => Ok (m, b)) = Ok (m, b))
    as Hsel.
  { intros cells.
    destruct (choice_or_sentinel_blank g cells) as [[_ Hm] | (m & Hm & _)];
      rewrite Hm; eauto. }
  destruct (difficulty self) eqn:Hd.
  - rewrite (find_best_move_easy limit g b Hd Hb). apply Hsel.
  - rewrite (find_best_move_medium limit g b Hd Hb Hle).
    destruct (negb (Qle_bool (3 # 10) (random g)) && truthy (blank_cells b))
      eqn:Hroll; [| apply Hsel].
    apply andb_true_iff in Hroll as [_ Hne]. apply truthy_true in Hne.
    destruct (choice_in g (blank_cells b) Hne) as (m & Hm & _).
    exists m. rewrite Hm. reflexivity.
  - rewrite (find_best_move_hard limit g b Hd Hb Hle). apply Hsel.
Qed.
End Selector.

(** * Properties of the board *)

Lemma getitem_three {A : Type} (x y z : A) (i : Z) :
  getitem [x; y; z] i =
    if (i =? 0) || (i =? -3) then Ok x
    else if (i =? 1) || (i =? -2) then Ok y
    else if (i =? 2) || (i =? -1) then Ok z
    else Raise IndexError.
Proof.
  destruct (Z.eq_dec i 0) as [-> | H0]; [reflexivity |].
  destruct (Z.eq_dec i (-3)) as [-> | H1]; [reflexivity |].
  destruct (Z.eq_dec i 1) as [-> | H2]; [reflexivity |].
  destruct (Z.eq_dec i (-2)) as [-> | H3]; [reflexivity |].
  destruct (Z.eq_dec i 2) as [-> | H4]; [reflexivity |].
  destruct (Z.eq_dec i (-1)) as [-> | H5]; [reflexivity |].
  apply Z.eqb_neq in H0 as E0. apply Z.eqb_neq in H1 as E1.
  apply Z.eqb_neq in H2 as E2. apply Z.eqb_neq in H3 as E3.
  apply Z.eqb_neq in H4 as E4. apply Z.eqb_neq in H5 as E5.
  rewrite E0, E1, E2, E3, E4, E5. simpl.
  unfold getitem. simpl length.
  destruct (Z.ltb_spec i 0) as [Hneg | Hpos].
  - assert ((i + Z.of_nat 3 <? 0) = true) as -> by (apply Z.ltb_lt; lia).
    reflexivity.
  - assert ((i <? 0) = false) as -> by (apply Z.ltb_ge; lia).
    assert ((Z.of_nat 3 <=? i) = true) as -> by (apply Z.leb_le; lia).
    reflexivity.
Qed.

Lemma getitem_three_out {A : Type} (x y z : A) (i : Z) :
  i < -3 \/ 3 <= i -> getitem [x; y; z] i = Raise IndexError.
Proof.
  intros H. rewrite getitem_three.
  assert ((i =? 0) = false) as -> by (apply Z.eqb_neq; lia).
  assert ((i =? -3) = false) as -> by (apply Z.eqb_neq; lia).
  assert ((i =? 1) = false) as -> by (apply Z.eqb_neq; lia).
  assert ((i =? -2) = false) as -> by (apply Z.eqb_neq; lia).
  assert ((i =? 2) = false) as -> by (apply Z.eqb_neq; lia).
  assert ((i =? -1) = false) as -> by (apply Z.eqb_neq; lia).
  reflexivity.
Qed.

Lemma getitem_three_returns {A : Type} (x y z : A) (i : Z) :
  -3 <= i < 3 -> exists v, getitem [x; y; z] i = Ok v.
Proof.
  intros H.
  assert (i = -3 \/ i = -2 \/ i = -1 \/ i = 0 \/ i = 1 \/ i = 2) as Hi by lia.
  destruct Hi as [-> | [-> | [-> | [-> | [-> | ->]]]]]; eexists; reflexivity.
Qed.

(** C1, as the code has it.  On a well-formed board and for coordinates
    inside the grid, [make_move] writes the symbol exactly when the cell is
    empty, returns whether it did, adds one to [move_count] exactly then, and
    leaves the game as it was otherwise.  The coordinates themselves are not
    checked: a subscript below [-3] or above [2] raises [IndexError], and a
    subscript from [-3] to [-1] addresses the grid from its end. *)
Theorem make_move_spec (self : TicTacToeGame) (r c : Z) (player : cell) :
  is_3x3 (game_board self) ->
  (in_grid (r, c) ->
     make_move self r c player =
       if is_blank (game_board self) (r, c)
       then Ok (true,
                {| game_board := place (game_board self) (r, c) player;
                   current_player := current_player self;
                   move_count := move_count self + 1;
                   start_time := start_time self |})
       else Ok (false, self))
  /\ (r < -3 \/ 3 <= r \/ c < -3 \/ 3 <= c ->
      make_move self r c player = Raise IndexError)
  /\ (-3 <= r < 3 -> -3 <= c < 3 ->
      make_move self r c player = make_move self (r mod 3) (c mod 3) player).
Proof.
  intros Hb. split; [| split].
  - intros Hc. unfold make_move.
    rewrite (getitem2_grid _ r c Hb Hc), bind_Ok.
    unfold is_blank.
    destruct (String.eqb (cell_at (game_board self) (r, c)) blank);
      [| reflexivity].
    rewrite (setitem2_grid _ r c player Hb Hc), bind_Ok. reflexivity.
  - intros Hout. unfold make_move, getitem2.
    destruct (is_3x3_inv _ Hb)
      as (a0 & a1 & a2 & b0 & b1 & b2 & c0 & c1 & c2 & ->).
    destruct (Z_lt_ge_dec r (-3)) as [Hr | Hr];
      [rewrite getitem_three_out by lia; reflexivity |].
    destruct (Z_le_gt_dec 3 r) as [Hr' | Hr'];
      [rewrite getitem_three_out by lia; reflexivity |].
    unfold board, row, cell in *.
    match goal with
    | |- context [@getitem ?A [?x; ?y; ?z] r] =>
        destruct (getitem_three_returns (A:=A) x y z r) as [rw Hrw]; [lia |]
    end.
    rewrite Hrw, bind_Ok.
    assert (exists x y z, rw = [x; y; z]) as (x & y & z & ->).
    { rewrite getitem_three in Hrw.
      destruct ((r =? 0) || (r =? -3)); [injection Hrw as <-; eauto |].
      destruct ((r =? 1) || (r =? -2)); [injection Hrw as <-; eauto |].
      destruct ((r =? 2) || (r =? -1)); [injection Hrw as <-; eauto |].
      discriminate. }
    rewrite getitem_three_out by lia. reflexivity.
  - intros Hr Hc.
    destruct (is_3x3_inv _ Hb)
      as (a0 & a1 & a2 & b0 & b1 & b2 & c0 & c1 & c2 & Hgrid).
    destruct self as [gb cp mc st]; simpl in Hgrid; subst gb.
    assert (r = -3 \/ r = -2 \/ r = -1 \/ r = 0 \/ r = 1 \/ r = 2) as Hr' by lia.
    assert (c = -3 \/ c = -2 \/ c = -1 \/ c = 0 \/ c = 1 \/ c = 2) as Hc' by lia.
    destruct Hr' as [-> | [-> | [-> | [-> | [-> | ->]]]]];
      destruct Hc' as [-> | [-> | [-> | [-> | [-> | ->]]]]]; reflexivity.
Qed.

Lemma make_move_spec_witness :
  is_3x3 (game_board new_game)
  /\ make_move new_game 1 1 "X" =
       Ok (true,
           {| game_board := [[" "; " "; " "]; [" "; "X"; " "]; [" "; " "; " "]];
              current_player := "X"; move_count := 1; start_time := None |}).
Proof.
  split; [apply is_3x3_intro |].
  destruct (make_move_spec new_game 1 1 "X"
              (is_3x3_intro " " " " " " " " " " " " " " " " " ")) as [H _].
  apply H. unfold in_grid; simpl; lia.
Defined.

(** C1 as stated fails outside the grid: row 3 raises [IndexError] instead
    of reporting failure, and the pair (-1, -1) is written to the last cell
    although it lies outside the bounds 0..2. *)
Lemma make_move_out_of_range_counterexample :
  make_move new_game 3 0 "X" = Raise IndexError
  /\ make_move new_game (-1) (-1) "X" =
       Ok (true,
           {| game_board := [[" "; " "; " "]; [" "; " "; " "]; [" "; " "; "X"]];
              current_player := "X"; move_count := 1; start_time := None |}).
Proof. split; reflexivity. Qed.

(** C5.  On a well-formed board [check_winner] returns, and what it returns
    is the symbol of the first completed line in the order rows, columns,
    main diagonal, anti-diagonal: it returns [s] exactly when some line is
    completed by [s] and no line before it is completed, it returns a symbol
    exactly when some line is completed, and [None] exactly when none is. *)
Theorem check_winner_spec (self : TicTacToeGame) :
  is_3x3 (game_board self) ->
  exists w,
    check_winner self = Ok w
    /\ (forall s, w = Some s <->
          exists pre l post,
            lines = (pre ++ l :: post)%list
            /\ completes (game_board self) l s
            /\ forall l' s', In l' pre -> ~ completes (game_board self) l' s')
    /\ ((exists s, w = Some s) <->
          exists l s, In l lines /\ completes (game_board self) l s)
    /\ (w = None <->
          forall l s, In l lines -> ~ completes (game_board self) l s).
Proof.
  intros Hb. exists (winner_of (game_board self)).
  split; [apply check_winner_board_grid; assumption |].
  split; [intros s; apply first_completed_Some |].
  split; [| apply first_completed_None].
  split.
  - intros [s Hs]. apply winner_of_completes in Hs as (l & Hin & Hl). eauto.
  - intros (l & s & Hin & Hl).
    destruct (winner_of (game_board self)) as [w |] eqn:E; [eauto |].
    exfalso. eapply first_completed_None in E; eauto.
Qed.

Lemma check_winner_spec_witness :
  exists w,
    check_winner
      {| game_board := [["X"; "X"; "X"]; ["O"; "O"; "O"]; [" "; " "; " "]];
         current_player := "X"; move_count := 6; start_time := None |} = Ok w.
Proof.
  destruct (check_winner_spec
              {| game_board := [["X"; "X"; "X"]; ["O"; "O"; "O"]; [" "; " "; " "]];
                 current_player := "X"; move_count := 6; start_time := None |}
              (is_3x3_intro "X" "X" "X" "O" "O" "O" " " " " " "))
    as (w & Hw & _).
  exists w. exact Hw.
Defined.

(** C9.  On a well-formed board [get_empty_cells] returns, and
    [is_board_full] is true exactly when the list it returns is empty. *)
Theorem is_board_full_iff_no_empty_cells (self : TicTacToeGame) :
  is_3x3 (game_board self) ->
  exists cells,
    get_empty_cells self = Ok cells
    /\ (is_board_full self = true <-> cells = []).
Proof.
  intros Hb. exists (blank_cells (game_board self)). split.
  - apply collect_empty_grid; assumption.
  - apply all_marked_blank_cells; assumption.
Qed.

Lemma is_board_full_iff_no_empty_cells_witness :
  exists cells,
    get_empty_cells new_game = Ok cells
    /\ (is_board_full new_game = true <-> cells = []).
Proof.
  apply (is_board_full_iff_no_empty_cells new_game).
  apply is_3x3_intro.
Defined.

(** * Properties of the search *)

Lemma default_players_ok (d : Difficulty) : players_ok (default_ai d).
Proof. repeat split; discriminate. Qed.

Section SearchSpec.
Variable self : MinimaxAI.
Hypothesis Hplayers : players_ok self.

Lemma eval_of_ai (b : board) :
  winner_of b = Some (ai_player self) -> eval_of self b = 10.
Proof.
  intros H. unfold eval_of. rewrite H. simpl.
  rewrite String.eqb_refl. reflexivity.
Qed.

Lemma eval_of_human (b : board) :
  winner_of b = Some (human_player self) -> eval_of self b = -10.
Proof.
  intros H. unfold eval_of. rewrite H. simpl.
  destruct Hplayers as (_ & _ & Hne).
  assert (String.eqb (human_player self) (ai_player self) = false) as ->
    by (apply String.eqb_neq; congruence).
  rewrite String.eqb_refl. reflexivity.
Qed.

Lemma eval_of_other (b : board) :
  winner_of b <> Some (ai_player self) ->
  winner_of b <> Some (human_player self) ->
  eval_of self b = 0.
Proof.
  intros Hai Hhu. unfold eval_of.
  destruct (winner_of b) as [w |]; simpl; [| reflexivity].
  assert (String.eqb w (ai_player self) = false) as ->
    by (apply String.eqb_neq; congruence).
  assert (String.eqb w (human_player self) = false) as ->
    by (apply String.eqb_neq; congruence).
  reflexivity.
Qed.

Lemma eval_of_10 (b : board) :
  eval_of self b = 10 -> winner_of b = Some (ai_player self).
Proof.
  unfold eval_of. destruct (winner_of b) as [w |]; simpl; [| discriminate].
  destruct (String.eqb w (ai_player self)) eqn:E.
  - apply String.eqb_eq in E. congruence.
  - destruct (String.eqb w (human_player self)); discriminate.
Qed.

Lemma eval_of_m10 (b : board) :
  eval_of self b = -10 -> winner_of b = Some (human_player self).
Proof.
  unfold eval_of. destruct (winner_of b) as [w |]; simpl; [| discriminate].
  destruct (String.eqb w (ai_player self)); [discriminate |].
  destruct (String.eqb w (human_player self)) eqn:E; [| discriminate].
  apply String.eqb_eq in E. congruence.
Qed.

Lemma child_call (limit : nat) (b : board) (depth : Z) (m : bool) (c : Z * Z) :
  is_3x3 b -> (count_blank b <= limit)%nat -> In c (blank_cells b) ->
  minimax self limit (place b c (mover self m)) (depth + 1) (negb m)
  = Ok (value_of (minimax self limit (place b c (mover self m))
                    (depth + 1) (negb m)),
        place b c (mover self m)).
Proof.
  intros Hb Hle Hc. apply blank_cells_spec in Hc as [Hc Hblank].
  apply minimax_restores; [assumption | apply place_3x3; assumption |].
  apply String.eqb_eq in Hblank.
  pose proof (count_blank_place b c (mover self m) Hb Hc Hblank
                (mover_not_blank self Hplayers m)). lia.
Qed.
End SearchSpec.

(** C2, as the code has it.  On a well-formed board [minimax] returns and
    leaves the board as it found it.  It returns [10 - depth] when
    [check_winner_static] reports the computer's symbol, [-10 + depth] when
    it reports the human's symbol, [0] when neither is reported and the
    board is full, and otherwise the greatest (when maximizing, placing the
    computer's symbol) or the least (when minimizing, placing the human's
    symbol) of the values of [minimax] at [depth + 1] with the opposite flag
    over the empty cells, each of those calls returning with its placement
    still on the board for the caller to undo. *)
Theorem minimax_spec (self : MinimaxAI) (limit : nat) (b : board) (depth : Z)
    (is_maximizing : bool) :
  players_ok self -> is_3x3 b -> (count_blank b < limit)%nat ->
  exists s,
    minimax self limit b depth is_maximizing = Ok (s, b)
    /\ (check_winner_static b = Ok (Some (ai_player self)) ->
        s = Fin (10 - depth))
    /\ (check_winner_static b = Ok (Some (human_player self)) ->
        s = Fin (-10 + depth))
    /\ (forall w, check_winner_static b = Ok w ->
          w <> Some (ai_player self) -> w <> Some (human_player self) ->
          (is_full_static b = true -> s = Fin 0)
          /\ (is_full_static b = false ->
              exists limit',
                limit = S limit'
                /\ (forall c, In c (blank_cells b) ->
                      minimax self limit' (place b c (mover self is_maximizing))
                        (depth + 1) (negb is_maximizing)
                      = Ok (value_of
                              (minimax self limit'
                                 (place b c (mover self is_maximizing))
                                 (depth + 1) (negb is_maximizing)),
                            place b c (mover self is_maximizing)))
                /\ let children :=
                     List.map
                       (fun c => value_of
                          (minimax self limit'
                             (place b c (mover self is_maximizing))
                             (depth + 1) (negb is_maximizing)))
                       (blank_cells b) in
                   if is_maximizing then is_maximum s children
                   else is_minimum s children)).
Proof.
  intros Hplayers Hb Hlt.
  exists (value_of (minimax self limit b depth is_maximizing)).
  split; [apply minimax_restores; assumption |].
  destruct limit as [|limit']; [lia |].
  assert (count_blank b <= limit')%nat as Hle by lia.
  rewrite (minimax_step self Hplayers limit' b depth is_maximizing Hb Hle).
  unfold check_winner_static. rewrite (check_winner_board_grid b Hb).
  split; [| split].
  - intros [= Hw]. rewrite (eval_of_ai self b Hw). reflexivity.
  - intros [= Hw]. rewrite (eval_of_human self Hplayers b Hw). reflexivity.
  - intros w [= <-] Hai Hhu. rewrite (eval_of_other self b Hai Hhu). simpl.
    unfold is_full_static. split.
    + intros ->. reflexivity.
    + intros Hfull. rewrite Hfull. exists limit'. split; [reflexivity |].
      split; [intros c Hc; apply child_call; assumption |].
      assert (List.map
                (fun c => value_of
                   (minimax self limit' (place b c (mover self is_maximizing))
                      (depth + 1) (negb is_maximizing)))
                (blank_cells b) <> []) as Hne.
      { intros E. apply map_eq_nil in E.
        apply all_marked_blank_cells in E; [congruence | assumption]. }
      destruct is_maximizing; simpl.
      * apply fold_max_is_maximum; assumption.
      * apply fold_min_is_minimum; assumption.
Qed.

Lemma minimax_spec_witness :
  exists s,
    minimax (default_ai HARD) 3
      [["X"; "X"; " "]; ["O"; "O"; " "]; ["X"; "O"; "X"]] 0 true
    = Ok (s, [["X"; "X"; " "]; ["O"; "O"; " "]; ["X"; "O"; "X"]]).
Proof.
  destruct (minimax_spec (default_ai HARD) 3
              [["X"; "X"; " "]; ["O"; "O"; " "]; ["X"; "O"; "X"]] 0 true
              (default_players_ok HARD)
              (is_3x3_intro "X" "X" " " "O" "O" " " "X" "O" "X")
              ltac:(vm_compute; lia))
    as (s & Hs & _).
  exists s. exact Hs.
Defined.

(** C2 as stated fails on a board where both symbols have completed a line:
    the computer's ["O"] fills the middle row, yet the value is [-10], the
    score of the top row of ["X"], which is checked first. *)
Lemma minimax_two_lines_counterexample :
  let b := [["X"; "X"; "X"]; ["O"; "O"; "O"]; [" "; " "; " "]] in
  completes b ((1, 0), (1, 1), (1, 2)) (ai_player (default_ai HARD))
  /\ minimax (default_ai HARD) 10 b 0 true = Ok (Fin (-10), b)
  /\ Fin (-10) <> Fin (10 - 0).
Proof.
  simpl. split; [| split].
  - repeat split; discriminate.
  - reflexivity.
  - discriminate.
Qed.

(** * Properties of the move selector *)

(** C3.  At the difficulty [HARD], on a well-formed board with an empty cell,
    the search loop ends with the best-set, the empty cells whose top-level
    evaluation is the greatest over all empty cells, every one of them kept;
    [find_best_move] returns a member of that set, and every member is
    returned for some draw of [random.choice]. *)
Theorem find_best_move_hard_in_best_set (self : MinimaxAI) (limit : nat)
    (g : rng) (b : board) :
  players_ok self -> difficulty self = HARD ->
  is_3x3 b -> (count_blank b <= limit)%nat ->
  blank_cells b <> [] ->
  best_moves_loop self limit b
    = Ok (best_val_of self limit b, best_set self limit b, b)
  /\ is_maximum (best_val_of self limit b)
       (List.map (top_val self limit b) (blank_cells b))
  /\ (forall c, In c (best_set self limit b) <->
        In c (blank_cells b)
        /\ minimax self limit (place b c (ai_player self)) 0 false
           = Ok (best_val_of self limit b, place b c (ai_player self)))
  /\ (exists m, find_best_move self limit g b = Ok (m, b)
                /\ In m (best_set self limit b))
  /\ (forall c, In c (best_set self limit b) ->
        exists g', find_best_move self limit g' b = Ok (c, b)).
Proof.
  intros Hplayers Hd Hb Hle Hne.
  split; [apply best_moves_loop_grid; assumption |].
  split; [apply best_val_is_maximum; assumption |].
  split; [| split].
  - intros c. rewrite best_set_spec. split.
    + intros [Hc Hval]. split; [assumption |]. rewrite <- Hval.
      apply blank_cells_spec in Hc as [Hc Hblank].
      apply top_call; try assumption.
      * apply in_grid_cells9; assumption.
      * apply String.eqb_eq; assumption.
    + intros [Hc Hcall]. split; [assumption |].
      unfold top_val. rewrite Hcall. reflexivity.
  - apply hard_returns_best; assumption.
  - intros c Hc. destruct (choice_any _ c Hc) as [g' Hg'].
    exists g'. rewrite (find_best_move_hard self Hplayers limit g' b Hd Hb Hle).
    unfold choice_or_sentinel.
    destruct (best_set self limit b); [destruct Hc |].
    simpl truthy. cbv iota. rewrite Hg'. reflexivity.
Qed.

Lemma find_best_move_hard_in_best_set_witness :
  exists m,
    find_best_move (default_ai HARD) 9 {| random := 0 # 1; randbelow := 0 |}
      [["X"; "X"; " "]; ["O"; "O"; " "]; ["X"; "O"; "X"]]
    = Ok (m, [["X"; "X"; " "]; ["O"; "O"; " "]; ["X"; "O"; "X"]])
    /\ In m (best_set (default_ai HARD) 9
               [["X"; "X"; " "]; ["O"; "O"; " "]; ["X"; "O"; "X"]]).
Proof.
  destruct (find_best_move_hard_in_best_set (default_ai HARD) 9
              {| random := 0 # 1; randbelow := 0 |}
              [["X"; "X"; " "]; ["O"; "O"; " "]; ["X"; "O"; "X"]]
              (default_players_ok HARD) eq_refl
              (is_3x3_intro "X" "X" " " "O" "O" " " "X" "O" "X")
              ltac:(vm_compute; lia) ltac:(vm_compute; discriminate))
    as (_ & _ & _ & H & _).
  exact H.
Defined.

(** C6.  At every difficulty, on a well-formed board, [find_best_move]
    returns; it returns the pair (-1, -1) exactly when the board has no empty
    cell, and on a board with an empty cell it returns the coordinates of an
    empty cell of that board. *)
Theorem find_best_move_sentinel (self : MinimaxAI) (limit : nat) (g : rng)
    (b : board) :
  players_ok self -> is_3x3 b -> (count_blank b <= limit)%nat ->
  exists m,
    find_best_move self limit g b = Ok (m, b)
    /\ (m = (-1, -1) <-> is_full_static b = true)
    /\ (is_full_static b = false -> in_grid m /\ cell_at b m = blank).
Proof.
  intros Hplayers Hb Hle. unfold is_full_static.
  assert (forall cells,
            (forall c, In c cells -> In c (blank_cells b)) ->
            (cells = [] <-> blank_cells b = []) ->
            exists m,
              (choice_or_sentinel g cells ≫= fun m => Ok (m, b)) = Ok (m, b)
              /\ (m = (-1, -1) <-> all_marked b = true)
              /\ (all_marked b = false -> in_grid m /\ cell_at b m = blank))
    as Hsel.
  { intros cells Hincl Hnil.
    pose proof (all_marked_blank_cells b Hb) as Hfull_iff.
    destruct (choice_or_sentinel_blank g cells) as [[E Hm] | (m & Hm & Hin)].
    - exists (-1, -1). rewrite Hm. split; [reflexivity |].
      apply Hnil, Hfull_iff in E. split; [tauto |]. congruence.
    - exists m. rewrite Hm. split; [reflexivity |].
      apply Hincl in Hin. apply blank_cells_spec in Hin as Hm'.
      destruct Hm' as [Hgrid Hblank].
      split; [| tauto]. split.
      + intros ->. destruct Hgrid as [Hi _]. simpl in Hi. lia.
      + intros E. apply Hfull_iff in E. rewrite E in Hin. destruct Hin. }
  assert (best_set self limit b = [] <-> blank_cells b = []) as Hbest.
  { split.
    - intros E. destruct (blank_cells b) eqn:Eb; [reflexivity |].
      exfalso. apply (best_set_nonempty self limit b); [congruence | assumption].
    - intros E. unfold best_set. rewrite E. reflexivity. }
  destruct (difficulty self) eqn:Hd.
  - rewrite (find_best_move_easy self limit g b Hd Hb).
    apply Hsel; tauto.
  - rewrite (find_best_move_medium self Hplayers limit g b Hd Hb Hle).
    destruct (negb (Qle_bool (3 # 10) (random g)) && truthy (blank_cells b))
      eqn:Hroll.
    + apply andb_true_iff in Hroll as [_ Hne]. apply truthy_true in Hne.
      destruct (Hsel (blank_cells b)) as (m & Hm & H1 & H2); [tauto | tauto |].
      exists m. split; [| tauto].
      unfold choice_or_sentinel in Hm.
      destruct (blank_cells b); [congruence | exact Hm].
    + apply Hsel; [apply best_set_incl | assumption].
  - rewrite (find_best_move_hard self Hplayers limit g b Hd Hb Hle).
    apply Hsel; [apply best_set_incl | assumption].
Qed.

Lemma find_best_move_sentinel_witness :
  exists m,
    find_best_move (default_ai MEDIUM) 9 {| random := 1 # 2; randbelow := 4 |}
      [["X"; "O"; "X"]; ["X"; "O"; "O"]; ["O"; "X"; "X"]]
    = Ok (m, [["X"; "O"; "X"]; ["X"; "O"; "O"]; ["O"; "X"; "X"]])
    /\ (m = (-1, -1) <->
        is_full_static [["X"; "O"; "X"]; ["X"; "O"; "O"]; ["O"; "X"; "X"]]
        = true).
Proof.
  destruct (find_best_move_sentinel (default_ai MEDIUM) 9
              {| random := 1 # 2; randbelow := 4 |}
              [["X"; "O"; "X"]; ["X"; "O"; "O"]; ["O"; "X"; "X"]]
              (default_players_ok MEDIUM)
              (is_3x3_intro "X" "O" "X" "X" "O" "O" "O" "X" "X")
              ltac:(vm_compute; lia))
    as (m & H1 & H2 & _).
  exists m. split; assumption.
Defined.

(** C7.  At every difficulty, on a well-formed board, the board handed to
    [find_best_move] holds the same cells when the call returns: the search
    works on [board_copy], the loop over [board_copy] ends with every
    placement undone, and so does every call of [minimax]. *)
Theorem find_best_move_preserves_board (self : MinimaxAI) (limit : nat)
    (g : rng) (b : board) :
  players_ok self -> is_3x3 b -> (count_blank b <= limit)%nat ->
  (exists m, find_best_move self limit g b = Ok (m, b))
  /\ (exists best_val best_moves,
        best_moves_loop self limit (deepcopy b)
        = Ok (best_val, best_moves, deepcopy b))
  /\ (forall c, In c (blank_cells b) ->
        exists v, minimax self limit (place b c (ai_player self)) 0 false
                  = Ok (v, place b c (ai_player self)))
  /\ (forall b' depth is_maximizing,
        is_3x3 b' -> (count_blank b' < limit)%nat ->
        exists s, minimax self limit b' depth is_maximizing = Ok (s, b')).
Proof.
  intros Hplayers Hb Hle. split; [| split; [| split]].
  - apply find_best_move_total; assumption.
  - unfold deepcopy. rewrite (best_moves_loop_grid self Hplayers limit b Hb Hle).
    eauto.
  - intros c Hc. apply blank_cells_spec in Hc as [Hc Hblank].
    eexists. apply (top_call self Hplayers limit b c Hb Hle).
    + apply in_grid_cells9; assumption.
    + apply String.eqb_eq; assumption.
  - intros b' depth m Hb' Hlt. eexists.
    apply (minimax_restores self Hplayers limit b' depth m Hb' Hlt).
Qed.

Lemma find_best_move_preserves_board_witness :
  exists m,
    find_best_move (default_ai HARD) 9 {| random := 0 # 1; randbelow := 7 |}
      [["X"; " "; " "]; ["O"; "O"; " "]; ["X"; "O"; "X"]]
    = Ok (m, [["X"; " "; " "]; ["O"; "O"; " "]; ["X"; "O"; "X"]]).
Proof.
  destruct (find_best_move_preserves_board (default_ai HARD) 9
              {| random := 0 # 1; randbelow := 7 |}
              [["X"; " "; " "]; ["O"; "O"; " "]; ["X"; "O"; "X"]]
              (default_players_ok HARD)
              (is_3x3_intro "X" " " " " "O" "O" " " "X" "O" "X")
              ltac:(vm_compute; lia))
    as (H & _).
  exact H.
Defined.

(** * Properties of the score record *)

Lemma best_time_le_refl (b : option Z) : best_time_le b b.
Proof. destruct b; simpl; [lia | exact I]. Qed.

Lemma new_best_time_le (t : Z) (b : option Z) :
  best_time_le (new_best_time t b) b.
Proof.
  destruct b as [b |]; simpl; [| exact I].
  destruct (t <? b) eqn:E; simpl; [apply Z.ltb_lt in E |]; lia.
Qed.

#[local] Arguments String.eqb : simpl nomatch.

(** [update_body] on the dictionary of a record is [update_record]. *)
Lemma run_update_body (result : string) (time_taken : Z) (difficulty : string)
    (r : ScoreRecord) :
  run (update_body result time_taken difficulty) (to_dict r)
  = (to_dict (update_record result time_taken difficulty r).1,
     (update_record result time_taken difficulty r).2).
Proof.
  destruct r as [w l dr ws bt gp ew mw hw].
  unfold update_body, update_record, count_difficulty, set_best_time,
    new_best_time.
  destruct (String.eqb result "W");
    [| destruct (String.eqb result "L"); reflexivity].
  cbn.
  destruct (String.eqb "EASY" difficulty);
    [| destruct (String.eqb "MEDIUM" difficulty);
       [| destruct (String.eqb "HARD" difficulty); [| reflexivity]]];
    cbn; destruct bt as [b |]; cbn; try reflexivity;
    destruct (time_taken <? b); reflexivity.
Qed.

Lemma update_record_tally (result : string) (time_taken : Z)
    (difficulty : string) (r : ScoreRecord) :
  let r' := (update_record result time_taken difficulty r).1 in
  games_played r' = games_played r + 1
  /\ (wins r', losses r', draws r') =
       (if String.eqb result "W" then (wins r + 1, losses r, draws r)
        else if String.eqb result "L" then (wins r, losses r + 1, draws r)
        else (wins r, losses r, draws r + 1))
  /\ best_time_le (best_time r') (best_time r)
  /\ (best_time r' <> best_time r -> result = "W").
Proof.
  unfold update_record, count_difficulty.
  destruct (String.eqb result "W") eqn:EW;
    [apply String.eqb_eq in EW
    | destruct (String.eqb result "L");
      cbn; (repeat split; [apply best_time_le_refl | congruence])].
  destruct (String.eqb "EASY" difficulty);
    [| destruct (String.eqb "MEDIUM" difficulty);
       [| destruct (String.eqb "HARD" difficulty)]];
    cbn; repeat split; auto using new_best_time_le, best_time_le_refl.
Qed.

(** C10.  One call of [update_game], and of [update_stats], on a score
    record adds one to [games_played] and one to exactly one of [wins],
    [losses] and [draws]: to [wins] for the result ['W'], to [losses] for
    ['L'], to [draws] for any other result.  So [wins + losses + draws =
    games_played] is kept.  [best_time] never goes up, and changes only when
    the result is ['W'].  This holds of the dictionary as the call leaves it,
    also when the call raises [KeyError] on an unknown difficulty. *)
Theorem update_keeps_tally (r : ScoreRecord) (file : string) (d : disk)
    (result : string) (time_taken : Z) (difficulty : string) :
  exists r',
    stats (update_game {| stats_file := file; stats := to_dict r |} d
             result time_taken difficulty).1.1 = to_dict r'
    /\ (update_stats (to_dict r) d result time_taken difficulty).1.1 = to_dict r'
    /\ games_played r' = games_played r + 1
    /\ (wins r', losses r', draws r') =
         (if String.eqb result "W" then (wins r + 1, losses r, draws r)
          else if String.eqb result "L" then (wins r, losses r + 1, draws r)
          else (wins r, losses r, draws r + 1))
    /\ (wins r + losses r + draws r = games_played r ->
        wins r' + losses r' + draws r' = games_played r')
    /\ best_time_le (best_time r') (best_time r)
    /\ (best_time r' <> best_time r -> result = "W").
Proof.
  exists (update_record result time_taken difficulty r).1.
  destruct (update_record_tally result time_taken difficulty r)
    as (Hgp & Hcnt & Hle & Hchg).
  unfold update_game, update_stats; cbn [stats stats_file].
  rewrite run_update_body.
  destruct (update_record result time_taken difficulty r) as [r' [u | e]];
    cbn [fst snd stats] in *;
    (split; [reflexivity |]); (split; [reflexivity |]);
    (split; [assumption |]); (split; [assumption |]);
    (split; [| split; assumption]);
    intros Hinv; rewrite Hgp;
    destruct (String.eqb result "W");
      [| destruct (String.eqb result "L") | | destruct (String.eqb result "L")];
    injection Hcnt as -> -> ->; lia.
Qed.

Lemma update_keeps_tally_witness :
  exists r',
    (update_stats default_stats {| files := ∅; read_only := false |}
       "W" 12 "HARD").1.1 = to_dict r'
    /\ games_played r' = 1
    /\ wins r' + losses r' + draws r' = games_played r'.
Proof.
  destruct (update_keeps_tally
              {| wins := 0; losses := 0; draws := 0; win_streak := 0;
                 best_time := None; games_played := 0; easy_wins := 0;
                 medium_wins := 0; hard_wins := 0 |}
              "tictactoe_stats.json" {| files := ∅; read_only := false |}
              "W" 12 "HARD")
    as (r' & _ & H1 & H2 & _ & H3 & _).
  exists r'. split; [exact H1 |]. split; [exact H2 |]. apply H3. reflexivity.
Defined.

(** * Blocking and winning *)

(** ** Lines and placements *)

Lemma lines_in_grid (l : (Z * Z) * (Z * Z) * (Z * Z)) :
  In l lines ->
  in_grid (fst (fst l)) /\ in_grid (snd (fst l)) /\ in_grid (snd l).
Proof.
  unfold lines. simpl. intros H.
  repeat (destruct H as [<- | H]; [unfold in_grid; simpl; lia |]).
  destruct H.
Qed.

Lemma completes_on_line (b : board) (c : Z * Z) (s w : cell)
    (l : (Z * Z) * (Z * Z) * (Z * Z)) :
  is_3x3 b -> in_grid c -> on_line c l ->
  completes (place b c s) l w -> w = s.
Proof.
  intros Hb Hc Hon Hl. destruct l as [[c1 c2] c3].
  destruct Hl as (H1 & H2 & H3 & _). unfold on_line in Hon. simpl in Hon.
  destruct Hon as [<- | [<- | <-]];
    rewrite cell_at_place_eq in * by assumption; congruence.
Qed.

Lemma completes_off_line (b : board) (c : Z * Z) (s w : cell)
    (l : (Z * Z) * (Z * Z) * (Z * Z)) :
  is_3x3 b -> in_grid c -> In l lines -> ~ on_line c l ->
  (completes (place b c s) l w <-> completes b l w).
Proof.
  intros Hb Hc Hl Hoff. destruct (lines_in_grid l Hl) as (G1 & G2 & G3).
  destruct l as [[c1 c2] c3]. unfold on_line in Hoff. simpl in *.
  unfold completes.
  rewrite !cell_at_place_ne by (try assumption; intros ->; tauto).
  reflexivity.
Qed.

Lemma on_line_dec (c : Z * Z) (l : (Z * Z) * (Z * Z) * (Z * Z)) :
  on_line c l \/ ~ on_line c l.
Proof.
  unfold on_line.
  destruct (decide (c = fst (fst l))); [tauto |].
  destruct (decide (c = snd (fst l))); [tauto |].
  destruct (decide (c = snd l)); tauto.
Qed.

Lemma completes_cell (b : board) (c : Z * Z) (w : cell)
    (l : (Z * Z) * (Z * Z) * (Z * Z)) :
  on_line c l -> completes b l w -> cell_at b c = w /\ w <> blank.
Proof.
  destruct l as [[c1 c2] c3]. intros Hon (H1 & H2 & H3 & Hw).
  unfold on_line in Hon. simpl in Hon.
  destruct Hon as [-> | [-> | ->]]; auto.
Qed.

(** On a board without a completed line, a placement completes lines for
    the symbol placed only. *)
Lemma completes_after_place (b : board) (c : Z * Z) (s w : cell)
    (l : (Z * Z) * (Z * Z) * (Z * Z)) :
  is_3x3 b -> in_grid c -> winner_of b = None -> In l lines ->
  completes (place b c s) l w -> w = s /\ on_line c l.
Proof.
  intros Hb Hc Hnone Hl Hw.
  destruct (on_line_dec c l) as [Hon | Hoff].
  - split; [| assumption]. eapply completes_on_line; eassumption.
  - exfalso. apply completes_off_line in Hw; try assumption.
    eapply first_completed_None in Hnone; eauto.
Qed.

Lemma winner_after_place (b : board) (c : Z * Z) (s w : cell) :
  is_3x3 b -> in_grid c -> winner_of b = None ->
  winner_of (place b c s) = Some w -> w = s.
Proof.
  intros Hb Hc Hnone Hw. apply winner_of_completes in Hw as (l & Hl & Hw).
  eapply completes_after_place; eassumption.
Qed.

Lemma winner_unique (b : board) (w : cell) :
  (exists l, In l lines /\ completes b l w) ->
  (forall l w', In l lines -> completes b l w' -> w' = w) ->
  winner_of b = Some w.
Proof.
  intros (l & Hl & Hw) Hall.
  destruct (winner_of b) as [w' |] eqn:E.
  - apply winner_of_completes in E as (l' & Hl' & Hw').
    f_equal. eapply Hall; eassumption.
  - exfalso. eapply first_completed_None in E; eauto.
Qed.

Lemma place_blank_cells (b : board) (c c' : Z * Z) (s : cell) :
  is_3x3 b -> in_grid c -> s <> blank ->
  In c' (blank_cells (place b c s)) <-> In c' (blank_cells b) /\ c' <> c.
Proof.
  intros Hb Hc Hs. rewrite !blank_cells_spec. split.
  - intros [Hc' Hblank].
    rewrite cell_at_place in Hblank by assumption.
    destruct (decide (c = c')) as [-> | Hne]; [congruence |].
    split; [split; assumption | congruence].
  - intros [[Hc' Hblank] Hne]. split; [assumption |].
    rewrite cell_at_place_ne by auto. assumption.
Qed.

(** ** Bounds on the value of a position *)

Lemma count_blank_le_9 (b : board) : (count_blank b <= 9)%nat.
Proof.
  unfold count_blank, blank_cells.
  apply (List.filter_length_le (is_blank b) cells9).
Qed.

Section Bounds.
Variable self : MinimaxAI.
Hypothesis Hplayers : players_ok self.

(** A value lies between [-10 + depth] and [10 - depth], and strictly inside
    unless the position is already won by the corresponding side. *)
Lemma minimax_bounds (limit : nat) :
  forall (b : board) (depth : Z) (m : bool),
    is_3x3 b -> (count_blank b < limit)%nat ->
    0 <= depth -> depth + Z.of_nat (count_blank b) <= 9 ->
    exists v,
      value_of (minimax self limit b depth m) = Fin v
      /\ (if eval_of self b =? -10 then -10 + depth else -9 + depth) <= v
      /\ v <= (if eval_of self b =? 10 then 10 - depth else 9 - depth).
Proof.
  induction limit as [|limit IH]; intros b depth m Hb Hlt Hd Hsum; [lia |].
  rewrite (minimax_step self Hplayers limit b depth m Hb) by lia.
  destruct (eval_of_cases self b) as [E | [E | E]]; rewrite E; simpl.
  - exists (10 - depth). split; [reflexivity | lia].
  - exists (-10 + depth). split; [reflexivity | lia].
  - destruct (all_marked b) eqn:Hfull.
    { exists 0. split; [reflexivity | lia]. }
    set (children :=
           List.map (fun c => value_of (minimax self limit
                                 (place b c (mover self m)) (depth + 1) (negb m)))
                    (blank_cells b)).
    assert (forall x, In x children ->
              exists v, x = Fin v /\ -9 + depth <= v <= 9 - depth) as Hch.
    { intros x Hx. apply in_map_iff in Hx as (c & <- & Hc).
      apply blank_cells_spec in Hc as [Hc Hblank].
      apply String.eqb_eq in Hblank.
      pose proof (count_blank_place b c (mover self m) Hb Hc Hblank
                    (mover_not_blank self Hplayers m)) as Hcount.
      destruct (IH (place b c (mover self m)) (depth + 1) (negb m))
        as (v & Hv & Hlo & Hhi); [apply place_3x3; assumption | lia | lia | lia |].
      exists v. split; [assumption |].
      destruct (eval_of self (place b c (mover self m)) =? -10),
        (eval_of self (place b c (mover self m)) =? 10); lia. }
    assert (children <> []) as Hne.
    { unfold children. intros E'. apply map_eq_nil in E'.
      apply all_marked_blank_cells in E'; [congruence | assumption]. }
    assert (In (fold_left (pick_of m) children (start_of m)) children) as Hin.
    { destruct m; simpl.
      - apply fold_max_is_maximum; assumption.
      - apply fold_min_is_minimum; assumption. }
    destruct (Hch _ Hin) as (v & Hv & Hbounds).
    exists v. split; [exact Hv | lia].
Qed.
Lemma minimax_step_pred (limit : nat) (b : board) (depth : Z) (m : bool) :
  is_3x3 b -> (count_blank b < limit)%nat ->
  value_of (minimax self limit b depth m) =
    if eval_of self b =? 10 then Fin (10 - depth)
    else if eval_of self b =? -10 then Fin (-10 + depth)
    else if all_marked b then Fin 0
    else fold_left (pick_of m)
           (List.map (fun c => value_of (minimax self (Nat.pred limit)
                                  (place b c (mover self m)) (depth + 1) (negb m)))
                     (blank_cells b))
           (start_of m).
Proof.
  intros Hb Hlt. destruct limit as [|limit]; [lia |].
  apply minimax_step; [assumption | assumption | lia].
Qed.

Lemma terminal_ai (lim : nat) (b' : board) (depth : Z) (m : bool) :
  is_3x3 b' -> (count_blank b' < lim)%nat ->
  winner_of b' = Some (ai_player self) ->
  value_of (minimax self lim b' depth m) = Fin (10 - depth).
Proof.
  intros Hb' Hlt Hw. destruct lim as [|lim]; [lia |].
  rewrite (minimax_step self Hplayers lim b' depth m Hb') by lia.
  rewrite (eval_of_ai self b' Hw). reflexivity.
Qed.

Lemma terminal_human (lim : nat) (b' : board) (depth : Z) (m : bool) :
  is_3x3 b' -> (count_blank b' < lim)%nat ->
  winner_of b' = Some (human_player self) ->
  value_of (minimax self lim b' depth m) = Fin (-10 + depth).
Proof.
  intros Hb' Hlt Hw. destruct lim as [|lim]; [lia |].
  rewrite (minimax_step self Hplayers lim b' depth m Hb') by lia.
  rewrite (eval_of_human self Hplayers b' Hw). reflexivity.
Qed.

End Bounds.

Lemma place_comm (b : board) (c c' : Z * Z) (s s' : cell) :
  is_3x3 b -> in_grid c -> in_grid c' -> c <> c' ->
  place (place b c s) c' s' = place (place b c' s') c s.
Proof.
  intros Hb Hc Hc' Hne.
  apply board_ext; [auto using place_3x3 .. |].
  intros x Hx. rewrite !cell_at_place by auto using place_3x3.
  destruct (decide (c' = x)), (decide (c = x)); congruence.
Qed.

(** ** The two priorities of the hardest difficulty *)

Section Priority.
Variable self : MinimaxAI.
Hypothesis Hplayers : players_ok self.
Variable limit : nat.
Variable b : board.
Hypothesis Hb : is_3x3 b.
Hypothesis Hlimit : (count_blank b <= limit)%nat.
Hypothesis Hnone : winner_of b = None.

Lemma completes_at_winner (c : Z * Z) (s : cell) :
  completes_at b c s <-> In c (blank_cells b) /\ winner_of (place b c s) = Some s.
Proof.
  unfold completes_at. split; intros [Hc Hw]; (split; [assumption |]);
    apply blank_cells_spec in Hc as [Hc _];
    rewrite check_winner_board_grid in * by (apply place_3x3; assumption);
    congruence.
Qed.

(** A cell that wins at once is valued 10, any other cell at most 9. *)
Lemma top_val_win (c : Z * Z) :
  In c (blank_cells b) -> winner_of (place b c (ai_player self)) = Some (ai_player self) ->
  top_val self limit b c = Fin 10.
Proof.
  intros Hc Hw. apply blank_cells_spec in Hc as [Hc Hblank].
  apply String.eqb_eq in Hblank. destruct Hplayers as (Hai & _).
  pose proof (count_blank_place b c _ Hb Hc Hblank Hai) as Hcount.
  unfold top_val. rewrite (terminal_ai self Hplayers); auto using place_3x3. lia.
Qed.

Lemma top_val_no_win (c : Z * Z) :
  In c (blank_cells b) -> winner_of (place b c (ai_player self)) <> Some (ai_player self) ->
  exists v, top_val self limit b c = Fin v /\ v <= 9.
Proof.
  intros Hc Hw. apply blank_cells_spec in Hc as [Hc Hblank].
  apply String.eqb_eq in Hblank. destruct Hplayers as (Hai & _).
  pose proof (count_blank_place b c _ Hb Hc Hblank Hai) as Hcount.
  pose proof (count_blank_le_9 b) as H9.
  destruct (minimax_bounds self Hplayers limit (place b c (ai_player self)) 0 false)
    as (v & Hv & Hlo & Hhi); [apply place_3x3; assumption | lia | lia | lia |].
  exists v. split; [exact Hv |].
  destruct (eval_of self (place b c (ai_player self)) =? 10) eqn:E10.
  { apply Z.eqb_eq, eval_of_10 in E10. contradiction. }
  lia.
Qed.

(** With a winning cell on the board the best-set holds winning cells only. *)
Lemma best_set_wins (cw m : Z * Z) :
  In cw (blank_cells b) ->
  winner_of (place b cw (ai_player self)) = Some (ai_player self) ->
  In m (best_set self limit b) ->
  winner_of (place b m (ai_player self)) = Some (ai_player self).
Proof.
  intros Hcw Hw Hm. apply best_set_spec in Hm as [Hm Hval].
  assert (blank_cells b <> []) as Hne by (intros E; rewrite E in Hm; destruct Hm).
  destruct (best_val_is_maximum self limit b Hne) as [_ Hmax].
  pose proof (Hmax _ (in_map (top_val self limit b) _ _ Hcw)) as Hle.
  rewrite (top_val_win cw Hcw Hw), <- Hval in Hle.
  destruct (decide (winner_of (place b m (ai_player self))
                    = Some (ai_player self))) as [Hyes | Hno]; [assumption |].
  destruct (top_val_no_win m Hm Hno) as (v & Hv & Hbound).
  rewrite Hv in Hle. apply score_le_Fin in Hle. lia.
Qed.

Section Threat.
Variable ch : Z * Z.
Hypothesis Hch : In ch (blank_cells b).
Hypothesis Hthreat :
  winner_of (place b ch (human_player self)) = Some (human_player self).
Hypothesis Honly :
  forall c, In c (blank_cells b) ->
    winner_of (place b c (human_player self)) = Some (human_player self) ->
    c = ch.
Hypothesis Hnowin :
  forall c, In c (blank_cells b) ->
    winner_of (place b c (ai_player self)) <> Some (ai_player self).

Lemma no_winner_after_ai (c : Z * Z) :
  In c (blank_cells b) -> winner_of (place b c (ai_player self)) = None.
Proof.
  intros Hc. destruct (winner_of (place b c (ai_player self))) as [w |] eqn:E;
    [| reflexivity].
  exfalso. apply (Hnowin c Hc). rewrite E. f_equal.
  apply blank_cells_spec in Hc as [Hc _].
  eapply winner_after_place; eassumption.
Qed.

(** After a move elsewhere the human completes the line at [ch]. *)
Lemma human_wins_after (c : Z * Z) :
  In c (blank_cells b) -> c <> ch ->
  winner_of (place (place b c (ai_player self)) ch (human_player self))
  = Some (human_player self).
Proof.
  intros Hc Hne. pose proof (no_winner_after_ai c Hc) as Hnone1.
  apply blank_cells_spec in Hc as [Hc Hblank].
  apply blank_cells_spec in Hch as [Hgch _].
  destruct Hplayers as (Hai & Hhu & Hdiff).
  apply winner_unique.
  - apply winner_of_completes in Hthreat as (l & Hl & Hcomp).
    exists l. split; [assumption |].
    rewrite place_comm by auto.
    apply completes_off_line; auto using place_3x3.
    intros Hon. destruct (completes_cell _ c _ l Hon Hcomp) as [Hcell Hw].
    rewrite cell_at_place_ne in Hcell by auto. congruence.
  - intros l w' Hl Hcomp.
    apply (completes_after_place (place b c (ai_player self)) ch
             (human_player self) w' l); auto using place_3x3.
Qed.

Lemma top_val_elsewhere (c : Z * Z) :
  In c (blank_cells b) -> c <> ch -> top_val self limit b c = Fin (-9).
Proof.
  intros Hc Hne.
  pose proof (no_winner_after_ai c Hc) as Hnone1.
  pose proof (human_wins_after c Hc Hne) as Hwin.
  pose proof Hc as Hc0. apply blank_cells_spec in Hc0 as [Hgc Hblank].
  apply String.eqb_eq in Hblank.
  pose proof Hch as Hch0. apply blank_cells_spec in Hch0 as [Hgch Hblankh].
  destruct Hplayers as (Hai & Hhu & Hdiff).
  pose proof (count_blank_place b c _ Hb Hgc Hblank Hai) as Hcount.
  pose proof (count_blank_le_9 b) as H9.
  set (b1 := place b c (ai_player self)) in *.
  assert (is_3x3 b1) as Hb1 by (apply place_3x3; assumption).
  assert (In ch (blank_cells b1)) as Hch1
    by (apply place_blank_cells; auto).
  unfold top_val. fold b1.
  rewrite (minimax_step_pred self Hplayers limit b1 0 false Hb1) by lia.
  set (lim := Nat.pred limit).
  rewrite (eval_of_other self b1) by (rewrite Hnone1; discriminate).
  simpl (0 =? 10). simpl (0 =? -10). cbv iota.
  destruct (all_marked b1) eqn:Hfull.
  { apply all_marked_blank_cells in Hfull; [| assumption].
    rewrite Hfull in Hch1. destruct Hch1. }
  simpl pick_of. simpl start_of. simpl mover. simpl negb.
  set (child := fun c' => value_of (minimax self lim
                  (place b1 c' (human_player self)) (0 + 1) true)).
  assert (List.map child (blank_cells b1) <> []) as Hne'.
  { intros E. apply map_eq_nil in E. rewrite E in Hch1. destruct Hch1. }
  destruct (fold_min_is_minimum _ Hne') as [Hin Hmin].
  assert (child ch = Fin (-9)) as Hchild.
  { unfold child.
    rewrite (terminal_human self Hplayers);
      [reflexivity | auto using place_3x3 | | assumption].
    apply blank_cells_spec in Hch1 as [_ Hb1ch]. apply String.eqb_eq in Hb1ch.
    pose proof (count_blank_place b1 ch _ Hb1 Hgch Hb1ch Hhu). lia. }
  pose proof (Hmin _ (in_map child _ _ Hch1)) as Hle. rewrite Hchild in Hle.
  apply in_map_iff in Hin as (c' & Hval & Hc').
  apply blank_cells_spec in Hc' as [Hgc' Hblank'].
  apply String.eqb_eq in Hblank'.
  pose proof (count_blank_place b1 c' _ Hb1 Hgc' Hblank' Hhu) as Hcount'.
  destruct (minimax_bounds self Hplayers lim
              (place b1 c' (human_player self)) (0 + 1) true)
    as (v & Hv & Hlo & _); [apply place_3x3; assumption | lia | lia | lia |].
  fold (child c') in Hv. rewrite Hval in Hv. rewrite Hv in Hle |- *.
  apply score_le_Fin in Hle. f_equal.
  destruct (eval_of self (place b1 c' (human_player self)) =? -10); lia.
Qed.

Lemma top_val_block : exists v, top_val self limit b ch = Fin v /\ -8 <= v.
Proof.
  pose proof (no_winner_after_ai ch Hch) as Hnone1.
  pose proof Hch as Hch0. apply blank_cells_spec in Hch0 as [Hgch Hblankh].
  apply String.eqb_eq in Hblankh.
  destruct Hplayers as (Hai & Hhu & Hdiff).
  pose proof (count_blank_place b ch _ Hb Hgch Hblankh Hai) as Hcount.
  pose proof (count_blank_le_9 b) as H9.
  set (b1 := place b ch (ai_player self)) in *.
  assert (is_3x3 b1) as Hb1 by (apply place_3x3; assumption).
  unfold top_val. fold b1.
  rewrite (minimax_step_pred self Hplayers limit b1 0 false Hb1) by lia.
  set (lim := Nat.pred limit).
  rewrite (eval_of_other self b1) by (rewrite Hnone1; discriminate).
  simpl (0 =? 10). simpl (0 =? -10). cbv iota.
  destruct (all_marked b1) eqn:Hfull.
  { exists 0. split; [reflexivity | lia]. }
  simpl pick_of. simpl start_of. simpl mover. simpl negb.
  set (child := fun c' => value_of (minimax self lim
                  (place b1 c' (human_player self)) (0 + 1) true)).
  assert (List.map child (blank_cells b1) <> []) as Hne'.
  { intros E. apply map_eq_nil in E.
    apply all_marked_blank_cells in E; [congruence | assumption]. }
  destruct (fold_min_is_minimum _ Hne') as [Hin _].
  apply in_map_iff in Hin as (c' & Hval & Hc').
  pose proof Hc' as Hc'0. apply place_blank_cells in Hc'0 as [Hc'b Hne]; auto.
  apply blank_cells_spec in Hc' as [Hgc' Hblank'].
  apply String.eqb_eq in Hblank'.
  pose proof (count_blank_place b1 c' _ Hb1 Hgc' Hblank' Hhu) as Hcount'.
  destruct (minimax_bounds self Hplayers lim
              (place b1 c' (human_player self)) (0 + 1) true)
    as (v & Hv & Hlo & _); [apply place_3x3; assumption | lia | lia | lia |].
  fold (child c') in Hv. rewrite Hval in Hv.
  exists v. split; [exact Hv |].
  destruct (eval_of self (place b1 c' (human_player self)) =? -10) eqn:E10;
    [| lia].
  exfalso. apply Hne. apply Honly; [assumption |].
  apply Z.eqb_eq, (eval_of_m10 self) in E10.
  apply winner_of_completes in E10 as (l & Hl & Hcomp).
  apply winner_unique.
  - exists l. split; [assumption |].
    unfold b1 in Hcomp. rewrite place_comm in Hcomp by auto.
    apply completes_off_line in Hcomp; auto using place_3x3.
    intros Hon. destruct (completes_cell _ ch _ l Hon Hcomp) as [Hcell _].
    rewrite cell_at_place_eq in Hcell by auto using place_3x3. congruence.
  - intros l' w' Hl' Hcomp'.
    apply (completes_after_place b c' (human_player self) w' l'); auto.
Qed.

(** Without a winning cell the best-set is the blocking cell alone. *)
Lemma best_set_blocks (m : Z * Z) : In m (best_set self limit b) -> m = ch.
Proof.
  intros Hm. apply best_set_spec in Hm as [Hm Hval].
  assert (blank_cells b <> []) as Hne by (intros E; rewrite E in Hm; destruct Hm).
  destruct (best_val_is_maximum self limit b Hne) as [_ Hmax].
  pose proof (Hmax _ (in_map (top_val self limit b) _ _ Hch)) as Hle.
  destruct top_val_block as (v & Hv & Hbound).
  destruct (decide (m = ch)) as [-> | Hneq]; [reflexivity |].
  rewrite <- Hval, (top_val_elsewhere m Hm Hneq), Hv in Hle.
  apply score_le_Fin in Hle. lia.
Qed.
End Threat.
End Priority.

(** C4, as the code has it.  Take a well-formed board without a completed
    line on which exactly one empty cell completes a line for the human.  At
    the difficulty [HARD], [find_best_move] returns that cell when no empty
    cell completes a line for the computer, and returns a cell that completes
    a line for the computer when there is one. *)
Theorem hard_blocks_or_wins (self : MinimaxAI) (limit : nat) (g : rng)
    (b : board) (ch : Z * Z) :
  players_ok self -> difficulty self = HARD ->
  is_3x3 b -> (count_blank b <= limit)%nat ->
  check_winner_board b = Ok None ->
  completes_at b ch (human_player self) ->
  (forall c, completes_at b c (human_player self) -> c = ch) ->
  exists m,
    find_best_move self limit g b = Ok (m, b)
    /\ ((forall c, ~ completes_at b c (ai_player self)) -> m = ch)
    /\ ((exists c, completes_at b c (ai_player self)) ->
        completes_at b m (ai_player self)).
Proof.
  intros Hplayers Hd Hb Hle Hnone Hthreat Honly.
  rewrite (check_winner_board_grid b Hb) in Hnone. injection Hnone as Hnone.
  apply (completes_at_winner b Hb) in Hthreat as [Hch Hthreat].
  assert (blank_cells b <> []) as Hne by (intros E; rewrite E in Hch; destruct Hch).
  destruct (hard_returns_best self Hplayers limit g b Hd Hb Hle Hne)
    as (m & Hm & Hin).
  exists m. split; [exact Hm |]. split.
  - intros Hnowin.
    apply (best_set_blocks self Hplayers limit b Hb Hle Hnone ch Hch Hthreat);
      [| | assumption].
    + intros c Hc Hw. apply Honly, (completes_at_winner b Hb). auto.
    + intros c Hc Hw. apply (Hnowin c), (completes_at_winner b Hb). auto.
  - intros (cw & Hcw). apply (completes_at_winner b Hb) in Hcw as [Hcw Hw].
    apply (completes_at_winner b Hb). split.
    + eapply best_set_incl; eassumption.
    + eapply (best_set_wins self Hplayers limit b Hb Hle); eassumption.
Qed.

Lemma hard_blocks_or_wins_witness :
  exists m,
    find_best_move (default_ai HARD) 9 {| random := 0 # 1; randbelow := 3 |}
      [["X"; "X"; " "]; ["O"; " "; " "]; [" "; " "; " "]]
    = Ok (m, [["X"; "X"; " "]; ["O"; " "; " "]; [" "; " "; " "]])
    /\ m = (0, 2).
Proof.
  destruct (hard_blocks_or_wins (default_ai HARD) 9
              {| random := 0 # 1; randbelow := 3 |}
              [["X"; "X"; " "]; ["O"; " "; " "]; [" "; " "; " "]] (0, 2)
              (default_players_ok HARD) eq_refl
              (is_3x3_intro "X" "X" " " "O" " " " " " " " " " ")
              ltac:(vm_compute; lia) eq_refl)
    as (m & Hm & Hblock & _).
  - split; [vm_compute; tauto | reflexivity].
  - intros c [Hc Hw]. vm_compute in Hc.
    repeat (destruct Hc as [<- | Hc]; [first [reflexivity | discriminate Hw] |]).
    destruct Hc.
  - exists m. split; [exact Hm |]. apply Hblock.
    intros c [Hc Hw]. vm_compute in Hc.
    repeat (destruct Hc as [<- | Hc]; [discriminate Hw |]).
    destruct Hc.
Defined.

(** C4 as stated fails when the human threatens two lines at once: with
    ["X"] one move from the top row and from the left column, and no winning
    cell for ["O"], every empty cell is valued -9 and the draw 1 of
    [random.choice] returns (1, 2), after which both lines are still open. *)
Lemma hard_double_threat_counterexample :
  let b := [["X"; "X"; " "]; ["X"; "O"; " "]; [" "; " "; "O"]] in
  check_winner_board b = Ok None
  /\ completes_at b (0, 2) "X"
  /\ completes_at b (2, 0) "X"
  /\ (forall c, ~ completes_at b c "O")
  /\ find_best_move (default_ai HARD) 9 {| random := 0 # 1; randbelow := 1 |} b
     = Ok ((1, 2), b)
  /\ completes_at (place b (1, 2) "O") (0, 2) "X"
  /\ completes_at (place b (1, 2) "O") (2, 0) "X".
Proof.
  cbv zeta. split; [reflexivity |].
  split; [split; [vm_compute; tauto | reflexivity] |].
  split; [split; [vm_compute; tauto | reflexivity] |].
  split.
  { intros c [Hc Hw]. vm_compute in Hc.
    repeat (destruct Hc as [<- | Hc]; [discriminate Hw |]).
    destruct Hc. }
  split; [vm_compute; reflexivity |].
  split; (split; [vm_compute; tauto | reflexivity]).
Qed.

(** * The score file *)

(** ** Text *)

#[local] Arguments String.append : simpl nomatch.

Lemma append_nil_r (s : string) : (s ++ EmptyString)%string = s.
Proof. induction s as [|c s IH]; simpl; [reflexivity | rewrite IH; reflexivity]. Qed.

Lemma append_assoc (s1 s2 s3 : string) :
  ((s1 ++ s2) ++ s3)%string = (s1 ++ (s2 ++ s3))%string.
Proof.
  induction s1 as [|c s1 IH]; simpl; [reflexivity | rewrite IH; reflexivity].
Qed.

Lemma length_append (s1 s2 : string) :
  String.length (s1 ++ s2) = (String.length s1 + String.length s2)%nat.
Proof.
  induction s1 as [|c s1 IH]; simpl; [reflexivity | rewrite IH; reflexivity].
Qed.

Lemma span_app (p : ascii -> bool) (s rest : string) :
  all_chars p s = true -> stops p rest -> span p (s ++ rest) = (s, rest).
Proof.
  intros Hs Hrest. induction s as [|c s IH]; simpl in *.
  - destruct rest as [|c rest]; simpl in *; [reflexivity |].
    rewrite Hrest. reflexivity.
  - apply andb_true_iff in Hs as [Hc Hs]. rewrite Hc, (IH Hs). reflexivity.
Qed.

(** ** Integers *)

Lemma Z_of_str_of_Z (z : Z) : Z_of_str (str_of_Z z) = Some z.
Proof.
  unfold Z_of_str, str_of_Z.
  rewrite DecimalString.NilZero.isi.
  - simpl. rewrite DecimalZ.of_to. reflexivity.
  - destruct z; simpl; try discriminate.
    intros [= H]. exact (DecimalPos.Unsigned.to_uint_nonnil _ H).
  - destruct z; simpl; try discriminate.
    intros [= H]. exact (DecimalPos.Unsigned.to_uint_nonnil _ H).
Qed.

Lemma digits_all_number (d : Decimal.uint) :
  all_chars is_number_char (DecimalString.NilEmpty.string_of_uint d) = true.
Proof. induction d; simpl; auto. Qed.

Lemma str_of_Z_chars (z : Z) : all_chars is_number_char (str_of_Z z) = true.
Proof.
  unfold str_of_Z.
  destruct (Z.to_int z) as [d | d]; simpl;
    destruct d; simpl; auto using digits_all_number.
Qed.

Lemma str_of_Z_head (z : Z) :
  exists c s, str_of_Z z = String c s /\ is_number_char c = true.
Proof.
  pose proof (str_of_Z_chars z) as H.
  pose proof (Z_of_str_of_Z z) as Hz.
  destruct (str_of_Z z) as [|c s]; [discriminate Hz |].
  simpl in H. apply andb_true_iff in H as [Hc _]. eauto.
Qed.

Lemma parse_number_app (z : Z) (rest : string) :
  stops is_number_char rest ->
  parse_number (str_of_Z z ++ rest) = Some (PInt z, rest).
Proof.
  intros Hrest. unfold parse_number.
  rewrite (span_app _ _ _ (str_of_Z_chars z) Hrest), Z_of_str_of_Z.
  reflexivity.
Qed.

(** ** Values *)

Lemma pyval_nested_ind (P : pyval -> Prop) :
  (forall z, P (PInt z)) -> P PInf ->
  (forall items, Forall (fun kv => P (snd kv)) items -> P (PDict items)) ->
  forall v, P v.
Proof.
  intros Hint Hinf Hdict. fix IH 1. intros [z | | items].
  - apply Hint.
  - apply Hinf.
  - apply Hdict. induction items as [|[k x] items IHitems]; constructor.
    + apply IH.
    + exact IHitems.
Qed.

Lemma parse_value_space (fuel : nat) (s : string) :
  parse_value fuel (String " " s) = parse_value fuel s.
Proof. destruct fuel; reflexivity. Qed.

Lemma parse_members_space (fuel : nat) (s : string) :
  parse_members fuel (String " " s) = parse_members fuel s.
Proof. destruct fuel; reflexivity. Qed.

Lemma plain_not_quote (k : string) :
  all_chars plain_char k = true ->
  all_chars (fun c => negb (Ascii.eqb c quote)) k = true.
Proof.
  induction k as [|c k IH]; simpl; [reflexivity |].
  intros H. apply andb_true_iff in H as [Hc Hk]. rewrite (IH Hk).
  unfold plain_char in Hc.
  destruct (Ascii.eqb c quote); [discriminate Hc | reflexivity].
Qed.

Lemma parse_key_app (k rest : string) :
  all_chars plain_char k = true ->
  parse_key (k ++ String quote rest) = Some (k, rest).
Proof.
  intros Hk. unfold parse_key.
  rewrite (span_app _ k (String quote rest) (plain_not_quote k Hk));
    reflexivity.
Qed.

Lemma store_key_fresh (items : list (string * pyval)) (k : string) (v : pyval) :
  existsb (String.eqb k) (List.map fst items) = false ->
  store_key items k v = (items ++ [(k, v)])%list.
Proof.
  induction items as [|[k' v'] items IH]; simpl; [reflexivity |].
  intros H. apply orb_false_iff in H as [Hk H].
  rewrite String.eqb_sym, Hk, (IH H). reflexivity.
Qed.

Lemma dict_of_pairs_distinct (pairs acc : list (string * pyval)) :
  distinct (List.map fst (acc ++ pairs)%list) = true ->
  fold_left (fun items kv => store_key items (fst kv) (snd kv)) pairs acc
  = (acc ++ pairs)%list.
Proof.
  revert acc; induction pairs as [|[k v] pairs IH]; intros acc H; simpl.
  - rewrite app_nil_r. reflexivity.
  - assert (existsb (String.eqb k) (List.map fst acc) = false) as Hfresh.
    { clear IH. induction acc as [|[k' v'] acc IHacc]; simpl in *; [reflexivity |].
      apply andb_true_iff in H as [Hk' H].
      rewrite (IHacc H), orb_false_r.
      apply negb_true_iff in Hk'. rewrite List.map_app, existsb_app in Hk'.
      apply orb_false_iff in Hk' as [_ Hk']. simpl in Hk'.
      apply orb_false_iff in Hk' as [Hk' _]. rewrite String.eqb_sym. exact Hk'. }
    rewrite (store_key_fresh acc k v Hfresh).
    rewrite IH; rewrite <- app_assoc; [reflexivity | exact H].
Qed.

Lemma dict_of_pairs_id (items : list (string * pyval)) :
  distinct (List.map fst items) = true -> dict_of_pairs items = items.
Proof. intros H. apply (dict_of_pairs_distinct items [] H). Qed.

Lemma dumps_key_app (k s : string) :
  (dumps_key k ++ s)%string
  = String quote (k ++ String quote (String ":" (String " " s))).
Proof.
  unfold dumps_key. simpl. rewrite append_assoc. reflexivity.
Qed.

Lemma parse_members_S (fuel : nat) (k s : string) :
  all_chars plain_char k = true ->
  parse_members (S fuel) (dumps_key k ++ s) =
    match parse_value fuel s with
    | Some (v, rest3) =>
        match skip_ws rest3 with
        | String "," rest4 =>
            match parse_members fuel rest4 with
            | Some (pairs, rest5) => Some ((k, v) :: pairs, rest5)
            | None => None
            end
        | String "}" rest4 => Some ([(k, v)], rest4)
        | _ => None
        end
    | None => None
    end.
Proof.
  intros Hk. rewrite dumps_key_app.
  change (parse_members (S fuel) (String quote ?s))
    with (match parse_key s with
          | Some (k', rest1) =>
              match skip_ws rest1 with
              | String ":" rest2 =>
                  match parse_value fuel rest2 with
                  | Some (v, rest3) =>
                      match skip_ws rest3 with
                      | String "," rest4 =>
                          match parse_members fuel rest4 with
                          | Some (pairs, rest5) => Some ((k', v) :: pairs, rest5)
                          | None => None
                          end
                      | String "}" rest4 => Some ([(k', v)], rest4)
                      | _ => None
                      end
                  | None => None
                  end
              | _ => None
              end
          | None => None
          end).
  rewrite (parse_key_app k _ Hk).
  change (skip_ws (String ":" ?s)) with (String ":" s). cbv iota.
  rewrite parse_value_space. reflexivity.
Qed.

Lemma stops_comma (s : string) : stops is_number_char (String "," s).
Proof. reflexivity. Qed.

Lemma stops_brace (s : string) : stops is_number_char (String "}" s).
Proof. reflexivity. Qed.

(** Reading back the members of a non-empty object. *)
Lemma parse_dumps_items (items : list (string * pyval)) :
  Forall (fun kv =>
            well_formed (snd kv) = true ->
            forall fuel rest, (size (snd kv) < fuel)%nat ->
              stops is_number_char rest ->
              parse_value fuel (dumps (snd kv) ++ rest) = Some (snd kv, rest))
         items ->
  items <> [] ->
  all_items well_formed items = true ->
  forall fuel rest, (size_items size items < fuel)%nat ->
    parse_members fuel (dumps_items dumps items ++ rest) = Some (items, rest).
Proof.
  intros Hall. induction Hall as [|[k x] items Hx Hitems IH];
    intros Hne Hwf fuel rest Hfuel; [congruence |].
  simpl in Hwf, Hfuel, Hx.
  apply andb_true_iff in Hwf as [Hwf Hrest].
  apply andb_true_iff in Hwf as [Hk Hwx].
  destruct fuel as [|fuel]; [lia |].
  cbn [dumps_items]. rewrite !append_assoc.
  rewrite (parse_members_S fuel k _ Hk).
  destruct items as [|kv items].
  - change ("}" ++ rest)%string with (String "}" rest).
    rewrite (Hx Hwx fuel _ ltac:(lia) (stops_brace rest)). reflexivity.
  - cbv iota. rewrite append_assoc.
    change (", " ++ ?s)%string with (String "," (String " " s)).
    rewrite (Hx Hwx fuel _ ltac:(lia) (stops_comma _)).
    change (skip_ws (String "," ?s)) with (String "," s). cbv iota.
    rewrite parse_members_space.
    rewrite (IH ltac:(discriminate) Hrest fuel rest ltac:(lia)). reflexivity.
Qed.

(** Reading back what [dumps] wrote, with text after it. *)
Lemma parse_dumps (v : pyval) :
  well_formed v = true ->
  forall fuel rest, (size v < fuel)%nat -> stops is_number_char rest ->
    parse_value fuel (dumps v ++ rest) = Some (v, rest).
Proof.
  induction v as [z | | items Hitems] using pyval_nested_ind;
    intros Hwf fuel rest Hfuel Hrest;
    (destruct fuel as [|fuel]; [simpl in Hfuel; lia |]).
  - cbn [dumps].
    destruct (str_of_Z_head z) as (c & s & Hs & Hc).
    rewrite <- (parse_number_app z rest Hrest). rewrite Hs.
    change (String c s ++ rest)%string with (String c (s ++ rest)).
    generalize (s ++ rest)%string as tail. intros tail.
    cbn [parse_value skip_ws].
    clear - Hc.
    destruct c as [[] [] [] [] [] [] [] []]; try discriminate Hc; reflexivity.
  - cbn [dumps parse_value]. reflexivity.
  - cbn [well_formed] in Hwf. apply andb_true_iff in Hwf as [Hkeys Hwf].
    cbn [size] in Hfuel.
    destruct items as [|[k x] items]; [reflexivity |].
    assert (parse_members fuel
              (dumps_items dumps ((k, x) :: items) ++ rest)
            = Some ((k, x) :: items, rest)) as Hmem
      by (apply parse_dumps_items; [assumption | discriminate | assumption | lia]).
    cbn [dumps String.append parse_value].
    change (skip_ws (String "{" ?s)) with (String "{" s). cbv iota.
    revert Hmem. cbn [dumps_items]. rewrite dumps_key_app.
    cbn [String.append].
    change (skip_ws (String quote ?s)) with (String quote s). cbv iota.
    intros ->. rewrite (dict_of_pairs_id _ Hkeys). reflexivity.
Qed.

Lemma size_le_length (v : pyval) : (size v <= String.length (dumps v))%nat.
Proof.
  induction v as [z | | items Hitems] using pyval_nested_ind.
  - destruct (str_of_Z_head z) as (c & s & Hs & _).
    cbn [dumps size]. rewrite Hs. simpl. lia.
  - simpl. lia.
  - cbn [dumps size]. simpl String.length. apply le_n_S.
    induction Hitems as [|[k x] items Hx Hitems IH]; [simpl; lia |].
    cbn [size_items dumps_items]. simpl in Hx.
    rewrite dumps_key_app. simpl String.length.
    rewrite !length_append. simpl String.length. rewrite !length_append.
    destruct items as [|kv items]; simpl String.length.
    + simpl. lia.
    + rewrite ?length_append in *. simpl String.length in *. lia.
Qed.

(** [json.loads(json.dumps(v)) == v] *)
Lemma loads_dumps (v : pyval) : well_formed v = true -> loads (dumps v) = Ok v.
Proof.
  intros Hwf. unfold loads.
  pose proof (size_le_length v) as Hsize.
  pose proof (parse_dumps v Hwf (S (String.length (dumps v))) EmptyString
                ltac:(lia) I) as H.
  rewrite append_nil_r in H. rewrite H. reflexivity.
Qed.

(** ** Saving and loading *)

Lemma to_dict_well_formed (r : ScoreRecord) : well_formed (to_dict r) = true.
Proof. destruct r as [w l dr ws [t |] gp ew mw hw]; reflexivity. Qed.

Lemma read_after_write (d : disk) (path : string) (v : pyval) :
  read_only d = false -> well_formed v = true ->
  exists d',
    write_json d path v = Ok d'
    /\ files d' !! path = Some (dumps v)
    /\ exists_file d' path = true
    /\ read_json d' path = Ok v.
Proof.
  intros Hrw Hwf. unfold write_json. rewrite Hrw.
  eexists. split; [reflexivity |].
  unfold exists_file, read_json. cbn [files].
  rewrite lookup_insert_eq. rewrite (loads_dumps v Hwf). auto.
Qed.

(** C8.  When the score file can be written, saving a score record with
    [save_stats] and reloading it with [load_stats] gives back the same
    dictionary, every field equal, in the desktop and in the web front end.
    A [best_time] that holds [float('inf')] is written as the token
    [Infinity], not as a number, and comes back as [float('inf')], the value
    that stands for an unset best time and is displayed as 0. *)
Theorem save_then_load_round_trip (r : ScoreRecord) (file : string)
    (cur : pyval) (d : disk) :
  read_only d = false ->
  let saved := save_stats {| stats_file := file; stats := to_dict r |} d in
  let reloaded := load_stats {| stats_file := file; stats := cur |} saved in
  files saved !! file = Some (dumps (to_dict r))
  /\ stats reloaded = to_dict r
  /\ web_load_stats (web_save_stats (to_dict r) d) = to_dict r
  /\ (best_time r = None ->
      dumps (best_time_value (best_time r)) = "Infinity"
      /\ getkey (stats reloaded) "best_time" = Ok PInf
      /\ shown_best_time (stats reloaded) = Ok 0).
Proof.
  intros Hrw. cbv zeta.
  destruct (read_after_write d file (to_dict r) Hrw (to_dict_well_formed r))
    as (d1 & Hw1 & Hfile1 & Hex1 & Hread1).
  destruct (read_after_write d web_stats_file (to_dict r) Hrw
              (to_dict_well_formed r))
    as (d2 & Hw2 & _ & Hex2 & Hread2).
  assert (stats (load_stats {| stats_file := file; stats := cur |}
                   (save_stats {| stats_file := file; stats := to_dict r |} d))
          = to_dict r) as Hload.
  { unfold save_stats, load_stats. cbn [stats_file stats].
    rewrite Hw1, Hex1, Hread1. reflexivity. }
  split; [| split; [exact Hload | split]].
  - unfold save_stats. cbn [stats_file stats]. rewrite Hw1. exact Hfile1.
  - unfold web_save_stats, web_load_stats. rewrite Hw2, Hex2, Hread2.
    reflexivity.
  - intros Hunset. rewrite Hload, Hunset.
    destruct r as [w l dr ws bt gp ew mw hw]. simpl in Hunset. subst bt.
    split; [reflexivity |]. split; reflexivity.
Qed.

Lemma save_then_load_round_trip_witness :
  stats (load_stats {| stats_file := "tictactoe_stats.json"; stats := PDict [] |}
           (save_stats {| stats_file := "tictactoe_stats.json";
                          stats := default_stats |}
              {| files := ∅; read_only := false |}))
  = default_stats.
Proof.
  destruct (save_then_load_round_trip
              {| wins := 0; losses := 0; draws := 0; win_streak := 0;
                 best_time := None; games_played := 0; easy_wins := 0;
                 medium_wins := 0; hard_wins := 0 |}
              "tictactoe_stats.json" (PDict [])
              {| files := ∅; read_only := false |} eq_refl)
    as (_ & H & _).
  exact H.
Defined.

(** * Further properties of the board *)

Lemma getitem_three_norm {A : Type} (x y z : A) (i : Z) (v : A) :
  getitem [x; y; z] i = Ok v ->
  -3 <= i < 3 /\ getitem [x; y; z] (i mod 3) = Ok v.
Proof.
  intros H.
  destruct (Z_lt_ge_dec i (-3)) as [Hlo | Hlo];
    [rewrite getitem_three_out in H by lia; discriminate |].
  destruct (Z_le_gt_dec 3 i) as [Hhi | Hhi];
    [rewrite getitem_three_out in H by lia; discriminate |].
  split; [lia |].
  assert (i = -3 \/ i = -2 \/ i = -1 \/ i = 0 \/ i = 1 \/ i = 2) as Hi by lia.
  destruct Hi as [-> | [-> | [-> | [-> | [-> | ->]]]]]; exact H.
Qed.

(** [make_move] inside the grid. *)
Lemma make_move_in_grid (self : TicTacToeGame) (r c : Z) (player : cell) :
  is_3x3 (game_board self) -> in_grid (r, c) ->
  make_move self r c player =
    if is_blank (game_board self) (r, c)
    then Ok (true,
             {| game_board := place (game_board self) (r, c) player;
                current_player := current_player self;
                move_count := move_count self + 1;
                start_time := start_time self |})
    else Ok (false, self).
Proof.
  intros Hb Hc. unfold make_move.
  rewrite (getitem2_grid _ r c Hb Hc), bind_Ok.
  unfold is_blank.
  destruct (String.eqb (cell_at (game_board self) (r, c)) blank);
    [| reflexivity].
  rewrite (setitem2_grid _ r c player Hb Hc), bind_Ok. reflexivity.
Qed.

(** A call of [make_move] that returns is a call inside the grid, at the
    coordinates taken modulo 3. *)
Lemma make_move_returns (self : TicTacToeGame) (r c : Z) (player : cell)
    (out : bool * TicTacToeGame) :
  is_3x3 (game_board self) ->
  make_move self r c player = Ok out ->
  in_grid (r mod 3, c mod 3)
  /\ make_move self (r mod 3) (c mod 3) player = Ok out.
Proof.
  intros Hb Hout.
  assert (-3 <= r < 3 /\ -3 <= c < 3) as [Hr Hc].
  { destruct (is_3x3_inv _ Hb)
      as (a0 & a1 & a2 & b0 & b1 & b2 & c0 & c1 & c2 & Hgrid).
    unfold make_move, getitem2 in Hout. rewrite Hgrid in Hout.
    unfold board, row, cell in *.
    destruct (getitem [[a0; a1; a2]; [b0; b1; b2]; [c0; c1; c2]] r)
      as [rw | e] eqn:Hrw; [| discriminate Hout].
    apply getitem_three_norm in Hrw as Hr. destruct Hr as [Hr _].
    split; [exact Hr |].
    rewrite getitem_three in Hrw. rewrite bind_Ok in Hout.
    destruct (getitem rw c) as [x | e] eqn:Hx; [| discriminate Hout].
    destruct ((r =? 0) || (r =? -3));
      [injection Hrw as <-; apply getitem_three_norm in Hx; tauto |].
    destruct ((r =? 1) || (r =? -2));
      [injection Hrw as <-; apply getitem_three_norm in Hx; tauto |].
    destruct ((r =? 2) || (r =? -1));
      [injection Hrw as <-; apply getitem_three_norm in Hx; tauto |].
    discriminate Hrw. }
  split.
  - unfold in_grid; simpl.
    pose proof (Z.mod_pos_bound r 3). pose proof (Z.mod_pos_bound c 3). lia.
  - rewrite <- Hout.
    destruct (is_3x3_inv _ Hb)
      as (a0 & a1 & a2 & b0 & b1 & b2 & c0 & c1 & c2 & Hgrid).
    destruct self as [gb cp mc st]; simpl in Hgrid; subst gb.
    assert (r = -3 \/ r = -2 \/ r = -1 \/ r = 0 \/ r = 1 \/ r = 2) as Hr' by lia.
    assert (c = -3 \/ c = -2 \/ c = -1 \/ c = 0 \/ c = 1 \/ c = 2) as Hc' by lia.
    destruct Hr' as [-> | [-> | [-> | [-> | [-> | ->]]]]];
      destruct Hc' as [-> | [-> | [-> | [-> | [-> | ->]]]]]; reflexivity.
Qed.

(** What a returning call does to the game, in terms of the cell it
    addresses. *)
Lemma make_move_effect (self : TicTacToeGame) (r c : Z) (player : cell)
    (ok : bool) (g' : TicTacToeGame) :
  is_3x3 (game_board self) ->
  make_move self r c player = Ok (ok, g') ->
  let k := (r mod 3, c mod 3) in
  in_grid k
  /\ ok = is_blank (game_board self) k
  /\ (ok = false -> g' = self)
  /\ (ok = true ->
      game_board g' = place (game_board self) k player
      /\ move_count g' = move_count self + 1
      /\ current_player g' = current_player self
      /\ start_time g' = start_time self).
Proof.
  intros Hb Hout. cbv zeta.
  destruct (make_move_returns self r c player _ Hb Hout) as [Hk Hnorm].
  split; [exact Hk |].
  rewrite (make_move_in_grid self _ _ player Hb Hk) in Hnorm.
  destruct (is_blank (game_board self) (r mod 3, c mod 3));
    injection Hnorm as <- <-; repeat split; try reflexivity; discriminate.
Qed.

(** X1.  On a well-formed board, a call of [make_move] that returns keeps the
    board well-formed, changes no cell other than the one it addresses, and
    changes no cell that holds a mark, whatever the coordinates and the
    symbol. *)
Theorem make_move_never_overwrites (self : TicTacToeGame) (r c : Z)
    (player : cell) (ok : bool) (g' : TicTacToeGame) :
  is_3x3 (game_board self) ->
  make_move self r c player = Ok (ok, g') ->
  is_3x3 (game_board g')
  /\ (forall k, in_grid k -> k <> (r mod 3, c mod 3) ->
        cell_at (game_board g') k = cell_at (game_board self) k)
  /\ (forall k, in_grid k -> cell_at (game_board self) k <> blank ->
        cell_at (game_board g') k = cell_at (game_board self) k).
Proof.
  intros Hb Hout.
  destruct (make_move_effect self r c player ok g' Hb Hout)
    as (Hk & Hok & Hfail & Hdone).
  destruct ok.
  - destruct (Hdone eq_refl) as (Hboard & _). rewrite Hboard.
    split; [apply place_3x3; assumption |]. split.
    + intros k Hin Hne. apply cell_at_place_ne; auto.
    + intros k Hin Hmark. apply cell_at_place_ne; auto.
      intros <-. apply Hmark. symmetry in Hok.
      apply String.eqb_eq in Hok. exact Hok.
  - rewrite (Hfail eq_refl). auto.
Qed.

Lemma make_move_never_overwrites_witness :
  let g := {| game_board := [["X"; " "; " "]; [" "; "O"; " "]; [" "; " "; " "]];
              current_player := "X"; move_count := 2; start_time := None |} in
  let g' := {| game_board := [["X"; " "; " "]; [" "; "O"; " "]; [" "; "X"; " "]];
               current_player := "X"; move_count := 3; start_time := None |} in
  is_3x3 (game_board g')
  /\ (forall k, in_grid k -> k <> ((-1) mod 3, 1 mod 3) ->
        cell_at (game_board g') k = cell_at (game_board g) k)
  /\ (forall k, in_grid k -> cell_at (game_board g) k <> blank ->
        cell_at (game_board g') k = cell_at (game_board g) k).
Proof.
  intros g g'.
  apply (make_move_never_overwrites g (-1) 1 "X" true g').
  - apply is_3x3_intro.
  - reflexivity.
Defined.

(** One call of [make_move] with a mark keeps the sum of [move_count] and
    the number of empty cells. *)
Lemma make_move_conserves (self : TicTacToeGame) (r c : Z) (player : cell)
    (ok : bool) (g' : TicTacToeGame) :
  is_3x3 (game_board self) -> player <> blank ->
  make_move self r c player = Ok (ok, g') ->
  is_3x3 (game_board g')
  /\ move_count g' + Z.of_nat (count_blank (game_board g'))
     = move_count self + Z.of_nat (count_blank (game_board self)).
Proof.
  intros Hb Hp Hout.
  destruct (make_move_effect self r c player ok g' Hb Hout)
    as (Hk & Hok & Hfail & Hdone).
  destruct ok.
  - destruct (Hdone eq_refl) as (Hboard & Hcount & _).
    rewrite Hboard, Hcount.
    split; [apply place_3x3; assumption |].
    rewrite (count_blank_place (game_board self) _ player Hb Hk) by auto.
    lia.
  - rewrite (Hfail eq_refl). auto.
Qed.

Lemma play_moves_conserves (moves : list (Z * Z * cell)) :
  forall g0 g : TicTacToeGame,
    is_3x3 (game_board g0) ->
    Forall (fun m => snd m <> blank) moves ->
    play_moves moves g0 = Ok g ->
    is_3x3 (game_board g)
    /\ move_count g + Z.of_nat (count_blank (game_board g))
       = move_count g0 + Z.of_nat (count_blank (game_board g0)).
Proof.
  induction moves as [|[[r c] p] moves IH]; intros g0 g Hb Hmarks Hplay.
  - injection Hplay as <-. auto.
  - inversion Hmarks as [|? ? Hp Hrest]; subst. simpl in Hp, Hplay.
    destruct (make_move g0 r c p) as [[ok g1] | e] eqn:Hmove;
      [| discriminate Hplay].
    rewrite bind_Ok in Hplay.
    destruct (make_move_conserves g0 r c p ok g1 Hb Hp Hmove) as [Hb1 Hsum].
    destruct (IH g1 g Hb1 Hrest Hplay) as [Hbg Hsum'].
    split; [exact Hbg | lia].
Qed.

(** X2.  After [reset], over any sequence of calls of [make_move] with marks
    that all return, whether they succeed or not, [move_count] is the number
    of marked cells: it stays between 0 and 9, and the board is full exactly
    when it reaches 9. *)
Theorem move_count_counts_marks (now : Q) (g0 g : TicTacToeGame)
    (moves : list (Z * Z * cell)) :
  Forall (fun m => snd m <> blank) moves ->
  play_moves moves (reset now g0) = Ok g ->
  is_3x3 (game_board g)
  /\ move_count g = 9 - Z.of_nat (count_blank (game_board g))
  /\ 0 <= move_count g <= 9
  /\ (is_board_full g = true <-> move_count g = 9).
Proof.
  intros Hmarks Hplay.
  destruct (play_moves_conserves moves (reset now g0) g
              (is_3x3_intro _ _ _ _ _ _ _ _ _) Hmarks Hplay) as [Hb Hsum].
  change (move_count (reset now g0)) with 0 in Hsum.
  change (Z.of_nat (count_blank (game_board (reset now g0)))) with 9 in Hsum.
  pose proof (count_blank_le_9 (game_board g)) as Hle.
  split; [exact Hb |]. split; [lia |]. split; [lia |].
  unfold is_board_full. rewrite (all_marked_blank_cells _ Hb).
  unfold count_blank in *.
  destruct (blank_cells (game_board g)) as [|k ks]; simpl in *.
  - split; [intros _; lia | reflexivity].
  - split; [discriminate | lia].
Qed.

Lemma move_count_counts_marks_witness :
  let g := {| game_board := [["X"; " "; " "]; [" "; "O"; " "]; [" "; " "; " "]];
              current_player := "X"; move_count := 2;
              start_time := Some (5 # 1) |} in
  is_3x3 (game_board g)
  /\ move_count g = 9 - Z.of_nat (count_blank (game_board g))
  /\ 0 <= move_count g <= 9
  /\ (is_board_full g = true <-> move_count g = 9).
Proof.
  intros g.
  apply (move_count_counts_marks (5 # 1) new_game g
           [(0, 0, "X"); (1, 1, "O"); (0, 0, "O")]).
  - repeat constructor; discriminate.
  - reflexivity.
Defined.

(** X3.  [make_move] does not look at the symbol: with the blank itself as the
    symbol, a call on an empty cell reports success and counts a move while
    the board stays as it was, so [move_count] no longer counts the marks. *)
Theorem make_move_blank_symbol (self : TicTacToeGame) (r c : Z) :
  is_3x3 (game_board self) -> in_grid (r, c) ->
  cell_at (game_board self) (r, c) = blank ->
  make_move self r c blank
  = Ok (true, set_move_count self (move_count self + 1)).
Proof.
  intros Hb Hk Hblank.
  rewrite (make_move_in_grid self r c blank Hb Hk).
  unfold is_blank. rewrite Hblank. simpl.
  rewrite <- Hblank at 1. rewrite (place_same _ _ Hb Hk). reflexivity.
Qed.

Lemma make_move_blank_symbol_witness :
  make_move new_game 1 1 blank = Ok (true, set_move_count new_game 1).
Proof.
  apply (make_move_blank_symbol new_game 1 1).
  - apply is_3x3_intro.
  - unfold in_grid; simpl; lia.
  - reflexivity.
Defined.

(** X4.  On a board without a completed line, after a call of [make_move] that
    returns, [check_winner] reports nobody or the symbol just played: a move
    never makes the other side win. *)
Theorem only_the_mover_wins (self : TicTacToeGame) (r c : Z) (player : cell)
    (ok : bool) (g' : TicTacToeGame) :
  is_3x3 (game_board self) ->
  check_winner self = Ok None ->
  make_move self r c player = Ok (ok, g') ->
  check_winner g' = Ok None \/ check_winner g' = Ok (Some player).
Proof.
  intros Hb Hnone Hout.
  destruct (make_move_effect self r c player ok g' Hb Hout)
    as (Hk & Hok & Hfail & Hdone).
  destruct ok.
  - destruct (Hdone eq_refl) as (Hboard & _).
    unfold check_winner in *. rewrite Hboard.
    rewrite check_winner_board_grid in * by (try apply place_3x3; assumption).
    injection Hnone as Hnone.
    destruct (winner_of (place (game_board self) (r mod 3, c mod 3) player))
      as [w |] eqn:Hw; [| left; reflexivity].
    right. apply winner_after_place in Hw; try assumption. subst w.
    reflexivity.
  - rewrite (Hfail eq_refl). left. exact Hnone.
Qed.

Lemma only_the_mover_wins_witness :
  let g := {| game_board := [["X"; "X"; " "]; ["O"; "O"; " "]; [" "; " "; " "]];
              current_player := "X"; move_count := 4; start_time := None |} in
  let g' := {| game_board := [["X"; "X"; "X"]; ["O"; "O"; " "]; [" "; " "; " "]];
               current_player := "X"; move_count := 5; start_time := None |} in
  check_winner g' = Ok None \/ check_winner g' = Ok (Some "X").
Proof.
  intros g g'.
  apply (only_the_mover_wins g 0 2 "X" true g').
  - apply is_3x3_intro.
  - reflexivity.
  - reflexivity.
Defined.

Lemma filter_strongly_sorted {A : Type} (R : A -> A -> Prop) (f : A -> bool)
    (l : list A) :
  StronglySorted R l -> StronglySorted R (List.filter f l).
Proof.
  induction 1 as [|x l Hl IH Hx]; simpl; [constructor |].
  destruct (f x); [| exact IH].
  constructor; [exact IH |].
  apply List.Forall_forall. intros y Hy. apply filter_In in Hy as [Hy _].
  rewrite List.Forall_forall in Hx. auto.
Qed.

Lemma cells9_sorted :
  StronglySorted (fun a b => cell_index a < cell_index b) cells9.
Proof. unfold cells9, cell_index. repeat constructor; simpl; lia. Qed.

(** X5.  On a well-formed board [get_empty_cells] returns the coordinates of the
    empty cells and nothing else, each once, in the order of the rows and,
    within a row, of the columns. *)
Theorem get_empty_cells_lists_empty_cells (self : TicTacToeGame) :
  is_3x3 (game_board self) ->
  exists cells,
    get_empty_cells self = Ok cells
    /\ (forall k, In k cells <->
          in_grid k /\ cell_at (game_board self) k = blank)
    /\ List.NoDup cells
    /\ StronglySorted (fun a b => cell_index a < cell_index b) cells.
Proof.
  intros Hb. exists (blank_cells (game_board self)).
  split; [apply collect_empty_grid; assumption |].
  split; [intros k; apply blank_cells_spec |].
  assert (StronglySorted (fun a b => cell_index a < cell_index b)
            (blank_cells (game_board self))) as Hsorted
    by (apply filter_strongly_sorted, cells9_sorted).
  split; [| exact Hsorted].
  induction Hsorted as [|x l Hl IH Hx]; constructor; [| exact IH].
  intros Hin. rewrite List.Forall_forall in Hx. specialize (Hx x Hin). lia.
Qed.

Lemma get_empty_cells_lists_empty_cells_witness :
  exists cells,
    get_empty_cells
      {| game_board := [["X"; " "; "O"]; ["O"; "X"; "X"]; [" "; "O"; " "]];
         current_player := "X"; move_count := 6; start_time := None |}
    = Ok cells
    /\ List.NoDup cells.
Proof.
  destruct (get_empty_cells_lists_empty_cells
              {| game_board := [["X"; " "; "O"]; ["O"; "X"; "X"]; [" "; "O"; " "]];
                 current_player := "X"; move_count := 6; start_time := None |}
              (is_3x3_intro "X" " " "O" "O" "X" "X" " " "O" " "))
    as (cells & Hcells & _ & Hnodup & _).
  exists cells. split; assumption.
Defined.

(** X6.  A successful move with a mark takes the cell it addresses, and only
    that cell, off the list [get_empty_cells] returns. *)
Theorem make_move_takes_cell (self : TicTacToeGame) (r c : Z) (player : cell)
    (g' : TicTacToeGame) (cells : list (Z * Z)) :
  is_3x3 (game_board self) -> player <> blank ->
  get_empty_cells self = Ok cells ->
  make_move self r c player = Ok (true, g') ->
  In (r mod 3, c mod 3) cells
  /\ exists cells',
       get_empty_cells g' = Ok cells'
       /\ (forall k, In k cells' <-> In k cells /\ k <> (r mod 3, c mod 3))
       /\ length cells = S (length cells').
Proof.
  intros Hb Hp Hcells Hout.
  destruct (make_move_effect self r c player true g' Hb Hout)
    as (Hk & Hok & _ & Hdone).
  destruct (Hdone eq_refl) as (Hboard & _).
  unfold get_empty_cells in *. rewrite (collect_empty_grid _ Hb) in Hcells.
  injection Hcells as <-.
  split.
  - apply blank_cells_spec. split; [exact Hk |].
    symmetry in Hok. apply String.eqb_eq in Hok. exact Hok.
  - exists (blank_cells (game_board g')). rewrite Hboard.
    split; [apply collect_empty_grid, place_3x3; assumption |].
    split; [intros k; apply place_blank_cells; assumption |].
    apply (count_blank_place _ _ player Hb Hk); auto.
Qed.

Lemma make_move_takes_cell_witness :
  In (1 mod 3, 1 mod 3) cells9
  /\ exists cells',
       get_empty_cells
         {| game_board := [[" "; " "; " "]; [" "; "X"; " "]; [" "; " "; " "]];
            current_player := "X"; move_count := 1; start_time := None |}
       = Ok cells'
       /\ (forall k, In k cells' <-> In k cells9 /\ k <> (1 mod 3, 1 mod 3))
       /\ length cells9 = S (length cells').
Proof.
  apply (make_move_takes_cell new_game 1 1 "X").
  - apply is_3x3_intro.
  - discriminate.
  - reflexivity.
  - reflexivity.
Defined.

(** * The winning line *)

Lemma first_line_winner (b : board) ls :
  first_completed b ls
  = option_map (fun l => cell_at b (line_head l)) (first_line b ls).
Proof.
  induction ls as [|l ls IH]; simpl; [reflexivity |].
  destruct (completesb b l); [reflexivity | exact IH].
Qed.

Lemma first_line_Some (b : board) ls l :
  first_line b ls = Some l -> In l ls /\ completesb b l = true.
Proof.
  induction ls as [|l0 ls IH]; simpl; [discriminate |].
  destruct (completesb b l0) eqn:E.
  - intros [= <-]. auto.
  - intros H. destruct (IH H). auto.
Qed.

Lemma get_winning_cells_grid (game : TicTacToeGame) :
  is_3x3 (game_board game) ->
  get_winning_cells game
  = Ok (option_map line_cells (first_line (game_board game) lines)).
Proof.
  intros Hb. unfold get_winning_cells. cbv zeta.
  grid_cases (game_board game) Hb.
  unfold lines, winning_rows, winning_cols, winning_diag, range3, first_line,
    completesb, line_cells.
  eval_cells. rewrite !three_equal_Ok. cbn [fst snd].
  repeat match goal with
  | |- context [line_test ?x ?y ?z] =>
      destruct (line_test x y z); simpl; try reflexivity
  end.
Qed.

(** X7.  On a well-formed board [get_winning_cells] returns [None] exactly when
    [check_winner] does; otherwise it returns the three cells of one of the
    eight lines, each of them holding the symbol [check_winner] returns. *)
Theorem get_winning_cells_agrees (game : TicTacToeGame) :
  is_3x3 (game_board game) ->
  exists w cells,
    check_winner game = Ok w
    /\ get_winning_cells game = Ok cells
    /\ (w = None <-> cells = None)
    /\ forall s cs, w = Some s -> cells = Some cs ->
         s <> blank
         /\ (exists l, In l lines /\ cs = line_cells l)
         /\ forall k, In k cs -> in_grid k /\ cell_at (game_board game) k = s.
Proof.
  intros Hb.
  exists (winner_of (game_board game)),
    (option_map line_cells (first_line (game_board game) lines)).
  split; [apply check_winner_board_grid; assumption |].
  split; [apply get_winning_cells_grid; assumption |].
  unfold winner_of. rewrite first_line_winner.
  destruct (first_line (game_board game) lines) as [l |] eqn:Hl; simpl.
  - split; [split; discriminate |].
    intros s cs [= <-] [= <-].
    apply first_line_Some in Hl as [Hin Hc].
    apply completesb_true in Hc.
    destruct (lines_in_grid l Hin) as (H1 & H2 & H3).
    destruct l as [[c1 c2] c3]. simpl in *.
    destruct Hc as (E1 & E2 & E3 & Hs).
    split; [exact Hs |].
    split; [exists (c1, c2, c3); auto |].
    intros k [<- | [<- | [<- | []]]]; auto.
  - split; [tauto |]. intros s cs [=].
Qed.

Lemma get_winning_cells_agrees_witness :
  exists w cells,
    check_winner
      {| game_board := [["X"; "O"; " "]; ["O"; "X"; " "]; [" "; " "; "X"]];
         current_player := "X"; move_count := 5; start_time := None |} = Ok w
    /\ get_winning_cells
         {| game_board := [["X"; "O"; " "]; ["O"; "X"; " "]; [" "; " "; "X"]];
            current_player := "X"; move_count := 5; start_time := None |}
       = Ok cells
    /\ (w = None <-> cells = None).
Proof.
  destruct (get_winning_cells_agrees
              {| game_board := [["X"; "O"; " "]; ["O"; "X"; " "]; [" "; " "; "X"]];
                 current_player := "X"; move_count := 5; start_time := None |}
              (is_3x3_intro "X" "O" " " "O" "X" " " " " " " "X"))
    as (w & cells & Hw & Hcells & Hnone & _).
  exists w, cells. auto.
Defined.

Lemma is_grid_inv {A : Type} (g : list (list A)) :
  is_grid g ->
  exists a0 a1 a2 b0 b1 b2 c0 c1 c2 : A,
    g = [[a0; a1; a2]; [b0; b1; b2]; [c0; c1; c2]].
Proof.
  intros [Hlen Hrows].
  destruct g as [|r0 [|r1 [|r2 [|? ?]]]]; try discriminate.
  inversion Hrows as [|? ? H0 Hrows1]; subst.
  inversion Hrows1 as [|? ? H1 Hrows2]; subst.
  inversion Hrows2 as [|? ? H2 _]; subst.
  destruct r0 as [|a0 [|a1 [|a2 [|? ?]]]]; try discriminate.
  destruct r1 as [|b0 [|b1 [|b2 [|? ?]]]]; try discriminate.
  destruct r2 as [|c0 [|c1 [|c2 [|? ?]]]]; try discriminate.
  do 9 eexists; reflexivity.
Qed.

Lemma is_grid_intro {A : Type} (a0 a1 a2 b0 b1 b2 c0 c1 c2 : A) :
  is_grid [[a0; a1; a2]; [b0; b1; b2]; [c0; c1; c2]].
Proof. split; [reflexivity | repeat constructor]. Qed.

Lemma highlight_winner_grid (b : board) (theme : string)
    (buttons : list (list Button)) (winner : cell) :
  is_3x3 b -> is_grid buttons ->
  highlight_winner b theme buttons winner
  = (color ← (if String.eqb winner "X" then get_theme_color theme "win"
              else get_theme_color theme "lose");
     Ok (paint color
           (default [] (option_map line_cells (first_line b lines))) buttons)).
Proof.
  intros Hb Hg. grid_cases b Hb.
  destruct (is_grid_inv buttons Hg)
    as (x0 & x1 & x2 & y0 & y1 & y2 & z0 & z1 & z2 & ->).
  unfold highlight_winner.
  destruct (if String.eqb winner "X" then get_theme_color theme "win"
            else get_theme_color theme "lose") as [color | e];
    [| reflexivity].
  rewrite !bind_Ok.
  unfold lines, highlight_rows, highlight_cols, range3, first_line,
    completesb, line_cells.
  eval_cells. rewrite !three_equal_Ok. cbn [fst snd].
  repeat match goal with
  | |- context [line_test ?x ?y ?z] =>
      destruct (line_test x y z); simpl; try reflexivity
  end.
Qed.

Lemma get_theme_color_known (theme key : string) :
  theme = "dark" \/ theme = "light" -> key = "win" \/ key = "lose" ->
  exists color, get_theme_color theme key = Ok color.
Proof.
  intros [-> | ->] [-> | ->]; eexists; reflexivity.
Qed.

Lemma paint_line (color : string) (l : (Z * Z) * (Z * Z) * (Z * Z))
    (buttons : list (list Button)) (k : Z * Z) (x : Button) :
  is_grid buttons -> In l lines -> in_grid k ->
  button_at buttons k = Some x ->
  is_grid (paint color (line_cells l) buttons)
  /\ (In k (line_cells l) ->
      button_at (paint color (line_cells l) buttons) k = Some (with_bg x color))
  /\ (~ In k (line_cells l) ->
      button_at (paint color (line_cells l) buttons) k = Some x).
Proof.
  intros Hg Hl Hk Hx.
  destruct (is_grid_inv buttons Hg)
    as (x0 & x1 & x2 & y0 & y1 & y2 & z0 & z1 & z2 & ->).
  unfold lines in Hl. simpl in Hl.
  repeat (destruct Hl as [<- | Hl]); try contradiction;
    (split; [apply is_grid_intro |]);
    cell_cases Hk; injection Hx as <-; simpl;
    (split; intros Hin; try reflexivity; exfalso; simpl in Hin;
     intuition congruence).
Qed.

(** X8.  With the dark or the light theme, on a well-formed board and grid of
    buttons, [highlight_winner] returns.  It sets the background of the
    three cells that [get_winning_cells] returns, to the win colour of the
    theme when [winner] is ['X'] and to its lose colour otherwise, leaves
    every other button and every other option as it was, and changes
    nothing when no line is completed. *)
Theorem highlight_winner_paints_winning_cells (game : TicTacToeGame)
    (theme : string) (buttons : list (list Button)) (winner : cell) :
  is_3x3 (game_board game) -> is_grid buttons ->
  theme = "dark" \/ theme = "light" ->
  exists color cells buttons',
    get_theme_color theme (if String.eqb winner "X" then "win" else "lose")
    = Ok color
    /\ get_winning_cells game = Ok cells
    /\ highlight_winner (game_board game) theme buttons winner = Ok buttons'
    /\ is_grid buttons'
    /\ (cells = None -> buttons' = buttons)
    /\ forall cs k x,
         cells = Some cs -> in_grid k -> button_at buttons k = Some x ->
         (In k cs -> button_at buttons' k = Some (with_bg x color))
         /\ (~ In k cs -> button_at buttons' k = Some x).
Proof.
  intros Hb Hg Htheme.
  destruct (get_theme_color_known theme
              (if String.eqb winner "X" then "win" else "lose") Htheme)
    as [color Hcolor]; [destruct (String.eqb winner "X"); auto |].
  exists color,
    (option_map line_cells (first_line (game_board game) lines)),
    (paint color
       (default [] (option_map line_cells (first_line (game_board game) lines)))
       buttons).
  split; [exact Hcolor |].
  split; [apply get_winning_cells_grid; assumption |].
  split.
  { rewrite (highlight_winner_grid _ theme buttons winner Hb Hg).
    destruct (String.eqb winner "X"); rewrite Hcolor; reflexivity. }
  destruct (first_line (game_board game) lines) as [l |] eqn:Hl; simpl.
  - apply first_line_Some in Hl as [Hin _].
    split.
    { destruct (is_grid_inv buttons Hg)
        as (x0 & x1 & x2 & y0 & y1 & y2 & z0 & z1 & z2 & ->).
      apply (paint_line color l _ (0, 0) x0); auto.
      unfold in_grid; simpl; lia. }
    split; [discriminate |].
    intros cs k x [= <-] Hk Hx.
    apply (paint_line color l buttons k x); assumption.
  - split; [exact Hg |]. split; [reflexivity |]. intros cs k x [=].
Qed.

Lemma highlight_winner_paints_winning_cells_witness :
  let game :=
    {| game_board := [["O"; "X"; " "]; ["O"; "X"; " "]; ["O"; " "; "X"]];
       current_player := "X"; move_count := 6; start_time := None |} in
  let free := {| text := " "; state := "normal";
                 disabledforeground := None; bg := "#16213e" |} in
  exists color cells buttons',
    get_theme_color "dark" (if String.eqb "O" "X" then "win" else "lose")
    = Ok color
    /\ get_winning_cells game = Ok cells
    /\ highlight_winner (game_board game) "dark"
         [[free; free; free]; [free; free; free]; [free; free; free]] "O"
       = Ok buttons'
    /\ is_grid buttons'.
Proof.
  intros game free.
  destruct (highlight_winner_paints_winning_cells game "dark"
              [[free; free; free]; [free; free; free]; [free; free; free]] "O")
    as (color & cells & buttons' & H1 & H2 & H3 & H4 & _).
  - apply is_3x3_intro.
  - apply is_grid_intro.
  - left; reflexivity.
  - exists color, cells, buttons'. auto.
Defined.

(** X9.  In the web front end a cell is drawn on the highlight background
    exactly when somebody has won and the cell is one of the three cells
    [get_winning_cells] returns; the background is the same whoever has
    won. *)
Theorem web_highlights_winning_cells (game : TicTacToeGame) :
  is_3x3 (game_board game) ->
  exists w cells,
    check_winner game = Ok w
    /\ winner_cells w game = Ok cells
    /\ forall i j, in_grid (i, j) ->
         (get_cell_style (cell_at (game_board game) (i, j)) cells i j).1.1
         = "#2ecc71"
         <-> winner_truthy w = true
             /\ exists cs, get_winning_cells game = Ok (Some cs) /\ In (i, j) cs.
Proof.
  intros Hb.
  exists (winner_of (game_board game)),
    (if winner_truthy (winner_of (game_board game))
     then option_map line_cells (first_line (game_board game) lines)
     else None).
  split; [apply check_winner_board_grid; assumption |].
  unfold winner_cells. rewrite (get_winning_cells_grid game Hb).
  split; [destruct (winner_truthy _); reflexivity |].
  intros i j Hgrid. unfold get_cell_style. cbn [fst].
  destruct (winner_truthy (winner_of (game_board game)));
    [| split; [discriminate | intros [H _]; discriminate H]].
  destruct (first_line (game_board game) lines) as [l |]; cbn [option_map];
    [| split; [discriminate | intros (_ & cs & H & _); discriminate H]].
  cbn [line_cells truthy andb].
  destruct (existsb _ _) eqn:E.
  - split; [intros _ | reflexivity]. split; [reflexivity |].
    exists (line_cells l). split; [reflexivity |].
    apply existsb_exists in E as (k & Hk & Heq).
    apply andb_true_iff in Heq as [Hi Hj]. apply Z.eqb_eq in Hi, Hj.
    destruct k as [ki kj]. cbn [fst snd] in Hi, Hj. subst. exact Hk.
  - split; [discriminate |]. intros (_ & cs & [= <-] & Hin).
    exfalso. apply not_true_iff_false in E. apply E.
    apply existsb_exists. exists (i, j). split; [exact Hin |].
    cbn [fst snd]. rewrite !Z.eqb_refl. reflexivity.
Qed.

Lemma web_highlights_winning_cells_witness :
  exists w cells,
    check_winner
      {| game_board := [["O"; "X"; " "]; ["O"; "X"; " "]; ["O"; " "; "X"]];
         current_player := "X"; move_count := 6; start_time := None |} = Ok w
    /\ winner_cells w
         {| game_board := [["O"; "X"; " "]; ["O"; "X"; " "]; ["O"; " "; "X"]];
            current_player := "X"; move_count := 6; start_time := None |}
       = Ok cells.
Proof.
  destruct (web_highlights_winning_cells
              {| game_board := [["O"; "X"; " "]; ["O"; "X"; " "]; ["O"; " "; "X"]];
                 current_player := "X"; move_count := 6; start_time := None |}
              (is_3x3_intro "O" "X" " " "O" "X" " " "O" " " "X"))
    as (w & cells & Hw & Hcells & _).
  exists w, cells. auto.
Defined.

(** * Further properties of the search *)

Lemma some_cell_exists (f : Z * Z -> bool) (l : list (Z * Z)) :
  some_cell f l = true <-> exists c, In c l /\ f c = true.
Proof.
  induction l as [|x l IH]; simpl.
  - split; [discriminate | intros (c & [] & _)].
  - destruct (f x) eqn:E.
    + split; [intros _; exists x; auto | reflexivity].
    + rewrite IH. split.
      * intros (c & Hc & Hf). exists c. auto.
      * intros (c & [<- | Hc] & Hf); [congruence | exists c; auto].
Qed.

Lemma some_cell_ext_in (f f' : Z * Z -> bool) (l : list (Z * Z)) :
  (forall c, In c l -> f c = f' c) -> some_cell f l = some_cell f' l.
Proof.
  induction l as [|x l IH]; intros H; simpl; [reflexivity |].
  rewrite (H x) by (left; reflexivity).
  rewrite IH by (intros c Hc; apply H; right; exact Hc). reflexivity.
Qed.

Lemma every_cell_ext_in (f f' : Z * Z -> bool) (l : list (Z * Z)) :
  (forall c, In c l -> f c = f' c) -> every_cell f l = every_cell f' l.
Proof.
  induction l as [|x l IH]; intros H; simpl; [reflexivity |].
  rewrite (H x) by (left; reflexivity).
  rewrite IH by (intros c Hc; apply H; right; exact Hc). reflexivity.
Qed.

Lemma every_cell_forall (f : Z * Z -> bool) (l : list (Z * Z)) :
  every_cell f l = true <-> forall c, In c l -> f c = true.
Proof.
  induction l as [|x l IH]; simpl.
  - split; [intros _ c [] | reflexivity].
  - destruct (f x) eqn:E.
    + rewrite IH. split.
      * intros H c [<- | Hc]; auto.
      * intros H c Hc. apply H. auto.
    + split; [discriminate |]. intros H. rewrite <- E. apply H. auto.
Qed.

Lemma nonlosing_S (self : MinimaxAI) (n : nat) (b : board) (m : bool) :
  nonlosing self (S n) b m =
    if eval_of self b =? 10 then true
    else if eval_of self b =? -10 then false
    else if all_marked b then true
    else if m then
      some_cell (fun c => nonlosing self n (place b c (ai_player self)) false)
        (blank_cells b)
    else
      every_cell (fun c => nonlosing self n (place b c (human_player self)) true)
        (blank_cells b).
Proof. reflexivity. Qed.

Section Depth.
Variable self : MinimaxAI.
Hypothesis Hplayers : players_ok self.

(** The empty cells of a position, each taken by the side to move, give
    positions with one empty cell less. *)
Lemma child_position (b : board) (c : Z * Z) (m : bool) :
  is_3x3 b -> In c (blank_cells b) ->
  in_grid c /\ is_3x3 (place b c (mover self m))
  /\ count_blank b = S (count_blank (place b c (mover self m))).
Proof.
  intros Hb Hc. apply blank_cells_spec in Hc as [Hc Hblank].
  apply String.eqb_eq in Hblank.
  split; [exact Hc |]. split; [apply place_3x3; assumption |].
  apply count_blank_place; auto using mover_not_blank.
Qed.

(** The search nests one call per empty cell at most: with more nested
    calls allowed than there are empty cells, the result does not depend on
    how many are allowed. *)
Lemma minimax_limit (limit : nat) :
  forall (limit' : nat) (b : board) (depth : Z) (m : bool),
    is_3x3 b -> (count_blank b < limit)%nat -> (count_blank b < limit')%nat ->
    minimax self limit b depth m = minimax self limit' b depth m.
Proof.
  induction limit as [|limit IH]; intros limit' b depth m Hb Hlt Hlt'; [lia |].
  rewrite (minimax_restores self Hplayers (S limit) b depth m Hb Hlt).
  rewrite (minimax_restores self Hplayers limit' b depth m Hb Hlt').
  f_equal. f_equal.
  rewrite (minimax_step_pred self Hplayers (S limit) b depth m Hb Hlt).
  rewrite (minimax_step_pred self Hplayers limit' b depth m Hb Hlt').
  destruct (eval_of self b =? 10); [reflexivity |].
  destruct (eval_of self b =? -10); [reflexivity |].
  destruct (all_marked b); [reflexivity |].
  f_equal. apply map_ext_in. intros c Hc.
  destruct (child_position b c m Hb Hc) as (_ & Hb' & Hcount).
  simpl Nat.pred. rewrite (IH (Nat.pred limit')); auto; lia.
Qed.

Lemma top_val_limit (limit limit' : nat) (b : board) (c : Z * Z) :
  is_3x3 b -> (count_blank b <= limit)%nat -> (count_blank b <= limit')%nat ->
  In c (blank_cells b) ->
  top_val self limit b c = top_val self limit' b c.
Proof.
  intros Hb Hle Hle' Hc. unfold top_val.
  destruct (child_position b c true Hb Hc) as (_ & Hb' & Hcount).
  simpl in Hb', Hcount.
  rewrite (minimax_limit limit limit'); auto; lia.
Qed.

Lemma best_set_limit (limit limit' : nat) (b : board) :
  is_3x3 b -> (count_blank b <= limit)%nat -> (count_blank b <= limit')%nat ->
  best_set self limit b = best_set self limit' b.
Proof.
  intros Hb Hle Hle'.
  assert (List.map (top_val self limit b) (blank_cells b)
          = List.map (top_val self limit' b) (blank_cells b)) as Hmap
    by (apply map_ext_in; intros c Hc; apply top_val_limit; assumption).
  unfold best_set, best_val_of. rewrite Hmap.
  apply filter_ext_in. intros c Hc.
  rewrite (top_val_limit limit limit' b c); auto.
Qed.

Lemma find_best_move_limit (limit limit' : nat) (g : rng) (b : board) :
  is_3x3 b -> (count_blank b <= limit)%nat -> (count_blank b <= limit')%nat ->
  find_best_move self limit g b = find_best_move self limit' g b.
Proof.
  intros Hb Hle Hle'.
  destruct (difficulty self) eqn:Hd.
  - rewrite !(find_best_move_easy self) by assumption. reflexivity.
  - rewrite !(find_best_move_medium self Hplayers) by assumption.
    rewrite (best_set_limit limit limit') by assumption. reflexivity.
  - rewrite !(find_best_move_hard self Hplayers) by assumption.
    rewrite (best_set_limit limit limit') by assumption. reflexivity.
Qed.

(** The sign of the value: a position is worth 0 or more exactly when the
    computer can avoid defeat from it. *)
Lemma nonlosing_value (limit : nat) :
  forall (b : board) (depth : Z) (m : bool),
    is_3x3 b -> (count_blank b < limit)%nat ->
    0 <= depth -> depth + Z.of_nat (count_blank b) <= 9 ->
    nonlosing self limit b m = true
    <-> score_le (Fin 0) (value_of (minimax self limit b depth m)).
Proof.
  induction limit as [|limit IH]; intros b depth m Hb Hlt Hd Hsum; [lia |].
  rewrite (minimax_step self Hplayers limit b depth m Hb) by lia.
  cbn [nonlosing].
  destruct (eval_of_cases self b) as [E | [E | E]]; rewrite E; simpl.
  - rewrite score_le_Fin. split; [lia | reflexivity].
  - rewrite score_le_Fin. split; [discriminate | lia].
  - destruct (all_marked b) eqn:Hfull.
    { rewrite score_le_Fin. split; [lia | reflexivity]. }
    assert (blank_cells b <> []) as Hne.
    { intros E'. apply all_marked_blank_cells in E'; [congruence | assumption]. }
    assert (forall c, In c (blank_cells b) ->
              nonlosing self limit (place b c (mover self m)) (negb m) = true
              <-> score_le (Fin 0)
                    (value_of (minimax self limit (place b c (mover self m))
                                 (depth + 1) (negb m)))) as Hch.
    { intros c Hc.
      destruct (child_position b c m Hb Hc) as (_ & Hb' & Hcount).
      apply IH; [assumption | lia | lia | lia]. }
    set (val := fun c => value_of (minimax self limit (place b c (mover self m))
                                     (depth + 1) (negb m))) in *.
    assert (List.map val (blank_cells b) <> []) as Hne'
      by (intros E'; apply map_eq_nil in E'; contradiction).
    destruct m; simpl in *.
    + destruct (fold_max_is_maximum _ Hne') as [Hin Hmax].
      rewrite some_cell_exists. split.
      * intros (c & Hc & Hok). apply (Hch c Hc) in Hok.
        eapply score_le_trans; [exact Hok |].
        apply Hmax. apply (in_map val). assumption.
      * intros Hle. apply in_map_iff in Hin as (c & Hval & Hc).
        exists c. split; [assumption |]. apply (Hch c Hc).
        fold (val c). rewrite Hval. exact Hle.
    + destruct (fold_min_is_minimum _ Hne') as [Hin Hmin].
      rewrite every_cell_forall. split.
      * intros Hall. apply in_map_iff in Hin as (c & Hval & Hc).
        rewrite <- Hval. apply (Hch c Hc), Hall, Hc.
      * intros Hle c Hc. apply (Hch c Hc).
        eapply score_le_trans; [exact Hle |].
        apply Hmin. apply (in_map val). assumption.
Qed.

(** Looking further ahead than there are empty cells changes nothing. *)
Lemma nonlosing_limit (n n' : nat) (b : board) (m : bool) :
  is_3x3 b -> (count_blank b < n)%nat -> (count_blank b < n')%nat ->
  nonlosing self n b m = nonlosing self n' b m.
Proof.
  intros Hb Hn Hn'.
  pose proof (count_blank_le_9 b) as H9.
  assert (0 + Z.of_nat (count_blank b) <= 9) as Hsum by lia.
  pose proof (nonlosing_value n b 0 m Hb Hn (Z.le_refl 0) Hsum) as H1.
  pose proof (nonlosing_value n' b 0 m Hb Hn' (Z.le_refl 0) Hsum) as H2.
  rewrite (minimax_limit n n') in H1 by assumption.
  destruct (nonlosing self n b m), (nonlosing self n' b m); try reflexivity.
  - symmetry. apply H2, H1. reflexivity.
  - apply H1, H2. reflexivity.
Qed.
End Depth.

(** X10.  The search nests one call per empty cell at most.  With more nested
    calls allowed than the board has empty cells, [minimax] and
    [find_best_move] return, and what they return does not depend on how
    many nested calls are allowed. *)
Theorem search_independent_of_limit (self : MinimaxAI) (limit limit' : nat)
    (g : rng) (b : board) (depth : Z) (is_maximizing : bool) :
  players_ok self -> is_3x3 b ->
  (count_blank b < limit)%nat -> (count_blank b < limit')%nat ->
  (exists s, minimax self limit b depth is_maximizing = Ok (s, b)
             /\ minimax self limit' b depth is_maximizing = Ok (s, b))
  /\ (exists m, find_best_move self limit g b = Ok (m, b)
                /\ find_best_move self limit' g b = Ok (m, b)).
Proof.
  intros Hplayers Hb Hlt Hlt'. split.
  - exists (value_of (minimax self limit b depth is_maximizing)).
    split; [apply minimax_restores; assumption |].
    rewrite <- (minimax_limit self Hplayers limit limit') by assumption.
    apply minimax_restores; assumption.
  - destruct (find_best_move_total self Hplayers limit g b Hb) as [m Hm];
      [lia |].
    exists m. split; [exact Hm |].
    rewrite <- (find_best_move_limit self Hplayers limit limit') by
      (assumption || lia).
    exact Hm.
Qed.

Lemma search_independent_of_limit_witness :
  let b := [["X"; "O"; "X"]; [" "; "O"; " "]; [" "; "X"; " "]] in
  (exists s, minimax (default_ai HARD) 5 b 0 true = Ok (s, b)
             /\ minimax (default_ai HARD) 1000 b 0 true = Ok (s, b))
  /\ (exists m,
        find_best_move (default_ai HARD) 5 {| random := 0 # 1; randbelow := 2 |} b
        = Ok (m, b)
        /\ find_best_move (default_ai HARD) 1000
             {| random := 0 # 1; randbelow := 2 |} b
           = Ok (m, b)).
Proof.
  intros b.
  apply (search_independent_of_limit (default_ai HARD) 5 1000).
  - apply default_players_ok.
  - apply is_3x3_intro.
  - vm_compute. lia.
  - vm_compute. lia.
Defined.

(** X11.  Called at a depth that is not negative and, with the empty cells, not
    above 9, [minimax] returns an integer, from [-10 + depth] to
    [10 - depth], and never an infinity.  It returns [10 - depth] exactly
    on a board the computer has won and [-10 + depth] exactly on a board
    the human has won. *)
Theorem minimax_value_range (self : MinimaxAI) (limit : nat) (b : board)
    (depth : Z) (is_maximizing : bool) :
  players_ok self -> is_3x3 b -> (count_blank b < limit)%nat ->
  0 <= depth -> depth + Z.of_nat (count_blank b) <= 9 ->
  exists v,
    minimax self limit b depth is_maximizing = Ok (Fin v, b)
    /\ -10 + depth <= v <= 10 - depth
    /\ (v = 10 - depth <->
        check_winner_static b = Ok (Some (ai_player self)))
    /\ (v = -10 + depth <->
        check_winner_static b = Ok (Some (human_player self))).
Proof.
  intros Hplayers Hb Hlt Hd Hsum.
  destruct (minimax_bounds self Hplayers limit b depth is_maximizing
              Hb Hlt Hd Hsum) as (v & Hv & Hlo & Hhi).
  exists v.
  split; [rewrite <- Hv; apply minimax_restores; assumption |].
  unfold check_winner_static. rewrite (check_winner_board_grid b Hb).
  pose proof (terminal_ai self Hplayers limit b depth is_maximizing Hb Hlt)
    as Hai.
  pose proof (terminal_human self Hplayers limit b depth is_maximizing Hb Hlt)
    as Hhuman.
  rewrite Hv in Hai, Hhuman.
  destruct (eval_of self b =? 10) eqn:E10, (eval_of self b =? -10) eqn:Em10;
    try (apply Z.eqb_eq in E10; apply Z.eqb_eq in Em10; lia).
  - apply Z.eqb_eq in E10. pose proof (eval_of_10 self b E10) as Hw.
    split; [lia |]. split.
    + split; [intros _; congruence |]. intros _.
      specialize (Hai Hw). injection Hai as ->. reflexivity.
    + split.
      * intros ->. specialize (Hai Hw). injection Hai as Hai. lia.
      * intros [= Hw']. rewrite Hw in Hw'. injection Hw' as Hw'.
        destruct Hplayers as (_ & _ & Hne). contradiction.
  - apply Z.eqb_eq in Em10.
    pose proof (eval_of_m10 self b Em10) as Hw.
    split; [lia |]. split.
    + split.
      * intros ->. specialize (Hhuman Hw). injection Hhuman as Hhuman. lia.
      * intros [= Hw']. rewrite Hw in Hw'. injection Hw' as Hw'.
        destruct Hplayers as (_ & _ & Hne). congruence.
    + split; [intros _; congruence |]. intros _.
      specialize (Hhuman Hw). injection Hhuman as ->. reflexivity.
  - apply Z.eqb_neq in E10, Em10.
    split; [lia |]. split.
    + split; [lia |]. intros [= Hw]. apply (eval_of_ai self) in Hw.
      contradiction.
    + split; [lia |]. intros [= Hw].
      apply (eval_of_human self Hplayers) in Hw. contradiction.
Qed.

Lemma minimax_value_range_witness :
  let b := [["X"; "O"; "X"]; [" "; "O"; " "]; [" "; "X"; " "]] in
  exists v,
    minimax (default_ai HARD) 10 b 5 true = Ok (Fin v, b)
    /\ -10 + 5 <= v <= 10 - 5.
Proof.
  intros b.
  destruct (minimax_value_range (default_ai HARD) 10 b 5 true)
    as (v & Hv & Hrange & _).
  - apply default_players_ok.
  - apply is_3x3_intro.
  - vm_compute. lia.
  - lia.
  - vm_compute. discriminate.
  - exists v. auto.
Defined.

(** X12.  The sign of the score: [minimax] returns 0 or more exactly when the
    computer can avoid defeat from the position, whoever is to move. *)
Theorem minimax_sign (self : MinimaxAI) (limit : nat) (b : board)
    (depth : Z) (is_maximizing : bool) :
  players_ok self -> is_3x3 b -> (count_blank b < limit)%nat ->
  0 <= depth -> depth + Z.of_nat (count_blank b) <= 9 ->
  exists v,
    minimax self limit b depth is_maximizing = Ok (Fin v, b)
    /\ (0 <= v <-> avoids_defeat self b is_maximizing = true).
Proof.
  intros Hplayers Hb Hlt Hd Hsum.
  destruct (minimax_bounds self Hplayers limit b depth is_maximizing
              Hb Hlt Hd Hsum) as (v & Hv & _).
  exists v.
  split; [rewrite <- Hv; apply minimax_restores; assumption |].
  pose proof (count_blank_le_9 b) as H9.
  unfold avoids_defeat.
  rewrite (nonlosing_limit self Hplayers 10 limit b is_maximizing Hb)
    by (assumption || lia).
  rewrite (nonlosing_value self Hplayers limit b depth is_maximizing
             Hb Hlt Hd Hsum), Hv.
  symmetry. apply score_le_Fin.
Qed.

Lemma minimax_sign_witness :
  let b := [["X"; "O"; "X"]; [" "; "O"; " "]; [" "; "X"; " "]] in
  exists v,
    minimax (default_ai HARD) 10 b 0 true = Ok (Fin v, b)
    /\ (0 <= v <-> avoids_defeat (default_ai HARD) b true = true).
Proof.
  intros b.
  apply (minimax_sign (default_ai HARD) 10 b 0 true).
  - apply default_players_ok.
  - apply is_3x3_intro.
  - vm_compute. lia.
  - lia.
  - vm_compute. discriminate.
Defined.

(** * Further properties of the move selector *)

Lemma for_each_ext {I S : Type} (xs : list I) (f f' : I -> S -> res S) :
  (forall x s, f x s = f' x s) ->
  forall s, for_each xs f s = for_each xs f' s.
Proof.
  intros H. induction xs as [|x xs IH]; intros s; simpl; [reflexivity |].
  rewrite H. destruct (f' x s) as [s' | e]; simpl; [apply IH | reflexivity].
Qed.

Lemma minimax_body_ext (search search' : board -> res (score * board))
    (mark : cell) (pick : score -> score -> score) (i j : Z)
    (st : score * board) :
  (forall b, search b = search' b) ->
  minimax_body search mark pick i j st = minimax_body search' mark pick i j st.
Proof.
  intros H. unfold minimax_body. destruct st as [best b].
  destruct (getitem2 b i j) as [x | e]; simpl; [| reflexivity].
  destruct (String.eqb x blank); [| reflexivity].
  destruct (setitem2 b i j mark) as [b1 | e]; simpl; [| reflexivity].
  rewrite H. reflexivity.
Qed.

(** The search looks at the two symbols of the opponent only, not at its
    difficulty. *)
Lemma minimax_difficulty (self : MinimaxAI) (d : Difficulty) (limit : nat) :
  forall (b : board) (depth : Z) (m : bool),
    minimax (with_difficulty self d) limit b depth m
    = minimax self limit b depth m.
Proof.
  induction limit as [|limit IH]; intros b depth m; [reflexivity |].
  rewrite !minimax_S. unfold evaluate. cbn [with_difficulty ai_player human_player].
  destruct (check_winner_static b) as [w | e]; [| reflexivity].
  rewrite !bind_Ok.
  destruct (winner_is w (ai_player self)); [reflexivity |].
  destruct (winner_is w (human_player self)); [reflexivity |].
  rewrite !bind_Ok.
  change (0 =? 10) with false. change (0 =? -10) with false. cbv iota.
  destruct (is_full_static b); [reflexivity |].
  destruct m; apply for_each_ext; intros i s; apply for_each_ext; intros j s';
    apply minimax_body_ext; intros b'; apply IH.
Qed.

Lemma best_set_difficulty (self : MinimaxAI) (d : Difficulty) (limit : nat)
    (b : board) :
  best_set (with_difficulty self d) limit b = best_set self limit b.
Proof.
  assert (forall c, top_val (with_difficulty self d) limit b c
                    = top_val self limit b c) as Htop
    by (intros c; unfold top_val; rewrite minimax_difficulty; reflexivity).
  unfold best_set, best_val_of.
  rewrite (map_ext _ _ Htop).
  apply filter_ext. intros c. rewrite Htop. reflexivity.
Qed.

Lemma with_difficulty_players (self : MinimaxAI) (d : Difficulty) :
  players_ok self -> players_ok (with_difficulty self d).
Proof. intros H. exact H. Qed.

(** X13.  [MEDIUM] is a mixture of the other two difficulties: when the number
    drawn by [random.random()] is 0.3 or more the move is the one [HARD]
    returns, below 0.3 it is the one [EASY] returns, for the same draw of
    [random.choice]. *)
Theorem medium_mixes_easy_and_hard (self : MinimaxAI) (limit : nat) (g : rng)
    (b : board) :
  players_ok self -> is_3x3 b -> (count_blank b <= limit)%nat ->
  find_best_move (with_difficulty self MEDIUM) limit g b
  = if Qle_bool (3 # 10) (random g)
    then find_best_move (with_difficulty self HARD) limit g b
    else find_best_move (with_difficulty self EASY) limit g b.
Proof.
  intros Hplayers Hb Hle.
  rewrite (find_best_move_medium (with_difficulty self MEDIUM)
             (with_difficulty_players self MEDIUM Hplayers) limit g b
             eq_refl Hb Hle).
  rewrite (find_best_move_hard (with_difficulty self HARD)
             (with_difficulty_players self HARD Hplayers) limit g b
             eq_refl Hb Hle).
  rewrite (find_best_move_easy (with_difficulty self EASY) limit g b
             eq_refl Hb).
  rewrite !best_set_difficulty.
  destruct (Qle_bool (3 # 10) (random g)); simpl; [reflexivity |].
  unfold choice_or_sentinel.
  destruct (truthy (blank_cells b)) eqn:Hne; [reflexivity |].
  destruct (blank_cells b) eqn:Hcells; [| discriminate Hne].
  unfold best_set. rewrite Hcells. reflexivity.
Qed.

Lemma medium_mixes_easy_and_hard_witness :
  let b := [["X"; "X"; " "]; ["O"; " "; " "]; [" "; " "; " "]] in
  let g := {| random := 1 # 10; randbelow := 4 |} in
  find_best_move (with_difficulty (default_ai HARD) MEDIUM) 9 g b
  = if Qle_bool (3 # 10) (random g)
    then find_best_move (with_difficulty (default_ai HARD) HARD) 9 g b
    else find_best_move (with_difficulty (default_ai HARD) EASY) 9 g b.
Proof.
  intros b g.
  apply (medium_mixes_easy_and_hard (default_ai HARD) 9 g b).
  - apply default_players_ok.
  - apply is_3x3_intro.
  - vm_compute. lia.
Defined.

(** X14.  At [EASY] the move is the empty cell whose position in the list of
    empty cells is the draw of [random.choice], whatever the position is
    worth; no search is made, so that the call returns even when no nested
    call is allowed.  On a full board the answer is the pair (-1, -1). *)
Theorem easy_picks_any_empty_cell (self : MinimaxAI) (limit : nat) (g : rng)
    (b : board) :
  difficulty self = EASY -> is_3x3 b ->
  exists cells,
    collect_empty b = Ok cells
    /\ find_best_move self limit g b
       = Ok (nth (randbelow g mod length cells) cells (-1, -1), b)
    /\ find_best_move self 0 g b = find_best_move self limit g b
    /\ forall c, In c cells ->
         exists g', find_best_move self limit g' b = Ok (c, b).
Proof.
  intros Hd Hb. exists (blank_cells b).
  split; [apply collect_empty_grid; assumption |].
  rewrite !(find_best_move_easy self) by assumption.
  split; [| split; [reflexivity |]].
  - unfold choice_or_sentinel, choice.
    destruct (blank_cells b) as [|c cs] eqn:Hcells.
    { cbn [truthy]. rewrite bind_Ok, nth_overflow by (simpl; lia).
      reflexivity. }
    cbn [truthy].
    assert (randbelow g mod length (c :: cs) < length (c :: cs))%nat as Hlt
      by (apply Nat.mod_upper_bound; discriminate).
    destruct (lookup_lt_is_Some_2 (c :: cs) _ Hlt) as [x Hx].
    rewrite (nth_lookup_Some _ _ (-1, -1) _ Hx), Hx. reflexivity.
  - intros c Hc. destruct (choice_any _ c Hc) as [g' Hg'].
    exists g'. rewrite (find_best_move_easy self) by assumption.
    unfold choice_or_sentinel.
    destruct (blank_cells b); [destruct Hc |].
    cbn [truthy]. rewrite Hg'. reflexivity.
Qed.

Lemma easy_picks_any_empty_cell_witness :
  exists cells,
    collect_empty [["X"; "X"; " "]; ["O"; " "; " "]; [" "; " "; " "]] = Ok cells
    /\ find_best_move (default_ai EASY) 0 {| random := 0 # 1; randbelow := 8 |}
         [["X"; "X"; " "]; ["O"; " "; " "]; [" "; " "; " "]]
       = Ok (nth (8 mod length cells) cells (-1, -1),
             [["X"; "X"; " "]; ["O"; " "; " "]; [" "; " "; " "]]).
Proof.
  destruct (easy_picks_any_empty_cell (default_ai EASY) 0
              {| random := 0 # 1; randbelow := 8 |}
              [["X"; "X"; " "]; ["O"; " "; " "]; [" "; " "; " "]])
    as (cells & Hcells & Hmove & _).
  - reflexivity.
  - apply is_3x3_intro.
  - exists cells. auto.
Defined.

(** X15.  At [HARD], on a board without a completed line where some empty cell
    wins at once for the computer, the move returned wins at once, whatever
    the human threatens. *)
Theorem hard_takes_the_win (self : MinimaxAI) (limit : nat) (g : rng)
    (b : board) :
  players_ok self -> difficulty self = HARD ->
  is_3x3 b -> (count_blank b <= limit)%nat ->
  check_winner_board b = Ok None ->
  (exists c, completes_at b c (ai_player self)) ->
  exists m,
    find_best_move self limit g b = Ok (m, b)
    /\ completes_at b m (ai_player self).
Proof.
  intros Hplayers Hd Hb Hle Hnone (cw & Hcw).
  rewrite (check_winner_board_grid b Hb) in Hnone. injection Hnone as Hnone.
  apply (completes_at_winner b Hb) in Hcw as [Hcw Hw].
  assert (blank_cells b <> []) as Hne
    by (intros E; rewrite E in Hcw; destruct Hcw).
  destruct (hard_returns_best self Hplayers limit g b Hd Hb Hle Hne)
    as (m & Hm & Hin).
  exists m. split; [exact Hm |].
  apply (completes_at_winner b Hb).
  split; [eapply best_set_incl; eassumption |].
  apply (best_set_wins self Hplayers limit b Hb Hle cw m); assumption.
Qed.

Lemma hard_takes_the_win_witness :
  let b := [["X"; "X"; " "]; ["O"; "O"; " "]; ["X"; " "; " "]] in
  exists m,
    find_best_move (default_ai HARD) 9 {| random := 0 # 1; randbelow := 5 |} b
    = Ok (m, b)
    /\ completes_at b m "O".
Proof.
  intros b.
  apply (hard_takes_the_win (default_ai HARD) 9
           {| random := 0 # 1; randbelow := 5 |} b).
  - apply default_players_ok.
  - reflexivity.
  - apply is_3x3_intro.
  - vm_compute. lia.
  - reflexivity.
  - exists (1, 2). split; [vm_compute; tauto | reflexivity].
Defined.

Section Strategy.
Variable self : MinimaxAI.
Hypothesis Hplayers : players_ok self.

Lemma eval_of_none (b : board) : winner_of b = None -> eval_of self b = 0.
Proof.
  intros H. apply (eval_of_other self); rewrite H; discriminate.
Qed.

(** One step of [avoids_defeat] on a position that is not over. *)
Lemma avoids_defeat_step (b : board) (m : bool) :
  is_3x3 b -> winner_of b = None -> all_marked b = false ->
  avoids_defeat self b m =
    if m then
      some_cell (fun c => avoids_defeat self (place b c (ai_player self)) false)
        (blank_cells b)
    else
      every_cell (fun c => avoids_defeat self (place b c (human_player self)) true)
        (blank_cells b).
Proof.
  intros Hb Hnone Hfull. unfold avoids_defeat at 1.
  rewrite nonlosing_S, (eval_of_none b Hnone), Hfull.
  change (0 =? 10) with false. change (0 =? -10) with false. cbv iota.
  pose proof (count_blank_le_9 b) as H9.
  destruct m.
  - apply some_cell_ext_in. intros c Hc.
    destruct (child_position self Hplayers b c true Hb Hc) as (_ & Hb' & Hcount).
    cbn [mover] in Hb', Hcount.
    apply (nonlosing_limit self Hplayers); [exact Hb' | lia | lia].
  - apply every_cell_ext_in. intros c Hc.
    destruct (child_position self Hplayers b c false Hb Hc) as (_ & Hb' & Hcount).
    cbn [mover] in Hb', Hcount.
    apply (nonlosing_limit self Hplayers); [exact Hb' | lia | lia].
Qed.

(** A position the human has won. *)
Lemma avoids_defeat_lost (b : board) (m : bool) :
  winner_of b = Some (human_player self) -> avoids_defeat self b m = false.
Proof.
  unfold avoids_defeat. rewrite nonlosing_S. intros Hw.
  rewrite (eval_of_human self Hplayers b Hw). reflexivity.
Qed.

(** The value [find_best_move] gives a cell is 0 or more exactly when the
    computer can avoid defeat after taking it. *)
Lemma top_val_sign (limit : nat) (b : board) (c : Z * Z) :
  is_3x3 b -> (count_blank b <= limit)%nat -> In c (blank_cells b) ->
  score_le (Fin 0) (top_val self limit b c)
  <-> avoids_defeat self (place b c (ai_player self)) false = true.
Proof.
  intros Hb Hle Hc.
  destruct (child_position self Hplayers b c true Hb Hc) as (_ & Hb' & Hcount).
  simpl in Hb', Hcount.
  pose proof (count_blank_le_9 b) as H9.
  unfold top_val, avoids_defeat.
  rewrite (nonlosing_limit self Hplayers 10 limit) by (assumption || lia).
  symmetry. apply (nonlosing_value self Hplayers); [assumption | lia | lia | lia].
Qed.

(** The cells of the best-set keep the computer out of defeat whenever some
    cell does. *)
Lemma best_set_avoids_defeat (limit : nat) (b : board) (m : Z * Z) :
  is_3x3 b -> (count_blank b <= limit)%nat ->
  winner_of b = None -> all_marked b = false ->
  avoids_defeat self b true = true ->
  In m (best_set self limit b) ->
  avoids_defeat self (place b m (ai_player self)) false = true.
Proof.
  intros Hb Hle Hnone Hfull Hsafe Hm.
  rewrite (avoids_defeat_step b true Hb Hnone Hfull) in Hsafe.
  apply some_cell_exists in Hsafe as (c & Hc & Hok).
  apply best_set_spec in Hm as [Hm Hval].
  assert (blank_cells b <> []) as Hne by (intros E; rewrite E in Hm; destruct Hm).
  destruct (best_val_is_maximum self limit b Hne) as [_ Hmax].
  apply (top_val_sign limit b m Hb Hle Hm). rewrite Hval.
  eapply score_le_trans; [apply (top_val_sign limit b c Hb Hle Hc); exact Hok |].
  apply Hmax, in_map; assumption.
Qed.
End Strategy.

(** X16.  [HARD] never gives the game away.  On a board that is not over and
    from which the computer, to move, can still avoid defeat, the move
    returned is an empty cell after which the computer can still avoid
    defeat, whatever [random.choice] draws. *)
Theorem hard_keeps_out_of_defeat (self : MinimaxAI) (limit : nat) (g : rng)
    (b : board) :
  players_ok self -> difficulty self = HARD ->
  is_3x3 b -> (count_blank b <= limit)%nat ->
  check_winner_board b = Ok None -> is_full_static b = false ->
  avoids_defeat self b true = true ->
  exists m,
    find_best_move self limit g b = Ok (m, b)
    /\ In m (blank_cells b)
    /\ avoids_defeat self (place b m (ai_player self)) false = true.
Proof.
  intros Hplayers Hd Hb Hle Hnone Hfull Hsafe.
  rewrite (check_winner_board_grid b Hb) in Hnone. injection Hnone as Hnone.
  assert (blank_cells b <> []) as Hne.
  { intros E. apply all_marked_blank_cells in E; [| assumption].
    unfold is_full_static in Hfull. congruence. }
  destruct (hard_returns_best self Hplayers limit g b Hd Hb Hle Hne)
    as (m & Hm & Hin).
  exists m. split; [exact Hm |].
  split; [eapply best_set_incl; eassumption |].
  apply (best_set_avoids_defeat self Hplayers limit b m); assumption.
Qed.

Lemma hard_keeps_out_of_defeat_witness :
  let b := [["X"; " "; " "]; [" "; "O"; " "]; [" "; " "; "X"]] in
  exists m,
    find_best_move (default_ai HARD) 9 {| random := 0 # 1; randbelow := 1 |} b
    = Ok (m, b)
    /\ In m (blank_cells b)
    /\ avoids_defeat (default_ai HARD) (place b m "O") false = true.
Proof.
  intros b.
  apply (hard_keeps_out_of_defeat (default_ai HARD) 9
           {| random := 0 # 1; randbelow := 1 |} b).
  - apply default_players_ok.
  - reflexivity.
  - apply is_3x3_intro.
  - vm_compute. lia.
  - reflexivity.
  - reflexivity.
  - vm_compute. reflexivity.
Defined.

(** * Further properties of the score record *)

Lemma update_game_record (file : string) (r : ScoreRecord) (d : disk)
    (result : string) (time_taken : Z) (difficulty : string) :
  update_game {| stats_file := file; stats := to_dict r |} d
    result time_taken difficulty
  = let u := update_record result time_taken difficulty r in
    let self' := {| stats_file := file; stats := to_dict u.1 |} in
    match u.2 with
    | Ok _ => (self', save_stats self' d, Ok tt)
    | Raise e => (self', d, Raise e)
    end.
Proof.
  unfold update_game. cbn [stats stats_file]. rewrite run_update_body.
  destruct (update_record result time_taken difficulty r) as [r' [[] | e]];
    reflexivity.
Qed.

Lemma update_stats_record (r : ScoreRecord) (d : disk)
    (result : string) (time_taken : Z) (difficulty : string) :
  update_stats (to_dict r) d result time_taken difficulty
  = let u := update_record result time_taken difficulty r in
    match u.2 with
    | Ok _ => (to_dict u.1, web_save_stats (to_dict u.1) d, Ok (to_dict u.1))
    | Raise e => (to_dict u.1, d, Raise e)
    end.
Proof.
  unfold update_stats. rewrite run_update_body.
  destruct (update_record result time_taken difficulty r) as [r' [[] | e]];
    reflexivity.
Qed.

Lemma count_difficulty_known (difficulty : string) (r : ScoreRecord) :
  known_difficulty difficulty ->
  exists r', count_difficulty difficulty r = Some r'.
Proof.
  intros [-> | [-> | ->]]; eexists; reflexivity.
Qed.

Lemma count_difficulty_unknown (difficulty : string) (r : ScoreRecord) :
  ~ known_difficulty difficulty -> count_difficulty difficulty r = None.
Proof.
  intros H. unfold count_difficulty, known_difficulty in *.
  destruct (String.eqb "EASY" difficulty) eqn:E1;
    [apply String.eqb_eq in E1; exfalso; auto |].
  destruct (String.eqb "MEDIUM" difficulty) eqn:E2;
    [apply String.eqb_eq in E2; exfalso; auto |].
  destruct (String.eqb "HARD" difficulty) eqn:E3;
    [apply String.eqb_eq in E3; exfalso; auto |].
  reflexivity.
Qed.

Lemma update_record_ok (result : string) (time_taken : Z) (difficulty : string)
    (r : ScoreRecord) :
  (result = "W" -> known_difficulty difficulty) ->
  (update_record result time_taken difficulty r).2 = Ok tt.
Proof.
  intros Hvalid. unfold update_record.
  destruct (String.eqb result "W") eqn:EW.
  - apply String.eqb_eq in EW.
    destruct (count_difficulty_known difficulty (count_win (count_game r))
                (Hvalid EW)) as [r' ->].
    reflexivity.
  - destruct (String.eqb result "L"); reflexivity.
Qed.

(** X17.  An update is still there after a restart.  When the score file can be
    written and the difficulty of a win is one of the three known names,
    [update_game] returns normally, and a [GameStats] object created
    afterwards loads the record as the update left it; likewise
    [load_stats] after [update_stats] in the web front end. *)
Theorem update_survives_restart (r : ScoreRecord) (d : disk) (result : string)
    (time_taken : Z) (difficulty : string) :
  read_only d = false ->
  (result = "W" -> known_difficulty difficulty) ->
  (exists self' d',
      update_game {| stats_file := "tictactoe_stats.json";
                     stats := to_dict r |} d result time_taken difficulty
      = (self', d', Ok tt)
      /\ new_stats d' = self')
  /\ (exists st d',
        update_stats (to_dict r) d result time_taken difficulty
        = (st, d', Ok st)
        /\ web_load_stats d' = st).
Proof.
  intros Hrw Hvalid.
  pose proof (update_record_ok result time_taken difficulty r Hvalid) as Hok.
  set (r' := (update_record result time_taken difficulty r).1) in *.
  split.
  - rewrite update_game_record. cbv zeta. rewrite Hok. fold r'.
    destruct (read_after_write d "tictactoe_stats.json" (to_dict r') Hrw
                (to_dict_well_formed r')) as (d2 & Hw2 & _ & Hex2 & Hread2).
    eexists _, _. split; [reflexivity |].
    unfold save_stats. cbn [stats_file stats]. rewrite Hw2.
    unfold new_stats, load_stats. cbn [stats_file stats].
    rewrite Hex2, Hread2. reflexivity.
  - rewrite update_stats_record. cbv zeta. rewrite Hok. fold r'.
    destruct (read_after_write d web_stats_file (to_dict r') Hrw
                (to_dict_well_formed r')) as (d2 & Hw2 & _ & Hex2 & Hread2).
    eexists _, _. split; [reflexivity |].
    unfold web_save_stats, web_load_stats. rewrite Hw2, Hex2, Hread2.
    reflexivity.
Qed.

Lemma update_survives_restart_witness :
  exists st d',
    update_stats default_stats {| files := ∅; read_only := false |} "W" 7 "EASY"
    = (st, d', Ok st)
    /\ web_load_stats d' = st.
Proof.
  destruct (update_survives_restart
              {| wins := 0; losses := 0; draws := 0; win_streak := 0;
                 best_time := None; games_played := 0; easy_wins := 0;
                 medium_wins := 0; hard_wins := 0 |}
              {| files := ∅; read_only := false |} "W" 7 "EASY")
    as [_ H].
  - reflexivity.
  - intros _. left. reflexivity.
  - exact H.
Defined.

(** X18.  A win under a name that is not one of the three difficulties raises
    [KeyError] in the middle of the update: the game, the win and the streak
    are counted already, [difficulty_wins] and [best_time] are as before,
    and nothing is saved.  For the other results the name is never looked
    up, and the update goes through with any name. *)
Theorem unknown_difficulty_raises (r : ScoreRecord) (file : string) (d : disk)
    (result : string) (time_taken : Z) (difficulty : string) :
  ~ known_difficulty difficulty ->
  update_game {| stats_file := file; stats := to_dict r |} d
    "W" time_taken difficulty
  = ({| stats_file := file; stats := to_dict (count_win (count_game r)) |},
     d, Raise KeyError)
  /\ update_stats (to_dict r) d "W" time_taken difficulty
     = (to_dict (count_win (count_game r)), d, Raise KeyError)
  /\ (result <> "W" ->
      update_game {| stats_file := file; stats := to_dict r |} d
        result time_taken difficulty
      = update_game {| stats_file := file; stats := to_dict r |} d
          result time_taken "HARD"
      /\ exists self' d',
           update_game {| stats_file := file; stats := to_dict r |} d
             result time_taken difficulty = (self', d', Ok tt)).
Proof.
  intros Hunknown.
  rewrite !update_game_record, update_stats_record. cbv zeta.
  split; [| split].
  - unfold update_record. cbn [String.eqb Ascii.eqb Bool.eqb].
    rewrite (count_difficulty_unknown _ _ Hunknown). reflexivity.
  - unfold update_record. cbn [String.eqb Ascii.eqb Bool.eqb].
    rewrite (count_difficulty_unknown _ _ Hunknown). reflexivity.
  - intros Hresult. apply String.eqb_neq in Hresult.
    unfold update_record. rewrite Hresult.
    split; [reflexivity |].
    destruct (String.eqb result "L"); eexists _, _; reflexivity.
Qed.

Lemma unknown_difficulty_raises_witness :
  update_stats default_stats {| files := ∅; read_only := false |}
    "W" 7 "Hard"
  = (to_dict (count_win (count_game
       {| wins := 0; losses := 0; draws := 0; win_streak := 0;
          best_time := None; games_played := 0; easy_wins := 0;
          medium_wins := 0; hard_wins := 0 |})),
     {| files := ∅; read_only := false |}, Raise KeyError).
Proof.
  destruct (unknown_difficulty_raises
              {| wins := 0; losses := 0; draws := 0; win_streak := 0;
                 best_time := None; games_played := 0; easy_wins := 0;
                 medium_wins := 0; hard_wins := 0 |}
              "tictactoe_stats.json" {| files := ∅; read_only := false |}
              "W" 7 "Hard") as (_ & H & _).
  - intros [H | [H | H]]; discriminate H.
  - exact H.
Defined.

(** X19.  A failed save is silent.  When the score file cannot be written,
    [update_game] and [update_stats] still return normally with the record
    updated in memory; the disk is as it was, so that the update is gone
    after a restart. *)
Theorem failed_save_is_silent (r : ScoreRecord) (file : string) (d : disk)
    (result : string) (time_taken : Z) (difficulty : string) :
  read_only d = true ->
  (result = "W" -> known_difficulty difficulty) ->
  let r' := (update_record result time_taken difficulty r).1 in
  update_game {| stats_file := file; stats := to_dict r |} d
    result time_taken difficulty
  = ({| stats_file := file; stats := to_dict r' |}, d, Ok tt)
  /\ update_stats (to_dict r) d result time_taken difficulty
     = (to_dict r', d, Ok (to_dict r'))
  /\ games_played r' = games_played r + 1.
Proof.
  intros Hro Hvalid r'.
  pose proof (update_record_ok result time_taken difficulty r Hvalid) as Hok.
  rewrite !update_game_record, update_stats_record. cbv zeta.
  rewrite Hok. fold r'.
  unfold save_stats, web_save_stats, write_json. rewrite Hro.
  repeat split.
  apply (update_record_tally result time_taken difficulty r).
Qed.

Lemma failed_save_is_silent_witness :
  update_stats default_stats {| files := ∅; read_only := true |} "L" 30 "HARD"
  = (to_dict {| wins := 0; losses := 1; draws := 0; win_streak := 0;
                best_time := None; games_played := 1; easy_wins := 0;
                medium_wins := 0; hard_wins := 0 |},
     {| files := ∅; read_only := true |},
     Ok (to_dict {| wins := 0; losses := 1; draws := 0; win_streak := 0;
                    best_time := None; games_played := 1; easy_wins := 0;
                    medium_wins := 0; hard_wins := 0 |})).
Proof.
  destruct (failed_save_is_silent
              {| wins := 0; losses := 0; draws := 0; win_streak := 0;
                 best_time := None; games_played := 0; easy_wins := 0;
                 medium_wins := 0; hard_wins := 0 |}
              "tictactoe_stats.json" {| files := ∅; read_only := true |}
              "L" 30 "HARD") as (_ & H & _).
  - reflexivity.
  - discriminate.
  - exact H.
Defined.

Lemma best_time_le_trans (a b c : option Z) :
  best_time_le a b -> best_time_le b c -> best_time_le a c.
Proof.
  destruct a, b, c; simpl; try tauto; lia.
Qed.

Lemma new_best_time_cases (t : Z) (b : option Z) :
  best_time_le (new_best_time t b) (Some t)
  /\ (new_best_time t b = b \/ new_best_time t b = Some t).
Proof.
  destruct b as [b |]; simpl; [| split; [lia | auto]].
  destruct (t <? b) eqn:E; simpl; [split; [lia | auto] |].
  apply Z.ltb_ge in E. split; [lia | auto].
Qed.

(** The fields of the record after one update that goes through. *)
Lemma update_record_fields (result : string) (time_taken : Z)
    (difficulty : string) (r : ScoreRecord) :
  (result = "W" -> known_difficulty difficulty) ->
  let r' := (update_record result time_taken difficulty r).1 in
  wins r' - (easy_wins r' + medium_wins r' + hard_wins r')
  = wins r - (easy_wins r + medium_wins r + hard_wins r)
  /\ win_streak r' = (if String.eqb result "W" then win_streak r + 1 else 0)
  /\ best_time r' = (if String.eqb result "W"
                    then new_best_time time_taken (best_time r)
                    else best_time r).
Proof.
  intros Hvalid. unfold update_record, count_difficulty.
  destruct (String.eqb result "W") eqn:EW.
  - apply String.eqb_eq in EW. destruct (Hvalid EW) as [-> | [-> | ->]];
      cbn; repeat split; lia.
  - destruct (String.eqb result "L"); cbn; repeat split; lia.
Qed.

Lemma update_games_cons (game : string * Z * string)
    (games : list (string * Z * string)) (file : string) (r : ScoreRecord)
    (d : disk) :
  valid_game game ->
  exists d',
    update_games (game :: games) {| stats_file := file; stats := to_dict r |} d
    = update_games games
        {| stats_file := file;
           stats := to_dict (update_record game.1.1 game.1.2 game.2 r).1 |} d'.
Proof.
  destruct game as [[result time_taken] difficulty]. intros Hvalid.
  cbn [update_games fst snd]. rewrite update_game_record. cbv zeta.
  rewrite (update_record_ok result time_taken difficulty r Hvalid).
  eexists. reflexivity.
Qed.

(** X20.  Over any sequence of games with known difficulty names, the score
    record counts every game; the wins counted by difficulty stay in step
    with [wins]; [win_streak] is the number of wins since the last game that
    was not won; and [best_time] is the least time among the earlier best
    and the games won. *)
Theorem streak_and_best_time (games : list (string * Z * string)) :
  forall (r : ScoreRecord) (file : string) (d : disk),
    Forall valid_game games ->
    exists r' d',
      update_games games {| stats_file := file; stats := to_dict r |} d
      = ({| stats_file := file; stats := to_dict r' |}, d')
      /\ games_played r' = games_played r + Z.of_nat (length games)
      /\ wins r' - (easy_wins r' + medium_wins r' + hard_wins r')
         = wins r - (easy_wins r + medium_wins r + hard_wins r)
      /\ (Forall is_win games ->
          win_streak r' = win_streak r + Z.of_nat (length games))
      /\ (forall pre g post,
            games = (pre ++ g :: post)%list -> ~ is_win g ->
            Forall is_win post ->
            win_streak r' = Z.of_nat (length post))
      /\ best_time_le (best_time r') (best_time r)
      /\ (forall g, In g games -> is_win g ->
            best_time_le (best_time r') (Some g.1.2))
      /\ (best_time r' = best_time r
          \/ exists g, In g games /\ is_win g /\ best_time r' = Some g.1.2).
Proof.
  induction games as [|game games IH]; intros r file d Hvalid.
  - exists r, d. split; [reflexivity |]. cbn [length].
    split; [lia |]. split; [reflexivity |]. split; [intros _; lia |].
    split; [intros [|? ?] ? ? H; discriminate H |].
    split; [apply best_time_le_refl |].
    split; [intros g [] | left; reflexivity].
  - inversion Hvalid as [|? ? Hgame Hrest]; subst.
    destruct (update_games_cons game games file r d Hgame) as [d1 Hstep].
    set (r1 := (update_record game.1.1 game.1.2 game.2 r).1) in *.
    destruct (IH r1 file d1 Hrest)
      as (r' & d' & Hrun & Hplayed & Hsum & Hall & Hlast & Hle & Hmin & Hfrom).
    pose proof (update_record_tally game.1.1 game.1.2 game.2 r)
      as (Hplayed1 & _).
    pose proof (update_record_fields game.1.1 game.1.2 game.2 r Hgame)
      as (Hsum1 & Hstreak1 & Hbest1).
    fold r1 in Hplayed1, Hsum1, Hstreak1, Hbest1.
    assert (is_win game \/ ~ is_win game) as Hdec.
    { unfold is_win. destruct (String.eqb game.1.1 "W") eqn:E.
      - left. apply String.eqb_eq. exact E.
      - right. apply String.eqb_neq. exact E. }
    exists r', d'. split; [rewrite Hstep; exact Hrun |].
    cbn [length]. split; [lia |]. split; [lia |].
    split; [| split; [| split; [| split]]].
    + intros Hwins. inversion Hwins as [|? ? Hw Hws]; subst.
      rewrite (Hall Hws), Hstreak1.
      unfold is_win in Hw. rewrite Hw. cbn. lia.
    + intros pre g post Hsplit Hg Hpost.
      destruct pre as [|p pre]; cbn in Hsplit; injection Hsplit as <- ->.
      * rewrite (Hall Hpost), Hstreak1.
        unfold is_win in Hg. apply String.eqb_neq in Hg. rewrite Hg. lia.
      * apply (Hlast pre g post); auto.
    + eapply best_time_le_trans; [exact Hle |]. rewrite Hbest1.
      destruct (String.eqb game.1.1 "W");
        [apply new_best_time_le | apply best_time_le_refl].
    + intros g [<- | Hin] Hg; [| auto].
      eapply best_time_le_trans; [exact Hle |]. rewrite Hbest1.
      unfold is_win in Hg. rewrite Hg. cbn.
      apply new_best_time_cases.
    + destruct Hfrom as [Hsame | (g & Hin & Hg & Hbest)].
      * rewrite Hsame, Hbest1.
        destruct Hdec as [Hw | Hw]; unfold is_win in Hw.
        -- rewrite Hw. cbn.
           destruct (new_best_time_cases game.1.2 (best_time r))
             as [_ [Hold | Hnew]]; [left; exact Hold |].
           right. exists game. split; [left; reflexivity |].
           split; [exact Hw | exact Hnew].
        -- apply String.eqb_neq in Hw. rewrite Hw. left. reflexivity.
      * right. exists g. split; [right; exact Hin |]. auto.
Qed.

Lemma streak_and_best_time_witness :
  exists r' d',
    update_games [("W", 40, "EASY"); ("D", 55, "HARD"); ("W", 31, "HARD");
                  ("W", 35, "MEDIUM")]
      {| stats_file := "tictactoe_stats.json"; stats := default_stats |}
      {| files := ∅; read_only := false |}
    = ({| stats_file := "tictactoe_stats.json"; stats := to_dict r' |}, d')
    /\ games_played r' = 0 + Z.of_nat 4.
Proof.
  destruct (streak_and_best_time
              [("W", 40, "EASY"); ("D", 55, "HARD"); ("W", 31, "HARD");
               ("W", 35, "MEDIUM")]
              {| wins := 0; losses := 0; draws := 0; win_streak := 0;
                 best_time := None; games_played := 0; easy_wins := 0;
                 medium_wins := 0; hard_wins := 0 |}
              "tictactoe_stats.json" {| files := ∅; read_only := false |})
    as (r' & d' & Hrun & Hplayed & _).
  - repeat constructor; intros _; unfold known_difficulty; cbn; auto.
  - exists r', d'. split; [exact Hrun | exact Hplayed].
Defined.

(** * The session of the web front end *)

Lemma board_loop_idle (cells : list (Z * Z)) (winner : option cell)
    (limit : nat) (g : rng) (now : Q) (option_ : string) (s : Session)
    (d : disk) :
  is_3x3 (game_board (game s)) -> Forall in_grid cells ->
  board_loop cells winner None limit g now option_ s d = (s, d, Ok tt).
Proof.
  intros Hb Hcells.
  induction Hcells as [|[i j] cells Hc Hcells IH]; [reflexivity |].
  cbn [board_loop]. rewrite (getitem2_grid _ i j Hb Hc).
  destruct (_ && _); exact IH.
Qed.

Lemma board_loop_elsewhere (cells : list (Z * Z)) (winner : option cell)
    (c : Z * Z) (limit : nat) (g : rng) (now : Q) (option_ : string)
    (s : Session) (d : disk) :
  is_3x3 (game_board (game s)) -> Forall in_grid cells -> ~ In c cells ->
  board_loop cells winner (Some c) limit g now option_ s d = (s, d, Ok tt).
Proof.
  intros Hb Hcells. destruct c as [i' j'].
  induction Hcells as [|[i j] cells Hc Hcells IH]; intros Hnot;
    [reflexivity |].
  cbn [board_loop]. rewrite (getitem2_grid _ i j Hb Hc).
  assert ((i =? i') && (j =? j') = false) as ->.
  { destruct ((i =? i') && (j =? j')) eqn:E; [| reflexivity].
    apply andb_true_iff in E as [Ei Ej].
    apply Z.eqb_eq in Ei, Ej. subst. exfalso. apply Hnot. left. reflexivity. }
  assert (~ In (i', j') cells) as Hrest by (intros H; apply Hnot; right; exact H).
  destruct (_ && _); exact (IH Hrest).
Qed.

Lemma board_loop_click (cells : list (Z * Z)) (winner : option cell)
    (c : Z * Z) (limit : nat) (g : rng) (now : Q) (option_ : string)
    (s : Session) (d : disk) :
  is_3x3 (game_board (game s)) -> Forall in_grid cells -> List.NoDup cells ->
  In c cells ->
  board_loop cells winner (Some c) limit g now option_ s d
  = if is_blank (game_board (game s)) c && game_active s
       && negb (winner_truthy winner)
    then click_cell limit g now option_ (fst c) (snd c) s d
    else (s, d, Ok tt).
Proof.
  intros Hb Hcells. destruct c as [i' j'].
  induction Hcells as [|[i j] cells Hc Hcells IH]; intros Hnodup Hin;
    [destruct Hin |].
  inversion Hnodup as [|? ? Hfresh Hnodup']; subst.
  cbn [board_loop]. rewrite (getitem2_grid _ i j Hb Hc).
  destruct Hin as [[= <- <-] | Hin].
  - rewrite !Z.eqb_refl. cbn [andb fst snd]. unfold is_blank.
    destruct (_ && _); [reflexivity |].
    apply board_loop_elsewhere; assumption.
  - assert ((i =? i') && (j =? j') = false) as ->.
    { destruct ((i =? i') && (j =? j')) eqn:E; [| reflexivity].
      apply andb_true_iff in E as [Ei Ej].
      apply Z.eqb_eq in Ei, Ej. subst. contradiction. }
    destruct (String.eqb _ blank && game_active s && _);
      exact (IH Hnodup' Hin).
Qed.

Lemma cells9_nodup : List.NoDup cells9.
Proof.
  unfold cells9. repeat constructor; simpl; intuition congruence.
Qed.

(** The game area on a well-formed board: nothing happens unless the cell
    clicked is drawn as a button, and then the click handler runs. *)
Lemma game_area_grid (clicked : option (Z * Z)) (limit : nat) (g : rng)
    (now : Q) (option_ : string) (s : Session) (d : disk) :
  is_3x3 (game_board (game s)) ->
  game_area clicked limit g now option_ s d
  = match clicked with
    | Some c =>
        if bool_decide (in_grid c) && is_button s c
        then click_cell limit g now option_ (fst c) (snd c) s d
        else (s, d, Ok tt)
    | None => (s, d, Ok tt)
    end.
Proof.
  intros Hb. unfold game_area, check_winner.
  rewrite (check_winner_board_grid _ Hb).
  assert (exists cs, winner_cells (winner_of (game_board (game s))) (game s)
                     = Ok cs) as [cs ->].
  { unfold winner_cells. destruct (winner_truthy _); [| eauto].
    rewrite (get_winning_cells_grid _ Hb). eauto. }
  change (list_prod range3 range3) with cells9.
  destruct clicked as [c |];
    [| apply board_loop_idle; [assumption | apply cells9_in_grid]].
  destruct (bool_decide (in_grid c)) eqn:Hc.
  - apply bool_decide_eq_true in Hc.
    rewrite (board_loop_click cells9 _ c); auto using cells9_in_grid, cells9_nodup.
    apply in_grid_cells9. exact Hc.
  - apply bool_decide_eq_false in Hc.
    apply board_loop_elsewhere; auto using cells9_in_grid.
    intros Hin. apply Hc, in_grid_cells9. exact Hin.
Qed.

(** On a board with an empty cell [find_best_move] returns an empty cell,
    at every difficulty. *)
Lemma find_best_move_empty_cell (self : MinimaxAI) (limit : nat) (g : rng)
    (b : board) :
  players_ok self -> is_3x3 b -> (count_blank b <= limit)%nat ->
  blank_cells b <> [] ->
  exists m, find_best_move self limit g b = Ok (m, b) /\ In m (blank_cells b).
Proof.
  intros Hplayers Hb Hle Hne.
  assert (forall cells,
            cells <> [] -> (forall c, In c cells -> In c (blank_cells b)) ->
            exists m,
              (choice_or_sentinel g cells ≫= fun m => Ok (m, b)) = Ok (m, b)
              /\ In m (blank_cells b)) as Hsel.
  { intros cells Hcells Hincl.
    destruct (choice_or_sentinel_blank g cells) as [[E _] | (m & Hm & Hin)];
      [contradiction |].
    exists m. rewrite Hm. auto. }
  destruct (difficulty self) eqn:Hd.
  - rewrite (find_best_move_easy self limit g b Hd Hb). apply Hsel; auto.
  - rewrite (find_best_move_medium self Hplayers limit g b Hd Hb Hle).
    destruct (negb (Qle_bool (3 # 10) (random g)) && truthy (blank_cells b)).
    + destruct (choice_in g (blank_cells b) Hne) as (m & Hm & Hin).
      exists m. rewrite Hm. auto.
    + apply Hsel; [apply best_set_nonempty; assumption | apply best_set_incl].
  - rewrite (find_best_move_hard self Hplayers limit g b Hd Hb Hle).
    apply Hsel; [apply best_set_nonempty; assumption | apply best_set_incl].
Qed.

(** The end of a game on a session whose score record is well-formed. *)
Lemma finish_game_record (result : string) (new_combo : Z -> Z) (now t0 : Q)
    (option_ : string) (s : Session) (d : disk) (r : ScoreRecord) :
  start_time (game s) = Some t0 -> session_stats s = to_dict r ->
  (result = "W" -> known_difficulty option_) ->
  let r' := (update_record result (int_of_Q (Qminus now t0)) option_ r).1 in
  finish_game result new_combo now option_ s d
  = ({| game := game s; game_active := false; combo := new_combo (combo s);
        session_stats := to_dict r';
        session_difficulty := session_difficulty s; ai := ai s |},
     web_save_stats (to_dict r') d, Ok tt).
Proof.
  intros Hstart Hstats Hvalid r'.
  unfold finish_game, time_taken_at.
  cbn [set_game_active set_combo game combo session_stats].
  rewrite Hstart, Hstats, update_stats_record. cbv zeta.
  rewrite (update_record_ok _ _ _ r Hvalid). reflexivity.
Qed.

Lemma outcome_after_move (b : board) (c : Z * Z) (mark other : cell) :
  is_3x3 b -> in_grid c -> winner_of b = None -> mark <> other ->
  winner_is (winner_of (place b c mark)) other = false.
Proof.
  intros Hb Hc Hnone Hne.
  destruct (winner_of (place b c mark)) as [w |] eqn:Hw; [| reflexivity].
  apply winner_after_place in Hw; try assumption. subst w.
  simpl. apply String.eqb_neq. exact Hne.
Qed.

Section Round.
Variables (limit : nat) (g : rng) (now t0 : Q) (option_ : string).
Variables (s : Session) (d : disk) (r : ScoreRecord) (c : Z * Z).
Hypothesis Hb : is_3x3 (game_board (game s)).
Hypothesis Hplayers : players_ok (ai s).
Hypothesis Hc : In c (blank_cells (game_board (game s))).
Hypothesis Hlimit : (count_blank (game_board (game s)) <= S limit)%nat.
Hypothesis Hstart : start_time (game s) = Some t0.
Hypothesis Hstats : session_stats s = to_dict r.
Hypothesis Hoption : known_difficulty option_.

Lemma finish_round (result : string) (s1 : Session) (b' : board) (n : Z) :
  s1 = set_game s (moved (game s) b' n) ->
  finish_game result
    (if String.eqb result "W" then fun k => k + 1 else fun _ => 0)
    now option_ s1 d
  = (ended s (moved (game s) b' n) result
       (update_record result (int_of_Q (Qminus now t0)) option_ r).1,
     web_save_stats
       (to_dict (update_record result (int_of_Q (Qminus now t0)) option_ r).1)
       d,
     Ok tt).
Proof.
  intros ->.
  rewrite (finish_game_record result _ now t0 option_ _ d r);
    [| exact Hstart | exact Hstats | intros _; exact Hoption].
  unfold ended. cbn [set_game game combo session_difficulty ai].
  destruct (String.eqb result "W"); reflexivity.
Qed.

(** The click handler on an empty cell of a game that is not over. *)
Lemma click_cell_round :
  let b := game_board (game s) in
  let b1 := place b c "X" in
  let time_taken := int_of_Q (Qminus now t0) in
  let rec_ := fun result => (update_record result time_taken option_ r).1 in
  let over := fun b' n result =>
    (ended s (moved (game s) b' n) result (rec_ result),
     web_save_stats (to_dict (rec_ result)) d, Ok tt) in
  click_cell limit g now option_ (fst c) (snd c) s d
  = if winner_is (winner_of b1) "X" then over b1 1 "W"
    else if all_marked b1 then over b1 1 "D"
    else
      match find_best_move (ai s) limit g b1 with
      | Ok (m, _) =>
          let b2 := place b1 m "O" in
          if winner_is (winner_of b2) "O" then over b2 2 "L"
          else if all_marked b2 then over b2 2 "D"
          else (set_game s (moved (game s) b2 2), d, Ok tt)
      | Raise e => (set_game s (moved (game s) b1 1), d, Raise e)
      end.
Proof.
  cbv zeta.
  apply blank_cells_spec in Hc as Hc'. destruct Hc' as [Hgrid Hblank].
  destruct c as [i j]. cbn [fst snd] in *.
  unfold click_cell.
  rewrite (make_move_in_grid (game s) i j "X" Hb Hgrid).
  unfold is_blank. rewrite Hblank. cbn [String.eqb Ascii.eqb Bool.eqb blank].
  set (b1 := place (game_board (game s)) (i, j) "X").
  assert (is_3x3 b1) as Hb1 by (apply place_3x3; assumption).
  change {| game_board := b1; current_player := current_player (game s);
            move_count := move_count (game s) + 1;
            start_time := start_time (game s) |}
    with (moved (game s) b1 1).
  cbv zeta. unfold check_winner, is_board_full.
  cbn [moved game_board set_game game ai].
  rewrite (check_winner_board_grid b1 Hb1).
  destruct (winner_is (winner_of b1) "X") eqn:HwX.
  { apply (finish_round "W"). reflexivity. }
  destruct (all_marked b1) eqn:Hfull1.
  { apply (finish_round "D"). reflexivity. }
  assert (blank_cells b1 <> []) as Hne1.
  { intros E. apply all_marked_blank_cells in E; [congruence | assumption]. }
  assert (count_blank b1 <= limit)%nat as Hlimit1.
  { pose proof (count_blank_place (game_board (game s)) (i, j) "X" Hb Hgrid)
      as Hcount.
    unfold is_blank in Hcount. rewrite Hblank in Hcount.
    specialize (Hcount eq_refl ltac:(discriminate)). fold b1 in Hcount. lia. }
  destruct (find_best_move_empty_cell (ai s) limit g b1 Hplayers Hb1 Hlimit1 Hne1)
    as (m & Hm & Hin).
  rewrite Hm.
  apply blank_cells_spec in Hin as [Hmgrid Hmblank].
  assert (negb ((fst m =? -1) && (snd m =? -1)) = true) as ->.
  { destruct Hmgrid as [Hi _].
    assert ((fst m =? -1) = false) as -> by (apply Z.eqb_neq; lia).
    reflexivity. }
  assert (set_board (moved (game s) b1 1) b1 = moved (game s) b1 1) as ->
    by reflexivity.
  destruct m as [mi mj]. cbn [fst snd].
  rewrite (make_move_in_grid (moved (game s) b1 1) mi mj "O");
    [| exact Hb1 | exact Hmgrid].
  cbn [moved game_board current_player move_count start_time].
  unfold is_blank. rewrite Hmblank.
  cbn [String.eqb Ascii.eqb Bool.eqb blank].
  set (b2 := place b1 (mi, mj) "O").
  assert (is_3x3 b2) as Hb2 by (apply place_3x3; assumption).
  replace (move_count (game s) + 1 + 1) with (move_count (game s) + 2) by lia.
  change {| game_board := b2; current_player := current_player (game s);
            move_count := move_count (game s) + 2;
            start_time := start_time (game s) |}
    with (moved (game s) b2 2).
  cbn [set_game game game_board moved].
  rewrite (check_winner_board_grid b2 Hb2).
  destruct (winner_is (winner_of b2) "O") eqn:HwO.
  { apply (finish_round "L"). reflexivity. }
  destruct (all_marked b2) eqn:Hfull2.
  { apply (finish_round "D"). reflexivity. }
  reflexivity.
Qed.
End Round.

Lemma winner_after_mark (b : board) (c : Z * Z) (mark : cell) :
  is_3x3 b -> in_grid c -> winner_of b = None ->
  winner_is (winner_of (place b c mark)) mark = false ->
  winner_of (place b c mark) = None.
Proof.
  intros Hb Hc Hnone Hw.
  destruct (winner_of (place b c mark)) as [w |] eqn:E; [| reflexivity].
  apply winner_after_place in E; try assumption. subst w.
  simpl in Hw. rewrite String.eqb_refl in Hw. discriminate Hw.
Qed.

(** X21.  A click changes nothing unless the cell clicked is drawn as a button:
    not on a cell outside the grid or a cell that holds a mark, not while
    the game is inactive, not once somebody has won. *)
Theorem click_needs_a_button (limit : nat) (g : rng) (now : Q)
    (option_ : string) (s : Session) (d : disk) (i j : Z) (w : option cell) :
  is_3x3 (game_board (game s)) ->
  check_winner (game s) = Ok w ->
  ~ in_grid (i, j) \/ cell_at (game_board (game s)) (i, j) <> blank
  \/ game_active s = false \/ winner_truthy w = true ->
  game_area (Some (i, j)) limit g now option_ s d = (s, d, Ok tt).
Proof.
  intros Hb Hw Hno. rewrite (game_area_grid _ limit g now option_ s d Hb).
  unfold check_winner in Hw. rewrite (check_winner_board_grid _ Hb) in Hw.
  injection Hw as <-.
  destruct (bool_decide (in_grid (i, j))) eqn:Hgrid; [| reflexivity].
  apply bool_decide_eq_true in Hgrid. unfold is_button, is_blank.
  destruct Hno as [Hno | [Hno | [Hno | Hno]]].
  - contradiction.
  - apply String.eqb_neq in Hno. rewrite Hno. reflexivity.
  - rewrite Hno, andb_false_r. reflexivity.
  - rewrite Hno, andb_false_r. reflexivity.
Qed.

Lemma click_needs_a_button_witness :
  let s := {| game := {| game_board := [["X"; "O"; " "]; [" "; "X"; " "];
                                        ["O"; " "; "X"]];
                         current_player := "X"; move_count := 5;
                         start_time := Some (100 # 1) |};
              game_active := false; combo := 1;
              session_stats := default_stats;
              session_difficulty := EASY; ai := default_ai EASY |} in
  game_area (Some (0, 2)) 9 {| random := 0 # 1; randbelow := 0 |} (130 # 1)
    "EASY" s {| files := ∅; read_only := false |}
  = (s, {| files := ∅; read_only := false |}, Ok tt).
Proof.
  intros s.
  apply (click_needs_a_button 9 _ _ "EASY" s _ 0 2 (Some "X")).
  - apply is_3x3_intro.
  - reflexivity.
  - right. right. left. reflexivity.
Defined.

(** One round of the game, as a click on a button plays it. *)
Lemma click_round (limit : nat) (g : rng) (now t0 : Q)
    (option_ : string) (s : Session) (d : disk) (r : ScoreRecord) (i j : Z) :
  is_3x3 (game_board (game s)) -> players_ok (ai s) ->
  game_active s = true -> check_winner (game s) = Ok None ->
  in_grid (i, j) -> cell_at (game_board (game s)) (i, j) = blank ->
  (count_blank (game_board (game s)) <= S limit)%nat ->
  start_time (game s) = Some t0 -> session_stats s = to_dict r ->
  known_difficulty option_ ->
  exists s' d',
    game_area (Some (i, j)) limit g now option_ s d = (s', d', Ok tt)
    /\ let b1 := place (game_board (game s)) (i, j) "X" in
       let b' := game_board (game s') in
       match outcome b1 with
       | Some _ =>
           b' = b1 /\ move_count (game s') = move_count (game s) + 1
       | None =>
           exists m,
             find_best_move (ai s) limit g b1 = Ok (m, b1)
             /\ In m (blank_cells b1) /\ b' = place b1 m "O"
             /\ move_count (game s') = move_count (game s) + 2
       end
       /\ match outcome b' with
          | Some result =>
              let r' := (update_record result (int_of_Q (Qminus now t0))
                           option_ r).1 in
              game_active s' = false
              /\ combo s' = (if String.eqb result "W" then combo s + 1 else 0)
              /\ session_stats s' = to_dict r'
              /\ d' = web_save_stats (to_dict r') d
          | None =>
              game_active s' = true /\ combo s' = combo s
              /\ session_stats s' = session_stats s /\ d' = d
          end
       /\ ai s' = ai s /\ session_difficulty s' = session_difficulty s
       /\ start_time (game s') = start_time (game s).
Proof.
  intros Hb Hplayers Hactive Hnone Hgrid Hblank Hlimit Hstart Hstats Hoption.
  unfold check_winner in Hnone. rewrite (check_winner_board_grid _ Hb) in Hnone.
  injection Hnone as Hnone.
  assert (In (i, j) (blank_cells (game_board (game s)))) as Hc
    by (apply blank_cells_spec; auto).
  rewrite (game_area_grid _ limit g now option_ s d Hb).
  rewrite (bool_decide_eq_true_2 _ Hgrid).
  unfold is_button, is_blank. rewrite Hblank, Hactive, Hnone.
  cbn [String.eqb Ascii.eqb Bool.eqb blank winner_truthy negb andb].
  rewrite (click_cell_round limit g now t0 option_ s d r (i, j)
             Hb Hplayers Hc Hlimit Hstart Hstats Hoption).
  cbv zeta.
  set (b1 := place (game_board (game s)) (i, j) "X").
  assert (is_3x3 b1) as Hb1 by (apply place_3x3; assumption).
  assert (winner_is (winner_of b1) "O" = false) as HO1
    by (apply outcome_after_move; auto; discriminate).
  destruct (winner_is (winner_of b1) "X") eqn:HX1.
  { assert (outcome b1 = Some "W") as Hout
      by (unfold outcome; rewrite HX1; reflexivity).
    eexists _, _. split; [reflexivity |].
    cbn [ended game game_board moved move_count start_time game_active combo
         session_stats ai session_difficulty].
    rewrite Hout. repeat split; reflexivity. }
  destruct (all_marked b1) eqn:Hfull1.
  { assert (outcome b1 = Some "D") as Hout
      by (unfold outcome; rewrite HX1, HO1, Hfull1; reflexivity).
    eexists _, _. split; [reflexivity |].
    cbn [ended game game_board moved move_count start_time game_active combo
         session_stats ai session_difficulty].
    rewrite Hout. repeat split; reflexivity. }
  assert (winner_of b1 = None) as Hnone1
    by (apply winner_after_mark; assumption).
  assert (blank_cells b1 <> []) as Hne1.
  { intros E. apply all_marked_blank_cells in E; [congruence | assumption]. }
  assert (count_blank b1 <= limit)%nat as Hlimit1.
  { pose proof (count_blank_place (game_board (game s)) (i, j) "X" Hb Hgrid)
      as Hcount.
    unfold is_blank in Hcount. rewrite Hblank in Hcount.
    specialize (Hcount eq_refl ltac:(discriminate)). fold b1 in Hcount. lia. }
  destruct (find_best_move_empty_cell (ai s) limit g b1 Hplayers Hb1 Hlimit1 Hne1)
    as (m & Hm & Hin).
  rewrite Hm. cbv zeta.
  apply blank_cells_spec in Hin as Hin'. destruct Hin' as [Hmgrid Hmblank].
  set (b2 := place b1 m "O").
  assert (winner_is (winner_of b2) "X" = false) as HX2
    by (apply outcome_after_move; auto; discriminate).
  assert (outcome b1 = None) as Hout1
    by (unfold outcome; rewrite HX1, HO1, Hfull1; reflexivity).
  rewrite Hout1.
  destruct (winner_is (winner_of b2) "O") eqn:HO2.
  { assert (outcome b2 = Some "L") as Hout
      by (unfold outcome; rewrite HX2, HO2; reflexivity).
    eexists _, _. split; [reflexivity |].
    cbn [ended game game_board moved move_count start_time game_active combo
         session_stats ai session_difficulty].
    rewrite Hout. split; [exists m; auto |]. repeat split; reflexivity. }
  destruct (all_marked b2) eqn:Hfull2.
  { assert (outcome b2 = Some "D") as Hout
      by (unfold outcome; rewrite HX2, HO2, Hfull2; reflexivity).
    eexists _, _. split; [reflexivity |].
    cbn [ended game game_board moved move_count start_time game_active combo
         session_stats ai session_difficulty].
    rewrite Hout. split; [exists m; auto |]. repeat split; reflexivity. }
  assert (outcome b2 = None) as Hout
    by (unfold outcome; rewrite HX2, HO2, Hfull2; reflexivity).
  eexists _, _. split; [reflexivity |].
  cbn [set_game game game_board moved move_count start_time game_active combo
       session_stats ai session_difficulty].
  rewrite Hout. split; [exists m; auto |]. repeat split; auto.
Qed.

(** X22.  A click on a button plays one round.  The player's mark goes on the
    cell; unless that ends the game, the opponent marks the empty cell
    [find_best_move] returns.  When the board that results is won or full
    the game becomes inactive, the score record is updated and saved once,
    under the result that matches the board, and the combo goes up for a
    win and back to 0 otherwise; when it is not, the game stays active and
    record, file and combo are as before. *)
Theorem click_plays_a_round (limit : nat) (g : rng) (now t0 : Q)
    (option_ : string) (s : Session) (d : disk) (r : ScoreRecord) (i j : Z) :
  is_3x3 (game_board (game s)) -> players_ok (ai s) ->
  game_active s = true -> check_winner (game s) = Ok None ->
  in_grid (i, j) -> cell_at (game_board (game s)) (i, j) = blank ->
  (count_blank (game_board (game s)) <= S limit)%nat ->
  start_time (game s) = Some t0 -> session_stats s = to_dict r ->
  known_difficulty option_ ->
  exists s' d',
    game_area (Some (i, j)) limit g now option_ s d = (s', d', Ok tt)
    /\ let b1 := place (game_board (game s)) (i, j) "X" in
       let b' := game_board (game s') in
       match outcome b1 with
       | Some _ =>
           b' = b1 /\ move_count (game s') = move_count (game s) + 1
       | None =>
           exists m,
             find_best_move (ai s) limit g b1 = Ok (m, b1)
             /\ In m (blank_cells b1) /\ b' = place b1 m "O"
             /\ move_count (game s') = move_count (game s) + 2
       end
       /\ match outcome b' with
          | Some result =>
              let r' := (update_record result (int_of_Q (Qminus now t0))
                           option_ r).1 in
              game_active s' = false
              /\ combo s' = (if String.eqb result "W" then combo s + 1 else 0)
              /\ session_stats s' = to_dict r'
              /\ d' = web_save_stats (to_dict r') d
          | None =>
              game_active s' = true /\ combo s' = combo s
              /\ session_stats s' = session_stats s /\ d' = d
          end
       /\ ai s' = ai s /\ session_difficulty s' = session_difficulty s
       /\ start_time (game s') = start_time (game s).
Proof. apply click_round. Qed.

Lemma click_plays_a_round_witness :
  let s := {| game := {| game_board := [["X"; "X"; " "]; ["O"; "O"; " "];
                                        [" "; " "; " "]];
                         current_player := "X"; move_count := 4;
                         start_time := Some (100 # 1) |};
              game_active := true; combo := 2;
              session_stats := default_stats;
              session_difficulty := HARD; ai := default_ai HARD |} in
  exists s' d',
    game_area (Some (0, 2)) 9 {| random := 0 # 1; randbelow := 0 |} (1303 # 10)
      "HARD" s {| files := ∅; read_only := false |}
    = (s', d', Ok tt)
    /\ game_active s' = false /\ combo s' = 3.
Proof.
  intros s.
  destruct (click_plays_a_round 9 {| random := 0 # 1; randbelow := 0 |}
              (1303 # 10) (100 # 1) "HARD" s
              {| files := ∅; read_only := false |}
              {| wins := 0; losses := 0; draws := 0; win_streak := 0;
                 best_time := None; games_played := 0; easy_wins := 0;
                 medium_wins := 0; hard_wins := 0 |} 0 2)
    as (s' & d' & Hrun & _ & Hend & _).
  - apply is_3x3_intro.
  - apply default_players_ok.
  - reflexivity.
  - reflexivity.
  - unfold in_grid; simpl; lia.
  - reflexivity.
  - vm_compute. lia.
  - reflexivity.
  - reflexivity.
  - right. right. reflexivity.
  - exists s', d'. split; [exact Hrun |].
    assert (outcome (game_board (game s')) = Some "W") as Hout.
    { vm_compute in Hrun. injection Hrun as <- _. reflexivity. }
    rewrite Hout in Hend. destruct Hend as (Ha & Hc & _).
    split; [exact Ha | exact Hc].
Defined.

(** ** Runs of the script one after the other *)

Lemma select_difficulty_known (option_ : string) (s : Session) :
  known_difficulty option_ -> ai s = default_ai (session_difficulty s) ->
  exists dd,
    lookup_literal diff_map option_ = Ok dd
    /\ select_difficulty option_ s
       = Ok {| game := game s; game_active := game_active s; combo := combo s;
               session_stats := session_stats s;
               session_difficulty := dd; ai := default_ai dd |}.
Proof.
  intros Hknown Hai. destruct s as [gm act cmb st dif a]. cbn in Hai. subst a.
  destruct Hknown as [-> | [-> | ->]]; eexists; (split; [reflexivity |]);
    destruct dif; reflexivity.
Qed.

Lemma outcome_win (b : board) (result : string) :
  outcome b = Some result ->
  winner_is (winner_of b) "X" = false -> result <> "W".
Proof.
  unfold outcome. intros H HX. rewrite HX in H.
  destruct (winner_is (winner_of b) "O"); [injection H as <-; discriminate |].
  destruct (all_marked b); [injection H as <-; discriminate | discriminate H].
Qed.

Lemma winner_is_X (b : board) :
  winner_of b <> Some "X" -> winner_is (winner_of b) "X" = false.
Proof.
  intros H. destruct (winner_of b) as [w |]; [| reflexivity]. simpl.
  apply String.eqb_neq. intros ->. apply H. reflexivity.
Qed.

Lemma update_record_wins (result : string) (time_taken : Z)
    (difficulty : string) (r : ScoreRecord) :
  result <> "W" ->
  wins (update_record result time_taken difficulty r).1 = wins r.
Proof.
  intros H. apply String.eqb_neq in H.
  pose proof (update_record_tally result time_taken difficulty r) as Htally.
  cbv zeta in Htally. destruct Htally as (_ & Htally & _).
  rewrite H in Htally.
  destruct (String.eqb result "L"); injection Htally as Hw _ _; exact Hw.
Qed.

(** A click either changes nothing or falls on a button of a game that is
    not over. *)
Lemma click_cases (c : Z * Z) (limit : nat) (g : rng) (now : Q)
    (option_ : string) (s : Session) (d : disk) :
  session_ok s ->
  game_area (Some c) limit g now option_ s d = (s, d, Ok tt)
  \/ (in_grid c /\ cell_at (game_board (game s)) c = blank
      /\ game_active s = true /\ winner_of (game_board (game s)) = None).
Proof.
  intros (Hb & _ & _ & _ & Hwin & _).
  rewrite (game_area_grid _ limit g now option_ s d Hb).
  destruct (bool_decide (in_grid c)) eqn:Hgrid; [| left; reflexivity].
  apply bool_decide_eq_true in Hgrid. unfold is_button, is_blank.
  destruct (String.eqb (cell_at (game_board (game s)) c) blank) eqn:Hblank;
    [| left; reflexivity].
  destruct (game_active s) eqn:Hactive; [| left; reflexivity].
  destruct Hwin as [Hw | [Hw | Hw]]; rewrite Hw; [| left; reflexivity ..].
  right. apply String.eqb_eq in Hblank. auto.
Qed.

Lemma session_ok_new_game (now : Q) (s : Session) :
  session_ok s -> session_ok (new_game_button now s).
Proof.
  intros (_ & Hai & _ & Hstats & _).
  split; [apply is_3x3_intro |]. split; [exact Hai |].
  split; [exists now; reflexivity |]. split; [exact Hstats |].
  split; [left; reflexivity |]. split; [split; reflexivity | reflexivity].
Qed.

Lemma winner_choices (b : board) (c : Z * Z) (mark : cell) :
  is_3x3 b -> in_grid c -> winner_of b = None ->
  winner_of (place b c mark) = None \/ winner_of (place b c mark) = Some mark.
Proof.
  intros Hb Hc Hnone.
  destruct (winner_of (place b c mark)) as [w |] eqn:E; [| left; reflexivity].
  apply winner_after_place in E; try assumption. subst w. right. reflexivity.
Qed.

Lemma outcome_none (b : board) :
  outcome b = None ->
  winner_is (winner_of b) "X" = false /\ winner_is (winner_of b) "O" = false
  /\ all_marked b = false.
Proof.
  unfold outcome.
  destruct (winner_is (winner_of b) "X"); [discriminate |].
  destruct (winner_is (winner_of b) "O"); [discriminate |].
  destruct (all_marked b); [discriminate | auto].
Qed.

(** A round from a session in good order leaves a session in good order. *)
Lemma session_ok_click (c : Z * Z) (limit : nat) (g : rng) (now : Q)
    (option_ : string) (s : Session) (d : disk) :
  session_ok s -> known_difficulty option_ -> (8 <= limit)%nat ->
  session_ok (game_area (Some c) limit g now option_ s d).1.1
  /\ session_difficulty (game_area (Some c) limit g now option_ s d).1.1
     = session_difficulty s.
Proof.
  intros Hok Hknown Hlimit.
  destruct (click_cases c limit g now option_ s d Hok)
    as [-> | (Hgrid & Hblank & Hactive & Hnone)]; [auto |].
  destruct Hok as (Hb & Hai & [t0 Hstart] & [r Hstats] & _ & _ & Hcount).
  destruct c as [i j].
  pose proof (count_blank_le_9 (game_board (game s))) as H9.
  destruct (click_round limit g now t0 option_ s d r i j)
    as (s' & d' & Hrun & Hboard & Hend & Hai' & Hdiff' & Hstart');
    try assumption.
  { rewrite Hai. apply default_players_ok. }
  { unfold check_winner. rewrite (check_winner_board_grid _ Hb), Hnone.
    reflexivity. }
  { lia. }
  rewrite Hrun. cbn [fst]. split; [| exact Hdiff'].
  cbv zeta in Hboard, Hend.
  set (b1 := place (game_board (game s)) (i, j) "X") in *.
  assert (is_3x3 b1) as Hb1 by (apply place_3x3; assumption).
  pose proof (count_blank_place (game_board (game s)) (i, j) "X" Hb Hgrid)
    as Hcount1.
  unfold is_blank in Hcount1. rewrite Hblank in Hcount1.
  specialize (Hcount1 eq_refl ltac:(discriminate)). fold b1 in Hcount1.
  assert (is_3x3 (game_board (game s'))
          /\ (winner_of (game_board (game s')) = None
              \/ winner_of (game_board (game s')) = Some "X"
              \/ winner_of (game_board (game s')) = Some "O")
          /\ move_count (game s')
             = 9 - Z.of_nat (count_blank (game_board (game s'))))
    as (Hb' & Hwin' & Hcount').
  { destruct (outcome b1) eqn:Hout1.
    - destruct Hboard as [-> Hmc]. split; [exact Hb1 |]. split; [| lia].
      destruct (winner_choices (game_board (game s)) (i, j) "X" Hb Hgrid Hnone);
        auto.
    - destruct Hboard as (m & _ & Hin & -> & Hmc).
      apply blank_cells_spec in Hin as [Hmgrid Hmblank].
      apply outcome_none in Hout1 as (HX1 & _ & _).
      assert (winner_of b1 = None) as Hnone1
        by (apply winner_after_mark; assumption).
      split; [apply place_3x3; assumption |]. split.
      + destruct (winner_choices b1 m "O" Hb1 Hmgrid Hnone1); auto.
      + pose proof (count_blank_place b1 m "O" Hb1 Hmgrid) as Hcount2.
        unfold is_blank in Hcount2. rewrite Hmblank in Hcount2.
        specialize (Hcount2 eq_refl ltac:(discriminate)). lia. }
  split; [exact Hb' |]. split; [congruence |].
  split; [exists t0; congruence |].
  destruct (outcome (game_board (game s'))) as [result |] eqn:Hout'.
  - cbv zeta in Hend. destruct Hend as (Hact' & _ & Hst' & _).
    split; [eexists; exact Hst' |]. split; [exact Hwin' |].
    split; [| exact Hcount']. rewrite Hact'. split; discriminate.
  - destruct Hend as (Hact' & _ & Hst' & _).
    split; [exists r; congruence |]. split; [exact Hwin' |].
    split; [| exact Hcount']. rewrite Hact'. split; reflexivity.
Qed.

Section Runs.
Variable show_statistics : pyval -> Z -> res unit.

Lemma web_run_ok (inp : run_input) (s : Session) (d : disk) :
  session_ok s -> known_difficulty (radio inp) -> (8 <= call_limit inp)%nat ->
  session_ok (web_run show_statistics inp (s, d)).1
  /\ lookup_literal diff_map (radio inp)
     = Ok (session_difficulty (web_run show_statistics inp (s, d)).1).
Proof.
  intros Hok Hknown Hlimit.
  pose proof Hok as (Hb & Hai & Hstart & Hstats & Hwin & Hact & Hcount).
  destruct (select_difficulty_known (radio inp) s Hknown Hai)
    as (dd & Hdd & Hsel).
  unfold web_run. cbn [fst snd]. rewrite Hsel.
  set (s1 := {| game := game s; game_active := game_active s;
                combo := combo s; session_stats := session_stats s;
                session_difficulty := dd; ai := default_ai dd |}).
  assert (session_ok s1) as Hok1
    by exact (conj Hb (conj eq_refl (conj Hstart (conj Hstats
                (conj Hwin (conj Hact Hcount)))))).
  destruct (show_statistics (session_stats s1) (combo s1));
    [| split; [exact Hok1 | exact Hdd]].
  destruct (act inp) as [| | | i j].
  - rewrite (game_area_grid None _ _ _ _ s1 d Hb). auto.
  - split; [apply session_ok_new_game; exact Hok1 | exact Hdd].
  - split; [| exact Hdd].
    assert (exists r, default_stats = to_dict r) as Hdefault
      by (exists {| wins := 0; losses := 0; draws := 0; win_streak := 0;
                    best_time := None; games_played := 0; easy_wins := 0;
                    medium_wins := 0; hard_wins := 0 |}; reflexivity).
    exact (conj Hb (conj eq_refl (conj Hstart (conj Hdefault
             (conj Hwin (conj Hact Hcount)))))).
  - destruct (session_ok_click (i, j) (call_limit inp) (chance inp) (clock inp)
                (radio inp) s1 d Hok1 Hknown Hlimit) as [Hok' Hdiff'].
    split; [exact Hok' |]. rewrite Hdiff'. exact Hdd.
Qed.

Lemma outcome_some_full (b : board) (result : string) :
  outcome b = Some result -> winner_of b = None -> all_marked b = true.
Proof.
  unfold outcome. intros H Hnone. rewrite Hnone in H. cbn in H.
  destruct (all_marked b); [reflexivity | discriminate H].
Qed.

(** A round against the hardest difficulty, from a position in which the
    human cannot force a win, leads to such a position again and is not
    won by the human. *)
Lemma hard_session_click (wins0 : Z) (c : Z * Z) (limit : nat) (g : rng)
    (now : Q) (s : Session) (d : disk) :
  session_ok s -> hard_session wins0 s -> (8 <= limit)%nat ->
  hard_session wins0 (game_area (Some c) limit g now "HARD" s d).1.1.
Proof.
  intros Hok Hhard Hlimit.
  destruct (click_cases c limit g now "HARD" s d Hok)
    as [-> | (Hgrid & Hblank & Hactive & Hnone)]; [exact Hhard |].
  destruct Hok as (Hb & Hai & [t0 Hstart] & _ & _ & _ & _).
  destruct Hhard as (Hdiff & HnX & Hsafe & (r & Hstats & Hwins)).
  rewrite Hdiff in Hai.
  pose proof (default_players_ok HARD) as Hplayers.
  destruct c as [i j].
  pose proof (count_blank_le_9 (game_board (game s))) as H9.
  assert (In (i, j) (blank_cells (game_board (game s)))) as Hc
    by (apply blank_cells_spec; auto).
  assert (all_marked (game_board (game s)) = false) as Hnotfull.
  { destruct (all_marked (game_board (game s))) eqn:E; [| reflexivity].
    apply all_marked_blank_cells in E; [| assumption].
    rewrite E in Hc. destruct Hc. }
  set (b1 := place (game_board (game s)) (i, j) "X").
  assert (is_3x3 b1) as Hb1 by (apply place_3x3; assumption).
  assert (avoids_defeat (default_ai HARD) b1 true = true) as Hsafe1.
  { specialize (Hsafe Hnone Hnotfull).
    rewrite (avoids_defeat_step (default_ai HARD) Hplayers _ false
               Hb Hnone Hnotfull) in Hsafe.
    exact (proj1 (every_cell_forall _ _) Hsafe (i, j) Hc). }
  assert (winner_of b1 <> Some "X") as HnX1.
  { intros Hw.
    rewrite (avoids_defeat_lost (default_ai HARD) Hplayers b1 true Hw) in Hsafe1.
    discriminate Hsafe1. }
  pose proof (count_blank_place (game_board (game s)) (i, j) "X" Hb Hgrid)
    as Hcount1.
  unfold is_blank in Hcount1. rewrite Hblank in Hcount1.
  specialize (Hcount1 eq_refl ltac:(discriminate)). fold b1 in Hcount1.
  destruct (click_round limit g now t0 "HARD" s d r i j)
    as (s' & d' & Hrun & Hboard & Hend & Hai' & Hdiff' & _);
    try assumption.
  { rewrite Hai. exact Hplayers. }
  { unfold check_winner. rewrite (check_winner_board_grid _ Hb), Hnone.
    reflexivity. }
  { lia. }
  { right. right. reflexivity. }
  rewrite Hrun. cbn [fst]. cbv zeta in Hboard, Hend. fold b1 in Hboard.
  assert (winner_of (game_board (game s')) <> Some "X"
          /\ (winner_of (game_board (game s')) = None ->
              all_marked (game_board (game s')) = false ->
              avoids_defeat (default_ai HARD) (game_board (game s')) false
              = true)) as [HnX' Hsafe'].
  { destruct (outcome b1) eqn:Hout1.
    - destruct Hboard as [-> _]. split; [exact HnX1 |].
      intros Hnone1 Hfull1.
      rewrite (outcome_some_full b1 _ Hout1 Hnone1) in Hfull1.
      discriminate Hfull1.
    - destruct Hboard as (m & Hm & Hin & -> & _).
      apply outcome_none in Hout1 as (HX1 & _ & Hfull1).
      assert (winner_of b1 = None) as Hnone1
        by (apply winner_after_mark; assumption).
      assert (blank_cells b1 <> []) as Hne1
        by (intros E; rewrite E in Hin; destruct Hin).
      assert (count_blank b1 <= limit)%nat as Hlimit1 by lia.
      destruct (hard_returns_best (default_ai HARD) Hplayers limit g b1
                  eq_refl Hb1 Hlimit1 Hne1) as (m' & Hm' & Hbest).
      rewrite Hai, Hm' in Hm. injection Hm as ->.
      pose proof (best_set_avoids_defeat (default_ai HARD) Hplayers limit b1 m
                    Hb1 Hlimit1 Hnone1 Hfull1 Hsafe1 Hbest) as Hsafe2.
      change (ai_player (default_ai HARD)) with "O" in Hsafe2.
      split; [| intros _ _; exact Hsafe2].
      intros Hw.
      rewrite (avoids_defeat_lost (default_ai HARD) Hplayers _ false Hw)
        in Hsafe2.
      discriminate Hsafe2. }
  split; [congruence |]. split; [exact HnX' |]. split; [exact Hsafe' |].
  destruct (outcome (game_board (game s'))) as [result |] eqn:Hout'.
  - cbv zeta in Hend. destruct Hend as (_ & _ & Hst' & _).
    eexists. split; [exact Hst' |].
    rewrite update_record_wins; [exact Hwins |].
    apply (outcome_win _ _ Hout'), winner_is_X, HnX'.
  - destruct Hend as (_ & _ & Hst' & _).
    exists r. split; [congruence | exact Hwins].
Qed.

(** From the empty board, with the human to move, the computer can avoid
    defeat. *)
Lemma empty_board_safe :
  avoids_defeat (default_ai HARD) empty_board false = true.
Proof. vm_compute. reflexivity. Qed.

Lemma web_run_hard (wins0 : Z) (inp : run_input) (s : Session) (d : disk) :
  session_ok s -> hard_session wins0 s ->
  radio inp = "HARD" -> (8 <= call_limit inp)%nat ->
  hard_session wins0 (web_run show_statistics inp (s, d)).1.
Proof.
  intros Hok Hhard Hradio Hlimit.
  pose proof Hok as (Hb & Hai & _).
  pose proof Hhard as (Hdiff & HnX & Hsafe & Hstats).
  assert (select_difficulty "HARD" s = Ok s) as Hsel
    by (unfold select_difficulty; cbn; rewrite Hdiff; reflexivity).
  unfold web_run. rewrite Hradio. cbn [fst snd]. rewrite Hsel.
  destruct (show_statistics (session_stats s) (combo s)); [| exact Hhard].
  destruct (act inp) as [| | | i j].
  - rewrite (game_area_grid None _ _ _ _ s d Hb). exact Hhard.
  - split; [exact Hdiff |]. split; [discriminate |].
    split; [| exact Hstats]. intros _ _. exact empty_board_safe.
  - split; [exact Hdiff |]. split; [exact HnX |]. split; [exact Hsafe |].
    exists {| wins := 0; losses := 0; draws := 0; win_streak := 0;
              best_time := None; games_played := 0; easy_wins := 0;
              medium_wins := 0; hard_wins := 0 |}.
    split; [reflexivity | right; reflexivity].
  - apply hard_session_click; assumption.
Qed.

Lemma on_file_read (d : disk) (path : string) (r : ScoreRecord) :
  on_file d path r ->
  (exists_file d path = true /\ read_json d path = Ok (to_dict r))
  \/ (exists_file d path = false /\ r = first_record).
Proof.
  unfold exists_file, read_json. intros [Hfile | [Hfile ->]]; rewrite Hfile.
  - left. split; [reflexivity |].
    apply loads_dumps, to_dict_well_formed.
  - right. split; reflexivity.
Qed.

Lemma on_file_web (d : disk) (r : ScoreRecord) :
  on_file d web_stats_file r -> web_load_stats d = to_dict r.
Proof.
  intros Hfile. unfold web_load_stats.
  destruct (on_file_read d _ r Hfile) as [[-> ->] | [-> ->]]; reflexivity.
Qed.

Lemma on_file_desktop (d : disk) (r : ScoreRecord) :
  on_file d "tictactoe_stats.json" r ->
  new_stats d = {| stats_file := "tictactoe_stats.json"; stats := to_dict r |}.
Proof.
  intros Hfile. unfold new_stats, load_stats. cbn [stats_file].
  destruct (on_file_read d _ r Hfile) as [[-> ->] | [-> ->]]; reflexivity.
Qed.

Lemma init_session_ok (now : Q) (d : disk) (r : ScoreRecord) :
  on_file d web_stats_file r ->
  session_ok (init_session now d) /\ hard_session (wins r) (init_session now d).
Proof.
  intros Hload%on_file_web. split.
  - split; [apply is_3x3_intro |]. split; [reflexivity |].
    split; [exists now; reflexivity |]. split; [exists r; exact Hload |].
    split; [left; reflexivity |]. split; [split; reflexivity | reflexivity].
  - split; [reflexivity |]. split; [discriminate |].
    split; [intros _ _; exact empty_board_safe |].
    exists r. split; [exact Hload | left; reflexivity].
Qed.

Lemma web_runs_ok (inps : list run_input) :
  forall (s : Session) (d : disk),
    session_ok s ->
    Forall (fun inp => known_difficulty (radio inp)
                       /\ (8 <= call_limit inp)%nat) inps ->
    session_ok (web_runs show_statistics inps (s, d)).1
    /\ (forall inp, last inps = Some inp ->
          lookup_literal diff_map (radio inp)
          = Ok (session_difficulty (web_runs show_statistics inps (s, d)).1)).
Proof.
  induction inps as [|inp inps IH]; intros s d Hok Hall.
  - split; [exact Hok | discriminate].
  - inversion Hall as [|? ? [Hknown Hlimit] Hrest]; subst.
    destruct (web_run_ok inp s d Hok Hknown Hlimit) as [Hok1 Hdiff1].
    unfold web_runs. cbn [fold_left].
    destruct (web_run show_statistics inp (s, d)) as [s1 d1] eqn:Hrun. cbn [fst] in *.
    destruct (IH s1 d1 Hok1 Hrest) as [Hok' Hlast'].
    split; [exact Hok' |].
    intros inp'. destruct inps as [|inp2 inps'].
    + intros [= <-]. exact Hdiff1.
    + intros Hlast. apply Hlast'. exact Hlast.
Qed.

Lemma web_runs_hard (wins0 : Z) (inps : list run_input) :
  forall (s : Session) (d : disk),
    session_ok s -> hard_session wins0 s ->
    Forall (fun inp => radio inp = "HARD" /\ (8 <= call_limit inp)%nat) inps ->
    hard_session wins0 (web_runs show_statistics inps (s, d)).1.
Proof.
  induction inps as [|inp inps IH]; intros s d Hok Hhard Hall; [exact Hhard |].
  inversion Hall as [|? ? [Hradio Hlimit] Hrest]; subst.
  assert (known_difficulty (radio inp)) as Hknown
    by (rewrite Hradio; right; right; reflexivity).
  destruct (web_run_ok inp s d Hok Hknown Hlimit) as [Hok1 _].
  pose proof (web_run_hard wins0 inp s d Hok Hhard Hradio Hlimit) as Hhard1.
  unfold web_runs. cbn [fold_left].
  destruct (web_run show_statistics inp (s, d)) as [s1 d1]. cbn [fst] in *.
  apply IH; assumption.
Qed.
End Runs.

(** X23.  A session stays in good order.  After any sequence of runs in which
    the radio button shows one of its three options, the board is
    well-formed, the opponent is the one of the option shown in the last
    run, the game is active exactly while nobody has won and the board is
    not full, and [move_count] is the number of marks on the board.  This
    holds whether or not the statistics can be shown in a run. *)
Theorem session_stays_in_order (show_statistics : pyval -> Z -> res unit)
    (now : Q) (d : disk) (r : ScoreRecord) (inps : list run_input) :
  on_file d web_stats_file r ->
  Forall (fun inp => known_difficulty (radio inp)
                     /\ (8 <= call_limit inp)%nat) inps ->
  let s := (web_runs show_statistics inps (init_session now d, d)).1 in
  let b := game_board (game s) in
  is_3x3 b
  /\ ai s = default_ai (session_difficulty s)
  /\ (forall inp, last inps = Some inp ->
        lookup_literal diff_map (radio inp) = Ok (session_difficulty s))
  /\ (game_active s = true <-> outcome b = None)
  /\ move_count (game s) = 9 - Z.of_nat (count_blank b)
  /\ exists r', session_stats s = to_dict r'.
Proof.
  intros Hload Hall. cbv zeta.
  destruct (init_session_ok now d r Hload) as [Hok _].
  destruct (web_runs_ok show_statistics inps (init_session now d) d Hok Hall)
    as [(Hb & Hai & _ & Hstats & _ & Hact & Hcount) Hlast].
  auto 10.
Qed.

Lemma session_stays_in_order_witness :
  let inps := [ {| act := ClickCell 1 1; radio := "EASY"; clock := 12 # 1;
                   chance := {| random := 0 # 1; randbelow := 3 |};
                   call_limit := 900 |} ] in
  let s := (web_runs (fun _ _ => Ok tt) inps
              (init_session (10 # 1) {| files := ∅; read_only := false |},
               {| files := ∅; read_only := false |})).1 in
  is_3x3 (game_board (game s)) /\ ai s = default_ai (session_difficulty s).
Proof.
  intros inps s.
  destruct (session_stays_in_order (fun _ _ => Ok tt) (10 # 1)
              {| files := ∅; read_only := false |} first_record inps)
    as (Hb & Hai & _).
  - right. split; reflexivity.
  - constructor; [split; [left; reflexivity | cbn; lia] | constructor].
  - split; [exact Hb | exact Hai].
Defined.

(** X24.  The hardest difficulty cannot be beaten.  In a session that starts
    with a score record on file, or with no file, and in which the radio
    button shows [HARD] in every run, whatever cells the player clicks,
    whatever buttons are pressed and whatever the random draws are, the
    board never shows a line completed by the player, no game is recorded
    as won, and the number of wins on record stays what it was, or is 0
    after a reset of the statistics. *)
Theorem hard_never_loses (show_statistics : pyval -> Z -> res unit)
    (now : Q) (d : disk) (r : ScoreRecord) (inps : list run_input) :
  on_file d web_stats_file r ->
  Forall (fun inp => radio inp = "HARD" /\ (8 <= call_limit inp)%nat) inps ->
  let s := (web_runs show_statistics inps (init_session now d, d)).1 in
  check_winner (game s) <> Ok (Some "X")
  /\ outcome (game_board (game s)) <> Some "W"
  /\ exists r', session_stats s = to_dict r'
                /\ (wins r' = wins r \/ wins r' = 0).
Proof.
  intros Hload Hall. cbv zeta.
  destruct (init_session_ok now d r Hload) as [Hok Hhard].
  assert (Forall (fun inp => known_difficulty (radio inp)
                             /\ (8 <= call_limit inp)%nat) inps) as Hall'.
  { eapply List.Forall_impl; [| exact Hall]. intros inp [-> Hl].
    split; [right; right; reflexivity | exact Hl]. }
  destruct (web_runs_ok show_statistics inps (init_session now d) d Hok Hall')
    as [(Hb & _) _].
  destruct (web_runs_hard show_statistics (wins r) inps (init_session now d) d
              Hok Hhard Hall)
    as (_ & HnX & _ & Hstats).
  split; [| split; [| exact Hstats]].
  - unfold check_winner. rewrite (check_winner_board_grid _ Hb). congruence.
  - intros Hout. apply (outcome_win _ _ Hout); [| reflexivity].
    apply winner_is_X. exact HnX.
Qed.

Lemma hard_never_loses_witness :
  let d := {| files := ∅; read_only := false |} in
  let inps := [ {| act := ClickCell 1 1; radio := "HARD"; clock := 12 # 1;
                   chance := {| random := 0 # 1; randbelow := 3 |};
                   call_limit := 8 |} ] in
  check_winner
    (game (web_runs (fun _ _ => Ok tt) inps (init_session (10 # 1) d, d)).1)
  <> Ok (Some "X").
Proof.
  intros d inps.
  destruct (hard_never_loses (fun _ _ => Ok tt) (10 # 1) d first_record inps)
    as (H & _).
  - right. split; reflexivity.
  - constructor; [split; [reflexivity | cbn; lia] | constructor].
  - exact H.
Defined.

(** * The window of the desktop front end *)

(** X25.  [toggle_theme] never shows the light theme.  It sets the other theme
    and then runs [__init__] again, which sets the dark theme: with a score
    file that the program saved, or none, [toggle_theme] returns exactly
    when the text of the score panel can be built, and whatever the theme
    was, the window comes back dark, with a new game, the combo at 0, the
    difficulty at [HARD] and the score record read from the file. *)
Theorem toggle_theme_stays_dark (get_stats_text : pyval -> res string)
    (now : Q) (d : disk) (r : ScoreRecord) (self : TicTacToeGUI) :
  on_file d "tictactoe_stats.json" r ->
  match get_stats_text (to_dict r) with
  | Raise e => toggle_theme get_stats_text now d self = Raise e
  | Ok _ =>
      exists self',
        toggle_theme get_stats_text now d self = Ok self'
        /\ current_theme self' = "dark"
        /\ gui_game self' = started_game now
        /\ gui_game_active self' = true
        /\ current_combo self' = 0
        /\ gui_difficulty self' = HARD /\ gui_ai self' = default_ai HARD
        /\ difficulty_var self' = "HARD"
        /\ gui_stats self'
           = {| stats_file := "tictactoe_stats.json"; stats := to_dict r |}
        /\ scheduled self' = 0%nat
        /\ forall k, in_grid k ->
             button_at (buttons self') k
             = Some {| text := " "; state := "normal";
                       disabledforeground := None; bg := "#16213e" |}
  end.
Proof.
  intros Hfile%on_file_desktop.
  unfold toggle_theme, gui_init. rewrite Hfile. cbn [stats].
  destruct (get_stats_text (to_dict r)) as [t | e]; [| reflexivity].
  eexists. split; [reflexivity |]. cbn.
  repeat (split; [reflexivity |]).
  intros k Hk. cell_cases Hk; reflexivity.
Qed.

Lemma toggle_theme_stays_dark_witness :
  exists self',
    toggle_theme (fun _ => Ok "Total Games: 0") (5 # 1)
      {| files := ∅; read_only := false |}
      {| current_theme := "dark"; gui_game := new_game;
         gui_stats := {| stats_file := "tictactoe_stats.json";
                         stats := default_stats |};
         gui_difficulty := EASY; gui_ai := default_ai EASY;
         buttons := []; gui_game_active := false; current_combo := 3;
         difficulty_var := "EASY"; scheduled := 1 |} = Ok self'
    /\ current_theme self' = "dark".
Proof.
  destruct (toggle_theme_stays_dark (fun _ => Ok "Total Games: 0") (5 # 1)
              {| files := ∅; read_only := false |} first_record
              {| current_theme := "dark"; gui_game := new_game;
                 gui_stats := {| stats_file := "tictactoe_stats.json";
                                 stats := default_stats |};
                 gui_difficulty := EASY; gui_ai := default_ai EASY;
                 buttons := []; gui_game_active := false; current_combo := 3;
                 difficulty_var := "EASY"; scheduled := 1 |})
    as (self' & Hrun & Hdark & _).
  - right. split; reflexivity.
  - exists self'. split; [exact Hrun | exact Hdark].
Defined.

Section Window.
Variable get_stats_text : pyval -> res string.
Variables (self : TicTacToeGUI) (d : disk) (file : string) (r : ScoreRecord).
Variable t0 : Q.
Hypothesis Hb : is_3x3 (game_board (gui_game self)).
Hypothesis Hbuttons : is_grid (buttons self).
Hypothesis Htheme : current_theme self = "dark" \/ current_theme self = "light".
Hypothesis Hstart : start_time (gui_game self) = Some t0.
Hypothesis Hstats : gui_stats self = {| stats_file := file; stats := to_dict r |}.
Hypothesis Hvar : known_difficulty (difficulty_var self).

Lemma update_button_grid (c : Z * Z) (player : cell) :
  in_grid c ->
  exists accent,
    get_theme_color (current_theme self) "accent" = Ok accent
    /\ update_button self (fst c) (snd c) player
       = Ok (set_buttons self
               (put_button (buttons self) c (marked_button accent player))).
Proof.
  intros Hc.
  assert (exists accent, get_theme_color (current_theme self) "accent"
                         = Ok accent) as [accent Haccent]
    by (destruct Htheme as [-> | ->]; eexists; reflexivity).
  exists accent. split; [exact Haccent |].
  unfold update_button. rewrite Haccent.
  destruct (is_grid_inv _ Hbuttons)
    as (x0 & x1 & x2 & y0 & y1 & y2 & z0 & z1 & z2 & ->).
  cell_cases Hc; reflexivity.
Qed.

(** [check_game_over] while the game goes on. *)
Lemma check_game_over_continue (now : Q) :
  winner_of (game_board (gui_game self)) = None ->
  all_marked (game_board (gui_game self)) = false ->
  check_game_over get_stats_text now self d = (self, d, Ok false).
Proof.
  intros Hnone Hfull. unfold check_game_over, check_winner, is_board_full.
  rewrite (check_winner_board_grid _ Hb), Hnone, Hfull. reflexivity.
Qed.

(** [check_game_over] on a board with a completed line: the game is
    recorded as won when the line is the player's and as lost otherwise,
    and the line is coloured. *)
Lemma check_game_over_won (now : Q) (w : cell) :
  winner_of (game_board (gui_game self)) = Some w -> w <> EmptyString ->
  let result := if String.eqb w "X" then "W" else "L" in
  let r' := (update_record result (int_of_Q (Qminus now t0))
               (difficulty_var self) r).1 in
  let st' := {| stats_file := file; stats := to_dict r' |} in
  exists color,
    get_theme_color (current_theme self)
      (if String.eqb w "X" then "win" else "lose") = Ok color
    /\ check_game_over get_stats_text now self d
       = ({| current_theme := current_theme self; gui_game := gui_game self;
             gui_stats := st'; gui_difficulty := gui_difficulty self;
             gui_ai := gui_ai self;
             buttons :=
               paint color
                 (default [] (option_map line_cells
                                (first_line (game_board (gui_game self)) lines)))
                 (buttons self);
             gui_game_active := false;
             current_combo :=
               if String.eqb w "X" then current_combo self + 1 else 0;
             difficulty_var := difficulty_var self;
             scheduled := scheduled self |},
          save_stats st' d, shown get_stats_text (to_dict r') true).
Proof.
  intros Hw Hne. cbv zeta.
  destruct (get_theme_color_known (current_theme self)
              (if String.eqb w "X" then "win" else "lose") Htheme)
    as [color Hcolor]; [destruct (String.eqb w "X"); auto |].
  exists color. split; [exact Hcolor |].
  unfold check_game_over, check_winner.
  rewrite (check_winner_board_grid _ Hb), Hw.
  assert (winner_truthy (Some w) = true) as ->
    by (simpl; apply negb_true_iff, String.eqb_neq; exact Hne).
  cbn [winner_is].
  destruct (String.eqb w "X") eqn:EX;
    unfold record_game, time_taken_at;
    cbn [set_gui_game_active set_current_combo set_gui_stats set_buttons
         gui_game gui_stats current_combo difficulty_var current_theme buttons];
    rewrite Hstart, Hstats, update_game_record; cbv zeta;
    rewrite (update_record_ok _ _ _ r) by (intros _; exact Hvar);
    cbn [set_gui_game_active set_current_combo set_gui_stats set_buttons
         gui_game gui_stats current_combo difficulty_var current_theme buttons];
    rewrite (highlight_winner_grid _ _ _ w Hb Hbuttons), EX, Hcolor;
    unfold shown; cbn [set_buttons gui_stats stats];
    destruct (get_stats_text _); reflexivity.
Qed.
End Window.

Lemma put_button_grid (buttons : list (list Button)) (c : Z * Z) (x : Button) :
  is_grid buttons -> in_grid c ->
  is_grid (put_button buttons c x)
  /\ button_at (put_button buttons c x) c = Some x
  /\ forall k, in_grid k -> k <> c ->
       button_at (put_button buttons c x) k = button_at buttons k.
Proof.
  intros Hg Hc.
  destruct (is_grid_inv _ Hg)
    as (x0 & x1 & x2 & y0 & y1 & y2 & z0 & z1 & z2 & ->).
  cell_cases Hc; (split; [apply is_grid_intro |]); (split; [reflexivity |]);
    intros k Hk Hne; cell_cases Hk; try reflexivity; contradiction.
Qed.

(** A click on an empty cell of an active game, up to the check whether
    the game is over. *)
Section Clicks.
Variable get_stats_text : pyval -> res string.

Lemma on_click_grid (now : Q) (c : Z * Z) (self : TicTacToeGUI) (d : disk)
    (file : string) (r : ScoreRecord) (t0 : Q) :
  window_ok self file r t0 -> gui_game_active self = true ->
  In c (blank_cells (game_board (gui_game self))) ->
  exists accent self1,
    get_theme_color (current_theme self) "accent" = Ok accent
    /\ self1
       = {| current_theme := current_theme self;
            gui_game := moved (gui_game self)
                          (place (game_board (gui_game self)) c "X") 1;
            gui_stats := gui_stats self;
            gui_difficulty := gui_difficulty self; gui_ai := gui_ai self;
            buttons := put_button (buttons self) c (marked_button accent "X");
            gui_game_active := true; current_combo := current_combo self;
            difficulty_var := difficulty_var self;
            scheduled := scheduled self |}
    /\ window_ok self1 file r t0
    /\ on_click get_stats_text now (fst c) (snd c) self d
       = (let '(self3, d3, over) :=
            check_game_over get_stats_text now self1 d in
          match over with
          | Raise e => (self3, d3, Raise e)
          | Ok true => (self3, d3, Ok tt)
          | Ok false =>
              ({| current_theme := current_theme self3;
                  gui_game := gui_game self3; gui_stats := gui_stats self3;
                  gui_difficulty := gui_difficulty self3;
                  gui_ai := gui_ai self3; buttons := buttons self3;
                  gui_game_active := gui_game_active self3;
                  current_combo := current_combo self3;
                  difficulty_var := difficulty_var self3;
                  scheduled := S (scheduled self3) |}, d3, Ok tt)
          end).
Proof.
  intros (Hb & Hg & Htheme & Hstart & Hstats & Hvar) Hactive Hc.
  apply blank_cells_spec in Hc as [Hgrid Hblank].
  destruct c as [i j]. cbn [fst snd].
  set (g1 := moved (gui_game self) (place (game_board (gui_game self)) (i, j) "X") 1).
  destruct (update_button_grid (set_gui_game self g1) Hg Htheme (i, j) "X" Hgrid)
    as (accent & Haccent & Hupdate).
  cbn [set_gui_game current_theme buttons fst snd] in Haccent, Hupdate.
  eexists accent, _. split; [exact Haccent |]. split; [reflexivity |].
  destruct (put_button_grid (buttons self) (i, j) (marked_button accent "X")
              Hg Hgrid) as (Hg' & _).
  split.
  { split; [apply place_3x3; assumption |]. split; [exact Hg' |].
    split; [exact Htheme |]. split; [exact Hstart |].
    split; [exact Hstats | exact Hvar]. }
  unfold on_click. rewrite Hactive. cbn [negb].
  rewrite (make_move_in_grid (gui_game self) i j "X" Hb Hgrid).
  unfold is_blank. rewrite Hblank.
  cbn [String.eqb Ascii.eqb Bool.eqb blank].
  change {| game_board := place (game_board (gui_game self)) (i, j) "X";
            current_player := current_player (gui_game self);
            move_count := move_count (gui_game self) + 1;
            start_time := start_time (gui_game self) |} with g1.
  rewrite Hupdate. unfold set_buttons, set_gui_game.
  cbn [current_theme gui_game gui_stats gui_difficulty gui_ai buttons
       gui_game_active current_combo difficulty_var scheduled].
  rewrite Hactive. reflexivity.
Qed.

(** A click that does not end the game: the mark is placed and the reply
    of the opponent is scheduled. *)
Lemma on_click_continue (now : Q) (c : Z * Z) (self : TicTacToeGUI)
    (d : disk) (file : string) (r : ScoreRecord) (t0 : Q) :
  window_ok self file r t0 -> gui_game_active self = true ->
  In c (blank_cells (game_board (gui_game self))) ->
  winner_of (place (game_board (gui_game self)) c "X") = None ->
  all_marked (place (game_board (gui_game self)) c "X") = false ->
  exists self',
    on_click get_stats_text now (fst c) (snd c) self d = (self', d, Ok tt)
    /\ window_ok self' file r t0
    /\ gui_game_active self' = true
    /\ game_board (gui_game self') = place (game_board (gui_game self)) c "X"
    /\ scheduled self' = S (scheduled self)
    /\ current_combo self' = current_combo self
    /\ gui_ai self' = gui_ai self.
Proof.
  intros Hok Hactive Hc Hnone Hfull.
  destruct (on_click_grid now c self d file r t0 Hok Hactive Hc)
    as (accent & self1 & _ & Hself1 & Hok1 & Hclick).
  rewrite Hclick.
  assert (game_board (gui_game self1)
          = place (game_board (gui_game self)) c "X") as Hboard
    by (rewrite Hself1; reflexivity).
  rewrite <- Hboard in Hnone, Hfull.
  rewrite (check_game_over_continue get_stats_text self1 d (proj1 Hok1) now
             Hnone Hfull).
  eexists. split; [reflexivity |].
  cbn [current_theme gui_game gui_stats gui_difficulty gui_ai buttons
       gui_game_active current_combo difficulty_var scheduled].
  split; [exact Hok1 |]. rewrite Hself1.
  repeat split; reflexivity.
Qed.

(** A click that completes a line: the game is recorded as won at once. *)
Lemma on_click_win (now : Q) (c : Z * Z) (self : TicTacToeGUI)
    (d : disk) (file : string) (r : ScoreRecord) (t0 : Q) :
  window_ok self file r t0 -> gui_game_active self = true ->
  In c (blank_cells (game_board (gui_game self))) ->
  winner_of (place (game_board (gui_game self)) c "X") = Some "X" ->
  let r' := (update_record "W" (int_of_Q (Qminus now t0))
               (difficulty_var self) r).1 in
  exists self',
    on_click get_stats_text now (fst c) (snd c) self d
    = (self', save_stats {| stats_file := file; stats := to_dict r' |} d,
       shown get_stats_text (to_dict r') tt)
    /\ gui_game_active self' = false
    /\ game_board (gui_game self') = place (game_board (gui_game self)) c "X"
    /\ gui_stats self' = {| stats_file := file; stats := to_dict r' |}
    /\ scheduled self' = scheduled self
    /\ current_combo self' = current_combo self + 1
    /\ gui_ai self' = gui_ai self.
Proof.
  intros Hok Hactive Hc Hw. cbv zeta.
  destruct (on_click_grid now c self d file r t0 Hok Hactive Hc)
    as (accent & self1 & _ & Hself1 & Hok1 & Hclick).
  rewrite Hclick.
  assert (game_board (gui_game self1)
          = place (game_board (gui_game self)) c "X") as Hboard
    by (rewrite Hself1; reflexivity).
  rewrite <- Hboard in Hw.
  destruct Hok1 as (Hb1 & Hg1 & Htheme1 & Hstart1 & Hstats1 & Hvar1).
  destruct (check_game_over_won get_stats_text self1 d file r t0 Hb1 Hg1
              Htheme1 Hstart1 Hstats1 Hvar1 now "X" Hw ltac:(discriminate))
    as (color & _ & Hover).
  rewrite Hover.
  assert (difficulty_var self1 = difficulty_var self) as ->
    by (rewrite Hself1; reflexivity).
  eexists. split; [unfold shown; destruct (get_stats_text _); reflexivity |].
  cbn [current_theme gui_game gui_stats gui_difficulty gui_ai buttons
       gui_game_active current_combo difficulty_var scheduled
       String.eqb Ascii.eqb Bool.eqb].
  rewrite Hself1. repeat split; reflexivity.
Qed.
End Clicks.

Lemma line_on_empty_board (l : (Z * Z) * (Z * Z) * (Z * Z)) :
  In l lines ->
  let c1 := fst (fst l) in
  let c2 := snd (fst l) in
  let c3 := snd l in
  let b1 := place empty_board c1 "X" in
  let b2 := place b1 c2 "X" in
  let b3 := place b2 c3 "X" in
  In c1 (blank_cells empty_board) /\ winner_of b1 = None
  /\ all_marked b1 = false
  /\ In c2 (blank_cells b1) /\ winner_of b2 = None /\ all_marked b2 = false
  /\ In c3 (blank_cells b2) /\ winner_of b3 = Some "X".
Proof.
  intros Hl. unfold lines in Hl. simpl in Hl.
  repeat (destruct Hl as [<- | Hl]); try contradiction; vm_compute; tauto.
Qed.

(** X26.  The desktop window does not ask whose turn it is.  In a new game,
    three clicks on the cells of a line that come before the first reply of
    the opponent put three marks of the player on the board: the game is
    recorded as won at the third click, at every difficulty, with two
    replies still scheduled and no mark of the opponent on the board,
    whether or not the text of the score panel can be built. *)
Theorem three_clicks_beat_the_reply (get_stats_text : pyval -> res string)
    (self : TicTacToeGUI) (d : disk) (file : string) (r : ScoreRecord)
    (t0 now1 now2 now3 : Q) (l : (Z * Z) * (Z * Z) * (Z * Z)) :
  window_ok self file r t0 -> gui_game_active self = true ->
  game_board (gui_game self) = empty_board -> In l lines ->
  let c1 := fst (fst l) in
  let c2 := snd (fst l) in
  let c3 := snd l in
  let self' :=
    (on_clicks get_stats_text [(now1, c1); (now2, c2); (now3, c3)] self d).1 in
  game_board (gui_game self')
  = place (place (place empty_board c1 "X") c2 "X") c3 "X"
  /\ check_winner (gui_game self') = Ok (Some "X")
  /\ gui_game_active self' = false
  /\ current_combo self' = current_combo self + 1
  /\ scheduled self' = S (S (scheduled self))
  /\ gui_ai self' = gui_ai self
  /\ exists r',
       gui_stats self' = {| stats_file := file; stats := to_dict r' |}
       /\ wins r' = wins r + 1 /\ games_played r' = games_played r + 1.
Proof.
  intros Hok Hactive Hempty Hl. cbv zeta.
  destruct (line_on_empty_board l Hl)
    as (Hc1 & Hn1 & Hf1 & Hc2 & Hn2 & Hf2 & Hc3 & Hw3).
  rewrite <- Hempty in *.
  destruct (on_click_continue get_stats_text now1 _ self d file r t0 Hok
              Hactive Hc1 Hn1 Hf1)
    as (s1 & Hrun1 & Hok1 & Hactive1 & Hb1 & Hsched1 & Hcombo1 & Hai1).
  rewrite <- Hb1 in *.
  destruct (on_click_continue get_stats_text now2 _ s1 d file r t0 Hok1
              Hactive1 Hc2 Hn2 Hf2)
    as (s2 & Hrun2 & Hok2 & Hactive2 & Hb2 & Hsched2 & Hcombo2 & Hai2).
  rewrite <- Hb2 in *.
  destruct (on_click_win get_stats_text now3 _ s2 d file r t0 Hok2 Hactive2
              Hc3 Hw3)
    as (s3 & Hrun3 & Hactive3 & Hb3 & Hstats3 & Hsched3 & Hcombo3 & Hai3).
  cbn [on_clicks]. rewrite Hrun1, Hrun2, Hrun3. cbn [fst].
  split; [exact Hb3 |].
  split.
  { unfold check_winner. rewrite Hb3.
    rewrite check_winner_board_grid
      by (apply place_3x3; [exact (proj1 Hok2) | apply blank_cells_spec in Hc3; tauto]).
    rewrite Hw3. reflexivity. }
  split; [exact Hactive3 |]. split; [lia |]. split; [lia |].
  split; [congruence |].
  eexists. split; [exact Hstats3 |].
  pose proof (update_record_tally "W" (int_of_Q (Qminus now3 t0))
                (difficulty_var s2) r) as Htally.
  cbv zeta in Htally. destruct Htally as (Hplayed & Hwins & _).
  cbn [String.eqb Ascii.eqb Bool.eqb] in Hwins.
  injection Hwins as Hwins _ _. split; [exact Hwins | exact Hplayed].
Qed.

Lemma three_clicks_beat_the_reply_witness :
  exists self,
    gui_init (fun _ => Ok "Total Games: 0") (0 # 1)
      {| files := ∅; read_only := false |} self = Ok self
    /\ check_winner
         (gui_game (on_clicks (fun _ => Raise KeyError)
                      [(1 # 1, (1, 0)); (2 # 1, (1, 1)); (3 # 1, (1, 2))]
                      self {| files := ∅; read_only := false |}).1)
       = Ok (Some "X").
Proof.
  destruct (gui_init (fun _ => Ok "Total Games: 0") (0 # 1)
              {| files := ∅; read_only := false |}
              {| current_theme := "dark"; gui_game := new_game;
                 gui_stats := {| stats_file := "tictactoe_stats.json";
                                 stats := default_stats |};
                 gui_difficulty := HARD; gui_ai := default_ai HARD;
                 buttons := []; gui_game_active := true; current_combo := 0;
                 difficulty_var := "HARD"; scheduled := 0 |})
    as [self | e] eqn:Hinit; [| discriminate Hinit].
  vm_compute in Hinit. injection Hinit as <-.
  eexists. split; [reflexivity |].
  apply (three_clicks_beat_the_reply (fun _ => Raise KeyError) _
           {| files := ∅; read_only := false |}
           "tictactoe_stats.json" first_record (0 # 1) (1 # 1) (2 # 1) (3 # 1) ((1, 0), (1, 1), (1, 2))).
  - split; [apply is_3x3_intro |]. split; [apply is_grid_intro |].
    split; [left; reflexivity |]. split; [reflexivity |].
    split; [reflexivity |]. right. right. reflexivity.
  - reflexivity.
  - reflexivity.
  - vm_compute. tauto.
Defined.





(** X28.  [reset_game] starts a new game on the same window.  The board is
    empty, the game active and every button free again; the combo, the
    score record and the difficulty are kept, and a reply of the opponent
    that is still scheduled is not cancelled: the window that results is
    one on which [ai_move] moves. *)
Theorem reset_game_frees_the_board (now now' : Q) (self : TicTacToeGUI)
    (file : string) (r : ScoreRecord) (t0 : Q) :
  window_ok self file r t0 ->
  exists self' primary,
    reset_game now now' self = Ok self'
    /\ get_theme_color (current_theme self) "primary" = Ok primary
    /\ gui_game self' = started_game now'
    /\ gui_game_active self' = true
    /\ (forall k x, in_grid k -> button_at (buttons self) k = Some x ->
          button_at (buttons self') k
          = Some {| text := " "; state := "normal";
                    disabledforeground := disabledforeground x;
                    bg := primary |})
    /\ current_combo self' = current_combo self
    /\ gui_stats self' = gui_stats self
    /\ gui_ai self' = gui_ai self
    /\ difficulty_var self' = difficulty_var self
    /\ scheduled self' = scheduled self
    /\ window_ok self' file r now'
    /\ check_winner (gui_game self') = Ok None
    /\ is_board_full (gui_game self') = false.
Proof.
  intros (Hb & Hg & Htheme & Hstart & Hstats & Hvar).
  assert (exists primary, get_theme_color (current_theme self) "primary"
                          = Ok primary) as [primary Hprimary]
    by (destruct Htheme as [-> | ->]; eexists; reflexivity).
  destruct (is_grid_inv _ Hg)
    as (x0 & x1 & x2 & y0 & y1 & y2 & z0 & z1 & z2 & Hbuttons).
  assert (for_each range3 (fun i =>
            for_each range3 (fun j => config_free (current_theme self) i j))
            (buttons self)
          = Ok (List.map (List.map (fun x =>
                  {| text := " "; state := "normal";
                     disabledforeground := disabledforeground x;
                     bg := primary |})) (buttons self))) as Hloop.
  { rewrite Hbuttons. unfold range3, for_each, config_free.
    rewrite Hprimary. reflexivity. }
  unfold reset_game. cbv zeta.
  cbn [set_gui_game set_gui_game_active current_theme buttons].
  rewrite Hloop. cbn [mbind].
  eexists _, primary. split; [reflexivity |]. split; [exact Hprimary |].
  cbn [set_buttons current_theme gui_game gui_stats gui_difficulty gui_ai
       buttons gui_game_active current_combo difficulty_var scheduled].
  split; [reflexivity |]. split; [reflexivity |].
  split.
  { intros k x Hk Hx. rewrite Hbuttons in *.
    cell_cases Hk; injection Hx as <-; reflexivity. }
  repeat (split; [reflexivity |]).
  split; [| split; reflexivity].
  split; [apply is_3x3_intro |]. split.
  { rewrite Hbuttons. apply is_grid_intro. }
  split; [exact Htheme |]. split; [reflexivity |].
  split; [exact Hstats | exact Hvar].
Qed.

Lemma reset_game_frees_the_board_witness :
  let x := {| text := "X"; state := "disabled";
              disabledforeground := Some "#3498db"; bg := "#2ecc71" |} in
  let self :=
    {| current_theme := "dark";
       gui_game := {| game_board := [["X"; "X"; "X"]; ["O"; "O"; " "];
                                     [" "; " "; " "]];
                      current_player := "X"; move_count := 5;
                      start_time := Some (10 # 1) |};
       gui_stats := {| stats_file := "tictactoe_stats.json";
                       stats := default_stats |};
       gui_difficulty := HARD; gui_ai := default_ai HARD;
       buttons := [[x; x; x]; [x; x; x]; [x; x; x]];
       gui_game_active := false; current_combo := 1;
       difficulty_var := "HARD"; scheduled := 2 |} in
  exists self' primary,
    reset_game (30 # 1) (31 # 1) self = Ok self'
    /\ get_theme_color (current_theme self) "primary" = Ok primary
    /\ gui_game self' = started_game (31 # 1)
    /\ gui_game_active self' = true.
Proof.
  intros x self.
  destruct (reset_game_frees_the_board (30 # 1) (31 # 1) self
              "tictactoe_stats.json"
              {| wins := 0; losses := 0; draws := 0; win_streak := 0;
                 best_time := None; games_played := 0; easy_wins := 0;
                 medium_wins := 0; hard_wins := 0 |} (10 # 1))
    as (self' & primary & H1 & H2 & H3 & H4 & _).
  - split; [apply is_3x3_intro |]. split; [apply is_grid_intro |].
    split; [left; reflexivity |]. split; [reflexivity |].
    split; [reflexivity |]. right. right. reflexivity.
  - exists self', primary. auto.
Defined.
